(** * mercury.c: start-up validation, file replay and shutdown order

    A shallow embedding of [src/mercury.c]: the option loop of [main], the
    checks that follow it, [open_and_dispatch] with the pcap reader thread it
    creates, and the shutdown sequence at the end of [main].

    The process is modelled as a computation that emits a trace of the
    observable things it does (text written to stdout and stderr, calls to
    functions of other compilation units, stores to the process-wide flags,
    thread creation and joining) and that ends either by returning from
    [main] or by calling [exit].  Everything the program takes from outside
    mercury.c (libc, the packet processor, the output thread, the pcap file
    layer, the configuration file reader) is gathered in a [world] record. *)

From Stdlib Require Import ZArith List String Ascii Bool Lia QArith.
Import ListNotations.
Open Scope string_scope.
Open Scope Z_scope.
Open Scope list_scope.

(** ** C data *)

(** [char *]: [None] is the NULL pointer. *)
Definition c_string := option string.

(** [float] and [double] values, without rounding. *)
Inductive c_float :=
| FNaN
| FInf (negative : bool)
| FFinite (q : Q).

Definition float_lt_zero (x : c_float) : bool :=
  match x with
  | FNaN => false
  | FInf negative => negative
  | FFinite q => negb (Qle_bool 0 q)
  end.

Definition float_gt_one (x : c_float) : bool :=
  match x with
  | FNaN => false
  | FInf negative => negb negative
  | FFinite q => negb (Qle_bool q 1)
  end.

(** [(double)a / (double)b] for two unsigned integers. *)
Definition float_div (a b : Z) : c_float :=
  if b =? 0 then (if a =? 0 then FNaN else FInf false)
  else FFinite (Qmake a (Z.to_pos b)).

(** The code of a character, as the [int] that [getopt_long] returns. *)
Definition ch (a : ascii) : Z := Z.of_N (N_of_ascii a).

Definition dquote : string := String (ascii_of_N 34) EmptyString.

(** [enum status] is declared in mercury.h; the code tests it with
    [if (status)] and against [status_ok]. *)
Definition status := Z.
Definition status_ok : status := 0.
Definition status_err : status := 1.

(** [enum analysis_cfg] is declared in analysis.h. *)
Definition analysis_off : Z := 0.
Definition analysis_on : Z := 1.

Definition O_TRUNC : Z := 512.
Definition FLAGS_CLOBBER : Z := O_TRUNC.
Definition EXIT_ERR : Z := 255.
Definition EXIT_FAILURE : Z := 1.
Definition BILLION : Z := 1000000000.

(** ** libc: strtol in base 10 on an LP64 machine *)
Module Libc.

Definition LONG_MAX : Z := 9223372036854775807.
Definition LONG_MIN : Z := -9223372036854775808.

Definition isspace (a : ascii) : bool :=
  let n := ch a in (n =? 32) || ((9 <=? n) && (n <=? 13)).

Definition digit (a : ascii) : option Z :=
  let n := ch a in
  if (48 <=? n) && (n <=? 57) then Some (n - 48) else None.

Fixpoint skip_space (s : string) : string :=
  match s with
  | String a t => if isspace a then skip_space t else s
  | EmptyString => s
  end.

Fixpoint digits (acc : Z) (s : string) : Z :=
  match s with
  | String a t =>
      match digit a with
      | Some d => digits (10 * acc + d) t
      | None => acc
      end
  | EmptyString => acc
  end.

(** [strtol(nptr, NULL, 10)]: the value, and whether errno was set
    (ERANGE, on overflow). *)
Definition strtol (nptr : string) : Z * bool :=
  let s := skip_space nptr in
  let '(negative, body) :=
    match s with
    | String a t =>
        if ch a =? 45 then (true, t)
        else if ch a =? 43 then (false, t)
        else (false, s)
    | EmptyString => (false, s)
    end in
  let v := digits 0 body in
  let v := if negative then - v else v in
  if v >? LONG_MAX then (LONG_MAX, true)
  else if v <? LONG_MIN then (LONG_MIN, true)
  else (v, false).

(** Conversion of a [long] to [int] (two's complement, 32 bits). *)
Definition to_int (v : Z) : Z := (v + 2147483648) mod 4294967296 - 2147483648.

End Libc.

(** ** The configuration *)

(** [struct mercury_config] (config.h), with the fields mercury.c uses. *)
Record mercury_config := {
  read_filename : c_string;
  write_filename : c_string;
  working_dir : c_string;
  capture_interface : c_string;
  fingerprint_filename : c_string;
  analysis : Z;
  flags : Z;
  mode : string;
  packet_filter_cfg : c_string;
  filter : Z;
  use_test_packet : Z;
  num_threads : Z;
  rotate : Z;
  loop_count : Z;
  adaptive : Z;
  user : c_string;
  buffer_fraction : c_float;
  verbosity : Z
}.

Definition set_read_filename (v : c_string) (cfg : mercury_config) : mercury_config :=
  {| read_filename := v; write_filename := write_filename cfg;
     working_dir := working_dir cfg;
     capture_interface := capture_interface cfg;
     fingerprint_filename := fingerprint_filename cfg;
     analysis := analysis cfg; flags := flags cfg; mode := mode cfg;
     packet_filter_cfg := packet_filter_cfg cfg; filter := filter cfg;
     use_test_packet := use_test_packet cfg; num_threads := num_threads cfg;
     rotate := rotate cfg; loop_count := loop_count cfg;
     adaptive := adaptive cfg; user := user cfg;
     buffer_fraction := buffer_fraction cfg; verbosity := verbosity cfg |}.

Definition set_write_filename (v : c_string) (cfg : mercury_config) : mercury_config :=
  {| read_filename := read_filename cfg; write_filename := v;
     working_dir := working_dir cfg;
     capture_interface := capture_interface cfg;
     fingerprint_filename := fingerprint_filename cfg;
     analysis := analysis cfg; flags := flags cfg; mode := mode cfg;
     packet_filter_cfg := packet_filter_cfg cfg; filter := filter cfg;
     use_test_packet := use_test_packet cfg; num_threads := num_threads cfg;
     rotate := rotate cfg; loop_count := loop_count cfg;
     adaptive := adaptive cfg; user := user cfg;
     buffer_fraction := buffer_fraction cfg; verbosity := verbosity cfg |}.

Definition set_working_dir (v : c_string) (cfg : mercury_config) : mercury_config :=
  {| read_filename := read_filename cfg;
     write_filename := write_filename cfg; working_dir := v;
     capture_interface := capture_interface cfg;
     fingerprint_filename := fingerprint_filename cfg;
     analysis := analysis cfg; flags := flags cfg; mode := mode cfg;
     packet_filter_cfg := packet_filter_cfg cfg; filter := filter cfg;
     use_test_packet := use_test_packet cfg; num_threads := num_threads cfg;
     rotate := rotate cfg; loop_count := loop_count cfg;
     adaptive := adaptive cfg; user := user cfg;
     buffer_fraction := buffer_fraction cfg; verbosity := verbosity cfg |}.

Definition set_capture_interface (v : c_string) (cfg : mercury_config) : mercury_config :=
  {| read_filename := read_filename cfg;
     write_filename := write_filename cfg; working_dir := working_dir cfg;
     capture_interface := v;
     fingerprint_filename := fingerprint_filename cfg;
     analysis := analysis cfg; flags := flags cfg; mode := mode cfg;
     packet_filter_cfg := packet_filter_cfg cfg; filter := filter cfg;
     use_test_packet := use_test_packet cfg; num_threads := num_threads cfg;
     rotate := rotate cfg; loop_count := loop_count cfg;
     adaptive := adaptive cfg; user := user cfg;
     buffer_fraction := buffer_fraction cfg; verbosity := verbosity cfg |}.

Definition set_fingerprint_filename (v : c_string) (cfg : mercury_config) : mercury_config :=
  {| read_filename := read_filename cfg;
     write_filename := write_filename cfg; working_dir := working_dir cfg;
     capture_interface := capture_interface cfg; fingerprint_filename := v;
     analysis := analysis cfg; flags := flags cfg; mode := mode cfg;
     packet_filter_cfg := packet_filter_cfg cfg; filter := filter cfg;
     use_test_packet := use_test_packet cfg; num_threads := num_threads cfg;
     rotate := rotate cfg; loop_count := loop_count cfg;
     adaptive := adaptive cfg; user := user cfg;
     buffer_fraction := buffer_fraction cfg; verbosity := verbosity cfg |}.

Definition set_analysis (v : Z) (cfg : mercury_config) : mercury_config :=
  {| read_filename := read_filename cfg;
     write_filename := write_filename cfg; working_dir := working_dir cfg;
     capture_interface := capture_interface cfg;
     fingerprint_filename := fingerprint_filename cfg; analysis := v;
     flags := flags cfg; mode := mode cfg;
     packet_filter_cfg := packet_filter_cfg cfg; filter := filter cfg;
     use_test_packet := use_test_packet cfg; num_threads := num_threads cfg;
     rotate := rotate cfg; loop_count := loop_count cfg;
     adaptive := adaptive cfg; user := user cfg;
     buffer_fraction := buffer_fraction cfg; verbosity := verbosity cfg |}.

Definition set_flags (v : Z) (cfg : mercury_config) : mercury_config :=
  {| read_filename := read_filename cfg;
     write_filename := write_filename cfg; working_dir := working_dir cfg;
     capture_interface := capture_interface cfg;
     fingerprint_filename := fingerprint_filename cfg;
     analysis := analysis cfg; flags := v; mode := mode cfg;
     packet_filter_cfg := packet_filter_cfg cfg; filter := filter cfg;
     use_test_packet := use_test_packet cfg; num_threads := num_threads cfg;
     rotate := rotate cfg; loop_count := loop_count cfg;
     adaptive := adaptive cfg; user := user cfg;
     buffer_fraction := buffer_fraction cfg; verbosity := verbosity cfg |}.

Definition set_mode (v : string) (cfg : mercury_config) : mercury_config :=
  {| read_filename := read_filename cfg;
     write_filename := write_filename cfg; working_dir := working_dir cfg;
     capture_interface := capture_interface cfg;
     fingerprint_filename := fingerprint_filename cfg;
     analysis := analysis cfg; flags := flags cfg; mode := v;
     packet_filter_cfg := packet_filter_cfg cfg; filter := filter cfg;
     use_test_packet := use_test_packet cfg; num_threads := num_threads cfg;
     rotate := rotate cfg; loop_count := loop_count cfg;
     adaptive := adaptive cfg; user := user cfg;
     buffer_fraction := buffer_fraction cfg; verbosity := verbosity cfg |}.

Definition set_packet_filter_cfg (v : c_string) (cfg : mercury_config) : mercury_config :=
  {| read_filename := read_filename cfg;
     write_filename := write_filename cfg; working_dir := working_dir cfg;
     capture_interface := capture_interface cfg;
     fingerprint_filename := fingerprint_filename cfg;
     analysis := analysis cfg; flags := flags cfg; mode := mode cfg;
     packet_filter_cfg := v; filter := filter cfg;
     use_test_packet := use_test_packet cfg; num_threads := num_threads cfg;
     rotate := rotate cfg; loop_count := loop_count cfg;
     adaptive := adaptive cfg; user := user cfg;
     buffer_fraction := buffer_fraction cfg; verbosity := verbosity cfg |}.

Definition set_filter (v : Z) (cfg : mercury_config) : mercury_config :=
  {| read_filename := read_filename cfg;
     write_filename := write_filename cfg; working_dir := working_dir cfg;
     capture_interface := capture_interface cfg;
     fingerprint_filename := fingerprint_filename cfg;
     analysis := analysis cfg; flags := flags cfg; mode := mode cfg;
     packet_filter_cfg := packet_filter_cfg cfg; filter := v;
     use_test_packet := use_test_packet cfg; num_threads := num_threads cfg;
     rotate := rotate cfg; loop_count := loop_count cfg;
     adaptive := adaptive cfg; user := user cfg;
     buffer_fraction := buffer_fraction cfg; verbosity := verbosity cfg |}.

Definition set_use_test_packet (v : Z) (cfg : mercury_config) : mercury_config :=
  {| read_filename := read_filename cfg;
     write_filename := write_filename cfg; working_dir := working_dir cfg;
     capture_interface := capture_interface cfg;
     fingerprint_filename := fingerprint_filename cfg;
     analysis := analysis cfg; flags := flags cfg; mode := mode cfg;
     packet_filter_cfg := packet_filter_cfg cfg; filter := filter cfg;
     use_test_packet := v; num_threads := num_threads cfg;
     rotate := rotate cfg; loop_count := loop_count cfg;
     adaptive := adaptive cfg; user := user cfg;
     buffer_fraction := buffer_fraction cfg; verbosity := verbosity cfg |}.

Definition set_num_threads (v : Z) (cfg : mercury_config) : mercury_config :=
  {| read_filename := read_filename cfg;
     write_filename := write_filename cfg; working_dir := working_dir cfg;
     capture_interface := capture_interface cfg;
     fingerprint_filename := fingerprint_filename cfg;
     analysis := analysis cfg; flags := flags cfg; mode := mode cfg;
     packet_filter_cfg := packet_filter_cfg cfg; filter := filter cfg;
     use_test_packet := use_test_packet cfg; num_threads := v;
     rotate := rotate cfg; loop_count := loop_count cfg;
     adaptive := adaptive cfg; user := user cfg;
     buffer_fraction := buffer_fraction cfg; verbosity := verbosity cfg |}.

Definition set_rotate (v : Z) (cfg : mercury_config) : mercury_config :=
  {| read_filename := read_filename cfg;
     write_filename := write_filename cfg; working_dir := working_dir cfg;
     capture_interface := capture_interface cfg;
     fingerprint_filename := fingerprint_filename cfg;
     analysis := analysis cfg; flags := flags cfg; mode := mode cfg;
     packet_filter_cfg := packet_filter_cfg cfg; filter := filter cfg;
     use_test_packet := use_test_packet cfg; num_threads := num_threads cfg;
     rotate := v; loop_count := loop_count cfg; adaptive := adaptive cfg;
     user := user cfg; buffer_fraction := buffer_fraction cfg;
     verbosity := verbosity cfg |}.

Definition set_loop_count (v : Z) (cfg : mercury_config) : mercury_config :=
  {| read_filename := read_filename cfg;
     write_filename := write_filename cfg; working_dir := working_dir cfg;
     capture_interface := capture_interface cfg;
     fingerprint_filename := fingerprint_filename cfg;
     analysis := analysis cfg; flags := flags cfg; mode := mode cfg;
     packet_filter_cfg := packet_filter_cfg cfg; filter := filter cfg;
     use_test_packet := use_test_packet cfg; num_threads := num_threads cfg;
     rotate := rotate cfg; loop_count := v; adaptive := adaptive cfg;
     user := user cfg; buffer_fraction := buffer_fraction cfg;
     verbosity := verbosity cfg |}.

Definition set_adaptive (v : Z) (cfg : mercury_config) : mercury_config :=
  {| read_filename := read_filename cfg;
     write_filename := write_filename cfg; working_dir := working_dir cfg;
     capture_interface := capture_interface cfg;
     fingerprint_filename := fingerprint_filename cfg;
     analysis := analysis cfg; flags := flags cfg; mode := mode cfg;
     packet_filter_cfg := packet_filter_cfg cfg; filter := filter cfg;
     use_test_packet := use_test_packet cfg; num_threads := num_threads cfg;
     rotate := rotate cfg; loop_count := loop_count cfg; adaptive := v;
     user := user cfg; buffer_fraction := buffer_fraction cfg;
     verbosity := verbosity cfg |}.

Definition set_user (v : c_string) (cfg : mercury_config) : mercury_config :=
  {| read_filename := read_filename cfg;
     write_filename := write_filename cfg; working_dir := working_dir cfg;
     capture_interface := capture_interface cfg;
     fingerprint_filename := fingerprint_filename cfg;
     analysis := analysis cfg; flags := flags cfg; mode := mode cfg;
     packet_filter_cfg := packet_filter_cfg cfg; filter := filter cfg;
     use_test_packet := use_test_packet cfg; num_threads := num_threads cfg;
     rotate := rotate cfg; loop_count := loop_count cfg;
     adaptive := adaptive cfg; user := v;
     buffer_fraction := buffer_fraction cfg; verbosity := verbosity cfg |}.

Definition set_buffer_fraction (v : c_float) (cfg : mercury_config) : mercury_config :=
  {| read_filename := read_filename cfg;
     write_filename := write_filename cfg; working_dir := working_dir cfg;
     capture_interface := capture_interface cfg;
     fingerprint_filename := fingerprint_filename cfg;
     analysis := analysis cfg; flags := flags cfg; mode := mode cfg;
     packet_filter_cfg := packet_filter_cfg cfg; filter := filter cfg;
     use_test_packet := use_test_packet cfg; num_threads := num_threads cfg;
     rotate := rotate cfg; loop_count := loop_count cfg;
     adaptive := adaptive cfg; user := user cfg; buffer_fraction := v;
     verbosity := verbosity cfg |}.

Definition set_verbosity (v : Z) (cfg : mercury_config) : mercury_config :=
  {| read_filename := read_filename cfg;
     write_filename := write_filename cfg; working_dir := working_dir cfg;
     capture_interface := capture_interface cfg;
     fingerprint_filename := fingerprint_filename cfg;
     analysis := analysis cfg; flags := flags cfg; mode := mode cfg;
     packet_filter_cfg := packet_filter_cfg cfg; filter := filter cfg;
     use_test_packet := use_test_packet cfg; num_threads := num_threads cfg;
     rotate := rotate cfg; loop_count := loop_count cfg;
     adaptive := adaptive cfg; user := user cfg;
     buffer_fraction := buffer_fraction cfg; verbosity := v |}.

(** ** What the process does, as a trace *)

(** The packet processor of a reader thread (pkt_proc.h): mercury.c reads its
    two counters. *)
Record pkt_proc := {
  bytes_written : Z;
  packets_written : Z
}.

Inductive thread :=
| file_reader_thread   (* tc.tid, created in open_and_dispatch *)
| output_thread.       (* the local output_thread of main *)

(** Text written by mercury.c; the constructor names the printf. *)
Inductive message :=
| msg_error (err_string : string)            (* "error: %s\n" *)
| msg_mercury_help (progname : string)       (* mercury_help *)
| msg_mercury_extended_help                  (* mercury_extended_help *)
| msg_banner                                 (* "mercury: packet metadata capture and analysis\n" *)
| msg_not_a_number (arg : string)            (* "%s: could not convert argument ..." *)
| msg_loop_count (n : Z)                     (* "Loop count: %d\n" *)
| msg_signal_handlers                        (* "%s: error while setting up signal handlers\n" *)
| msg_found_cpus (num_cpus threads : Z)      (* "found %d CPU(s), creating %d thread(s)\n" *)
| msg_initializing_interface (ifname : string)
| msg_output_thread_init                     (* perror("Unable to initialize output thread\n") *)
| msg_stopping_output                        (* "Stopping output thread and flushing ..." *)
| msg_frame_handler                          (* "error: could not initialize frame handler\n" *)
| msg_pcap_open (filename : string)          (* "%s: could not open pcap input file %s\n" *)
| msg_dispatch_error (code : Z)              (* "error in pcap file dispatch (code: %d)\n" *)
| msg_reader_context                         (* perror("could not initialize pcap reader thread context") *)
| msg_broadcast                              (* "%s: error broadcasting all clear ..." *)
| msg_thread_create                          (* "%s: error creating file reader thread\n" *)
| msg_statistics (packets bytes nano_seconds : Z) (byte_rate : c_float).
                                             (* "For all files, packets written: ..." *)

Inductive event :=
| Stdout (m : message)
| Stderr (m : message)
| call_mercury_config_read_from_file (filename : string)
| call_analysis_init
| call_set_percent_accept (percent : Z)
| call_setup_signal_handler
| call_get_nprocs
| call_srand
| call_ring_limits_init (fraction : c_float)
| call_output_thread_init (cfg : mercury_config)
| call_af_packet_bind_and_dispatch (cfg : mercury_config)
| call_timer_start
| call_pkt_proc_new_from_config (cfg : mercury_config) (tnum : Z)
| call_filename_append (src : string)
| call_pcap_file_open (filename : string) (fl : Z)
| store_t_output_p (v : Z)                   (* out_ctx.t_output_p = v *)
| call_pthread_cond_broadcast
| call_pthread_create (t : thread)
| call_pcap_file_dispatch_pkt_processor (loops : Z)
| call_pthread_join (t : thread)
| call_pcap_file_close
| delete_pkt_processor
| call_timer_stop
| call_analysis_finalize
| store_sig_stop_output (v : Z)              (* sig_stop_output = v *)
| call_destroy_thread_queues.

Definition trace := list event.

(** What the other compilation units and the system answer.  None of these
    functions is defined in mercury.c; each field gives the value the call
    returns in the run under study. *)
Record world := {
  (* config.h *)
  mercury_config_init : mercury_config;
  mercury_config_read_from_file : mercury_config -> string -> mercury_config;
  (* libc *)
  strtof : string -> c_float * bool;
  get_nprocs : Z;
  pthread_cond_broadcast : Z;
  pthread_create : Z;
  (* analysis.h, signal_handling.h, output.h *)
  analysis_init : Z;
  setup_signal_handler : status;
  output_thread_init : mercury_config -> Z;
  (* pkt_proc.h, utils.h, pcap_file_io.h *)
  pkt_proc_new_from_config : mercury_config -> Z -> option pkt_proc;
  filename_append : string -> string -> string * status;
  pcap_file_open : string -> Z -> status;
  pcap_file_dispatch_pkt_processor : c_string -> pkt_proc -> Z -> pkt_proc * status;
  timer_stop : Z
}.

(** ** Computations that may call exit *)

Inductive outcome (A : Type) :=
| Returned (a : A)
| Exited (code : Z).

Arguments Returned {A} a.
Arguments Exited {A} code.

Definition proc (A : Type) : Type := trace * outcome A.

Definition ret {A} (a : A) : proc A := ([], Returned a).

Definition bind {A B} (m : proc A) (k : A -> proc B) : proc B :=
  match m with
  | (t, Returned a) => let '(t', o) := k a in (t ++ t', o)
  | (t, Exited code) => (t, Exited code)
  end.

Definition emit (e : event) : proc unit := ([e], Returned tt).

Definition exit {A} (code : Z) : proc A := ([], Exited code).

Definition printf (m : message) : proc unit := emit (Stdout m).

Definition when (b : bool) (m : proc unit) : proc unit :=
  if b then m else ret tt.

Notation "x <- m ;; k" := (bind m (fun x => k))
  (at level 61, m at next level, right associativity).
Notation "' p <- m ;; k" := (bind m (fun p => k))
  (at level 61, p pattern, m at next level, right associativity).
Notation "m ;; k" := (bind m (fun _ => k))
  (at level 61, right associativity).

(** The exit status of the process. *)
Definition exit_status (o : outcome Z) : Z :=
  match o with
  | Returned code => code
  | Exited code => code
  end.

(** A C integer used as a condition. *)
Definition truthy (v : Z) : bool := negb (v =? 0).

Definition is_null (p : c_string) : bool :=
  match p with
  | None => true
  | Some _ => false
  end.

(** ** usage *)

Definition extended_help_off : Z := 0.
Definition extended_help_on : Z := 1.

Definition usage {A} (progname : string) (err_string : c_string)
    (extended_help : Z) : proc A :=
  match err_string with
  | Some s => printf (msg_error s)
  | None => ret tt
  end ;;
  printf (msg_mercury_help progname) ;;
  when (truthy extended_help) (printf msg_mercury_extended_help) ;;
  exit EXIT_ERR.

(** ** The option loop of main *)

(** One answer of [getopt_long]: the value it returns and [optarg]. *)
Record getopt_result := {
  opt : Z;
  optarg : c_string
}.

(** The command line as [getopt_long] hands it to main: argv[0] and the
    answers of the successive calls, up to the one that returns -1. *)
Record command_line := {
  argv0 : string;
  options : list getopt_result
}.

(** The values [getopt_long] can return for the option string
    "r:w:c:f:t:b:l:u:soham:vp:d:" and the table long_opts. *)
Definition getopt_long_value (c : Z) : bool :=
  existsb (Z.eqb c)
    [ch "r"; ch "w"; ch "c"; ch "f"; ch "t"; ch "b"; ch "l"; ch "u";
     ch "s"; ch "o"; ch "h"; ch "a"; ch "m"; ch "v"; ch "p"; ch "d";
     1; 0; ch "?"].

(** The state of the loop: [cfg] and [num_inputs]. *)
Definition loop_state : Type := mercury_config * Z.

(** The body of [switch (c)]. *)
Definition option_case (w : world) (progname : string) (o : getopt_result)
    (st : loop_state) : proc loop_state :=
  let '(cfg, num_inputs) := st in
  let c := opt o in
  if c =? 1 then
    match optarg o with
    | Some a =>
        emit (call_mercury_config_read_from_file a) ;;
        ret (mercury_config_read_from_file w cfg a, num_inputs + 1)
    | None =>
        usage progname (Some "error: option config requires filename argument") extended_help_off
    end
  else if c =? ch "r" then
    match optarg o with
    | Some a => ret (set_read_filename (Some a) cfg, num_inputs + 1)
    | None =>
        usage progname (Some "error: option r or read requires filename argument") extended_help_off
    end
  else if c =? ch "w" then
    match optarg o with
    | Some a => ret (set_write_filename (Some a) cfg, num_inputs)
    | None =>
        usage progname (Some "error: option w or write requires filename argument") extended_help_off
    end
  else if c =? ch "d" then
    match optarg o with
    | Some a => ret (set_working_dir (Some a) cfg, num_inputs + 1)
    | None =>
        usage progname (Some "error: option d or directory requires working directory argument") extended_help_off
    end
  else if c =? ch "c" then
    match optarg o with
    | Some a => ret (set_capture_interface (Some a) cfg, num_inputs + 1)
    | None =>
        usage progname (Some "error: option c or capture requires interface argument") extended_help_off
    end
  else if c =? ch "f" then
    match optarg o with
    | Some a => ret (set_fingerprint_filename (Some a) cfg, num_inputs)
    | None =>
        usage progname (Some "error: option f or fingerprint requires filename argument") extended_help_off
    end
  else if c =? ch "a" then
    match optarg o with
    | Some _ =>
        usage progname (Some "error: option a or analysis does not use an argument") extended_help_off
    | None => ret (set_analysis analysis_on cfg, num_inputs)
    end
  else if c =? ch "o" then
    match optarg o with
    | Some _ =>
        usage progname (Some "error: option o or overwrite does not use an argument") extended_help_off
    | None => ret (set_mode "w" (set_flags FLAGS_CLOBBER cfg), num_inputs)
    end
  else if c =? ch "s" then
    cfg' <- match optarg o with
            | Some a =>
                match a with
                | String a0 rest =>
                    when (negb (ch a0 =? ch "=") || (rest =? "")%string)
                      (usage progname
                         (Some ("error: option s or select has the form s=" ++ dquote
                                ++ "packet filter config string" ++ dquote)%string)
                         extended_help_off) ;;
                    ret (set_packet_filter_cfg (Some rest) cfg)
                | EmptyString =>
                    usage progname
                      (Some ("error: option s or select has the form s=" ++ dquote
                             ++ "packet filter config string" ++ dquote)%string)
                      extended_help_off
                end
            | None => ret cfg
            end ;;
    ret (set_filter 1 cfg', num_inputs)
  else if c =? ch "h" then
    match optarg o with
    | Some _ =>
        usage progname (Some "error: option h or help does not use an argument") extended_help_on
    | None =>
        printf msg_banner ;;
        usage progname None extended_help_on
    end
  else if c =? ch "T" then
    match optarg o with
    | Some _ =>
        usage progname (Some "error: option T or test does not use an argument") extended_help_off
    | None => ret (set_use_test_packet 1 cfg, num_inputs + 1)
    end
  else if c =? ch "t" then
    match optarg o with
    | Some a =>
        if (a =? "cpu")%string then ret (set_num_threads (-1) cfg, num_inputs)
        else
          let '(v, errno) := Libc.strtol a in
          when errno (printf (msg_not_a_number a)) ;;
          ret (set_num_threads (Libc.to_int v) cfg, num_inputs)
    | None =>
        usage progname (Some "error: option t or threads requires a numeric argument") extended_help_off
    end
  else if c =? ch "l" then
    match optarg o with
    | Some a =>
        let '(v, errno) := Libc.strtol a in
        when errno (printf (msg_not_a_number a)) ;;
        ret (set_rotate v cfg, num_inputs)
    | None =>
        usage progname (Some "error: option l or limit requires a numeric argument") extended_help_off
    end
  else if c =? ch "p" then
    match optarg o with
    | Some a =>
        let '(v, errno) := Libc.strtol a in
        when errno (printf (msg_not_a_number a)) ;;
        ret (set_loop_count (Libc.to_int v) cfg, num_inputs)
    | None =>
        usage progname (Some "error: option p or loop requires a numeric argument") extended_help_off
    end
  else if c =? 0 then
    match optarg o with
    | Some _ =>
        usage progname (Some "error: option --adaptive does not use an argument") extended_help_off
    | None => ret (set_adaptive 1 cfg, num_inputs)
    end
  else if c =? ch "u" then
    match optarg o with
    | Some a => ret (set_user (Some a) cfg, num_inputs)
    | None =>
        usage progname (Some "error: option u or user requires an argument") extended_help_off
    end
  else if c =? ch "b" then
    match optarg o with
    | Some a =>
        let '(v, errno) := strtof w a in
        let cfg' := set_buffer_fraction v cfg in
        when errno (printf (msg_not_a_number a) ;;
                    usage progname None extended_help_off) ;;
        when (float_lt_zero v || float_gt_one v)
          (usage progname (Some "buffer fraction must be between 0.0 and 1.0 inclusive") extended_help_off) ;;
        ret (cfg', num_inputs)
    | None =>
        usage progname (Some "option b or buffer requires a numeric argument") extended_help_off
    end
  else if c =? ch "v" then
    match optarg o with
    | Some _ =>
        usage progname (Some "error: option v or verbose does not use an argument") extended_help_off
    | None => ret (set_verbosity 1 cfg, num_inputs)
    end
  else
    usage progname None extended_help_off.

(** [while (1) { c = getopt_long(...); if (c < 0) break; switch (c) ... }]:
    the list holds the answers that come before the negative one which
    ends the loop. *)
Fixpoint getopt_loop (w : world) (progname : string)
    (opts : list getopt_result) (st : loop_state) : proc loop_state :=
  match opts with
  | [] => ret st
  | o :: rest =>
      st' <- option_case w progname o st ;;
      getopt_loop w progname rest st'
  end.

(** ** The pcap reader thread *)

(** [struct pcap_reader_thread_context]; [rf] is the name of the file it
    has open, if any. *)
Record pcap_reader_thread_context := {
  pkt_processor : option pkt_proc;
  tnum : Z;
  rf : c_string;
  tc_loop_count : Z
}.

Definition pcap_reader_thread_context_init_from_config (w : world)
    (cfg : mercury_config) (tnum : Z)
    : proc (pcap_reader_thread_context * status) :=
  emit (call_pkt_proc_new_from_config cfg tnum) ;;
  let tc := {| pkt_processor := pkt_proc_new_from_config w cfg tnum;
               tnum := tnum; rf := None; tc_loop_count := loop_count cfg |} in
  match pkt_processor tc with
  | None =>
      printf msg_frame_handler ;;
      ret (tc, status_err)
  | Some _ =>
      match read_filename cfg with
      | Some name =>
          emit (call_filename_append name) ;;
          let '(input_filename, st) := filename_append w name "/" in
          if truthy st then ret (tc, st)
          else
            emit (call_pcap_file_open input_filename (flags cfg)) ;;
            let st := pcap_file_open w input_filename (flags cfg) in
            if truthy st then
              printf (msg_pcap_open name) ;;
              ret (tc, st)
            else
              ret ({| pkt_processor := pkt_processor tc; tnum := tnum;
                      rf := Some input_filename;
                      tc_loop_count := tc_loop_count tc |}, status_ok)
      | None => ret (tc, status_ok)
      end
  end.

(** The body of the reader thread; it returns the packet processor as the
    thread leaves it. *)
Definition pcap_file_processing_thread_func (w : world)
    (tc : pcap_reader_thread_context) (pp : pkt_proc) : proc pkt_proc :=
  emit (call_pcap_file_dispatch_pkt_processor (tc_loop_count tc)) ;;
  let '(pp', st) := pcap_file_dispatch_pkt_processor w (rf tc) pp (tc_loop_count tc) in
  when (truthy st) (printf (msg_dispatch_error st)) ;;
  ret pp'.

Definition open_and_dispatch (w : world) (cfg : mercury_config) : proc status :=
  emit call_timer_start ;;
  '(tc, st) <- pcap_reader_thread_context_init_from_config w cfg 0 ;;
  if negb (st =? status_ok) then
    emit (Stderr msg_reader_context) ;;
    ret st
  else
    match pkt_processor tc with
    | None => ret st   (* not reached: status_ok comes with a processor *)
    | Some pp =>
        emit (store_t_output_p 1) ;;
        emit call_pthread_cond_broadcast ;;
        when (negb (pthread_cond_broadcast w =? 0))
          (printf msg_broadcast ;; exit 255) ;;
        emit (call_pthread_create file_reader_thread) ;;
        when (truthy (pthread_create w))
          (printf msg_thread_create ;; exit 255) ;;
        pp' <- pcap_file_processing_thread_func w tc pp ;;
        emit (call_pthread_join file_reader_thread) ;;
        let bytes := bytes_written pp' in
        let packets := packets_written pp' in
        emit call_pcap_file_close ;;
        emit delete_pkt_processor ;;
        emit call_timer_stop ;;
        let nano_seconds := timer_stop w in
        let byte_rate := float_div (bytes * BILLION) nano_seconds in
        when (negb (is_null (write_filename cfg)) && truthy (verbosity cfg))
          (printf (msg_statistics packets bytes nano_seconds byte_rate)) ;;
        ret status_ok
    end.

(** ** main *)

(** [return code;] inside main ends the process with that status, as
    [exit (code)] does. *)
Definition return_from_main {A} (code : Z) : proc A := exit code.

(** main, lines 456-493: the checks on what the option loop collected. *)
Definition check_config (w : world) (progname : string)
    (cfg : mercury_config) (num_inputs : Z) : proc unit :=
  when (num_inputs =? 0)
    (usage progname (Some "neither read [r] nor capture [c] specified on command line") extended_help_off) ;;
  when (num_inputs >? 1)
    (usage progname (Some "incompatible arguments read [r] and capture [c] specified on command line") extended_help_off) ;;
  when (negb (is_null (fingerprint_filename cfg)) && negb (is_null (write_filename cfg)))
    (usage progname (Some "both fingerprint [f] and write [w] specified on command line") extended_help_off) ;;
  when (negb (num_threads cfg =? 1) && is_null (fingerprint_filename cfg)
        && is_null (write_filename cfg))
    (usage progname (Some "multiple threads [t] requested, but neither fingerprint [f] no write [w] specified on command line") extended_help_off) ;;
  when (truthy (analysis cfg))
    (emit call_analysis_init ;;
     when (analysis_init w =? -1) (return_from_main EXIT_FAILURE)) ;;
  (if loop_count cfg <? 1 then
     usage progname (Some "Invalid loop count, it should be >= 1") extended_help_off
   else
     when (loop_count cfg >? 1) (printf (msg_loop_count (loop_count cfg)))) ;;
  when (adaptive cfg >? 0)
    (if is_null (write_filename cfg) || is_null (capture_interface cfg) then
       usage progname (Some "The option --adaptive requires options -c capture interface and -w pcap file.") extended_help_off
     else
       emit (call_set_percent_accept 30)).

(** main, lines 495-536: signal handlers, the thread count, then capture
    or file replay.  The result is [cfg] as main holds it afterwards. *)
Definition process_packets (w : world) (cfg : mercury_config)
    : proc mercury_config :=
  emit call_setup_signal_handler ;;
  when (negb (setup_signal_handler w =? status_ok)) (emit (Stderr msg_signal_handlers)) ;;
  emit call_get_nprocs ;;
  let num_cpus := get_nprocs w in
  cfg <- (if num_threads cfg =? -1 then
            let cfg := set_num_threads num_cpus cfg in
            printf (msg_found_cpus num_cpus (num_threads cfg)) ;;
            ret cfg
          else ret cfg) ;;
  emit call_srand ;;
  match capture_interface cfg with
  | Some ifname =>
      when (truthy (verbosity cfg)) (printf (msg_initializing_interface ifname)) ;;
      emit (call_ring_limits_init (buffer_fraction cfg)) ;;
      emit (call_output_thread_init cfg) ;;
      when (negb (output_thread_init w cfg =? 0))
        (emit (Stderr msg_output_thread_init) ;;
         return_from_main EXIT_FAILURE) ;;
      emit (call_af_packet_bind_and_dispatch cfg)
  | None =>
      match read_filename cfg with
      | Some _ =>
          emit (call_output_thread_init cfg) ;;
          when (negb (output_thread_init w cfg =? 0))
            (emit (Stderr msg_output_thread_init) ;;
             return_from_main EXIT_FAILURE) ;;
          open_and_dispatch w cfg ;;
          ret tt
      | None => ret tt
      end
  end ;;
  ret cfg.

(** main, lines 538-549: stop the output thread and clean up. *)
Definition stop_output (cfg : mercury_config) : proc Z :=
  when (truthy (analysis cfg)) (emit call_analysis_finalize) ;;
  emit (Stderr msg_stopping_output) ;;
  emit (store_sig_stop_output 1) ;;
  emit (call_pthread_join output_thread) ;;
  emit call_destroy_thread_queues ;;
  ret 0.

Definition main (w : world) (cl : command_line) : proc Z :=
  let progname := argv0 cl in
  '(cfg, num_inputs) <- getopt_loop w progname (options cl) (mercury_config_init w, 0) ;;
  check_config w progname cfg num_inputs ;;
  cfg <- process_packets w cfg ;;
  stop_output cfg.

(** ** Reading a trace *)

(** Calls that create a thread: the output thread, the capture workers, the
    pcap reader thread. *)
Definition spawns_thread (e : event) : bool :=
  match e with
  | call_output_thread_init _
  | call_af_packet_bind_and_dispatch _
  | call_pthread_create _ => true
  | _ => false
  end.

(** The calls and stores by which main sets up, runs and shuts down the
    pipeline (ring buffers, output thread, capture, replay, queues): threads
    and output files are only touched by these.  What is left are the
    messages, the reading of a configuration file, analysis_init,
    set_percent_accept, the signal handlers, get_nprocs and srand. *)
Definition pipeline_event (e : event) : bool :=
  match e with
  | Stdout _ | Stderr _
  | call_mercury_config_read_from_file _
  | call_analysis_init
  | call_set_percent_accept _
  | call_setup_signal_handler
  | call_get_nprocs
  | call_srand => false
  | _ => true
  end.

(** What the option loop can emit. *)
Definition loop_event (e : event) : bool :=
  match e with
  | Stdout (msg_error _) | Stdout (msg_mercury_help _)
  | Stdout msg_mercury_extended_help | Stdout msg_banner
  | Stdout (msg_not_a_number _)
  | call_mercury_config_read_from_file _ => true
  | _ => false
  end.

(** What the checks after the loop can emit. *)
Definition check_event (e : event) : bool :=
  match e with
  | Stdout (msg_error _) | Stdout (msg_mercury_help _)
  | Stdout (msg_loop_count _)
  | call_analysis_init | call_set_percent_accept _ => true
  | _ => false
  end.

Definition is_create_reader (e : event) : bool :=
  match e with call_pthread_create file_reader_thread => true | _ => false end.

Definition is_join_reader (e : event) : bool :=
  match e with call_pthread_join file_reader_thread => true | _ => false end.

Definition is_reader_dispatch (e : event) : bool :=
  match e with call_pcap_file_dispatch_pkt_processor _ => true | _ => false end.

Definition is_join_output (e : event) : bool :=
  match e with call_pthread_join output_thread => true | _ => false end.

Definition is_set_stop (e : event) : bool :=
  match e with store_sig_stop_output v => negb (v =? 0) | _ => false end.

Definition is_destroy_queues (e : event) : bool :=
  match e with call_destroy_thread_queues => true | _ => false end.

Definition is_set_percent_accept_30 (e : event) : bool :=
  match e with call_set_percent_accept p => p =? 30 | _ => false end.

(** What [open_and_dispatch] can emit. *)
Definition reader_event (e : event) : bool :=
  match e with
  | Stdout _ | Stderr _
  | call_timer_start
  | call_pkt_proc_new_from_config _ _
  | call_filename_append _
  | call_pcap_file_open _ _
  | store_t_output_p _
  | call_pthread_cond_broadcast
  | call_pthread_create file_reader_thread
  | call_pcap_file_dispatch_pkt_processor _
  | call_pthread_join file_reader_thread
  | call_pcap_file_close
  | delete_pkt_processor
  | call_timer_stop => true
  | _ => false
  end.

(** What main does in the part that runs capture or replay. *)
Definition processing_event (e : event) : bool :=
  match e with
  | call_setup_signal_handler
  | call_get_nprocs
  | call_srand
  | call_ring_limits_init _
  | call_output_thread_init _
  | call_af_packet_bind_and_dispatch _ => true
  | _ => reader_event e
  end.

Definition is_statistics (e : event) : bool :=
  match e with Stdout (msg_statistics _ _ _ _) => true | _ => false end.

Definition is_capture (e : event) : bool :=
  match e with call_af_packet_bind_and_dispatch _ => true | _ => false end.

(** A producer exists or runs, so that records can be put in a queue: the
    reader thread is created or replays the file, or capture is going on
    (the capture workers live inside af_packet_bind_and_dispatch). *)
Definition producer_event (e : event) : bool :=
  is_create_reader e || is_reader_dispatch e || is_capture e.

(** What the option loop emits when it does not end in [usage]. *)
Definition returned_loop_event (e : event) : bool :=
  match e with
  | Stdout (msg_not_a_number _) | call_mercury_config_read_from_file _ => true
  | _ => false
  end.

(** The configuration a pipeline call is given. *)
Definition event_cfg (e : event) : option mercury_config :=
  match e with
  | call_output_thread_init cfg
  | call_af_packet_bind_and_dispatch cfg
  | call_pkt_proc_new_from_config cfg _ => Some cfg
  | _ => None
  end.

(** Every [q] event of the trace comes after some [p] event. *)
Definition only_after (p q : event -> bool) (tr : trace) : Prop :=
  forall l1 e l2, tr = l1 ++ e :: l2 -> q e = true -> existsb p l1 = true.

(** No [q] event comes after a [p] event. *)
Definition never_after (p q : event -> bool) (tr : trace) : Prop :=
  forall l1 e l2, tr = l1 ++ e :: l2 -> p e = true -> existsb q l2 = false.

(** The run ends in [usage]: the help text is printed, the exit status is
    EXIT_ERR, and nothing of the pipeline has been touched. *)
Definition usage_exit {A} (progname : string) (r : proc A) : Prop :=
  snd r = Exited EXIT_ERR /\
  In (Stdout (msg_mercury_help progname)) (fst r) /\
  existsb spawns_thread (fst r) = false /\
  existsb pipeline_event (fst r) = false.

(** ** Options on the command line *)

Definition has_option (c : Z) (opts : list getopt_result) : bool :=
  existsb (fun o => opt o =? c) opts.

(** The options that main counts in [num_inputs]. *)
Definition input_code (c : Z) : bool :=
  existsb (Z.eqb c) [1; ch "r"; ch "d"; ch "c"; ch "T"].

Definition counts_as_input (o : getopt_result) : bool := input_code (opt o).

Fixpoint num_input_options (opts : list getopt_result) : Z :=
  match opts with
  | [] => 0
  | o :: rest => (if counts_as_input o then 1 else 0) + num_input_options rest
  end.

(** The thread count that [-t arg] asks for. *)
Definition thread_count_arg (arg : string) : Z :=
  if (arg =? "cpu")%string then -1 else Libc.to_int (fst (Libc.strtol arg)).

(** The configuration the option loop has collected when it ends without
    calling [usage]. *)
Definition parsed_config (w : world) (cl : command_line) : option mercury_config :=
  match getopt_loop w (argv0 cl) (options cl) (mercury_config_init w, 0) with
  | (_, Returned (cfg, _)) => Some cfg
  | (_, Exited _) => None
  end.

(** The run ends before the pipeline starts: in [usage], or, when the
    analysis engine does not initialise, by [return EXIT_FAILURE] right
    after the call of analysis_init. *)
Definition stops_before_pipeline (w : world) (cl : command_line) : Prop :=
  usage_exit (argv0 cl) (main w cl) \/
  (snd (main w cl) = Exited EXIT_FAILURE /\
   analysis_init w = -1 /\
   In call_analysis_init (fst (main w cl)) /\
   ~ In (Stdout (msg_mercury_help (argv0 cl))) (fst (main w cl)) /\
   existsb spawns_thread (fst (main w cl)) = false /\
   existsb pipeline_event (fst (main w cl)) = false).

(** mercury_config_read_from_file is not part of mercury.c.  A reader that
    only adds to the configuration does not take away an output file name
    that is already there. *)
Definition config_file_keeps_outputs (w : world) : Prop :=
  forall cfg name,
    (fingerprint_filename cfg <> None ->
     fingerprint_filename (mercury_config_read_from_file w cfg name) <> None) /\
    (write_filename cfg <> None ->
     write_filename (mercury_config_read_from_file w cfg name) <> None).

(** mercury_config_init is not part of mercury.c either.  A start
    configuration without output file names. *)
Definition starts_without_outputs (w : world) : Prop :=
  fingerprint_filename (mercury_config_init w) = None /\
  write_filename (mercury_config_init w) = None.

Definition starts_without_capture (w : world) : Prop :=
  capture_interface (mercury_config_init w) = None.

(** [-t arg] is on the command line, and neither another -t nor a
    configuration file comes after it. *)
Definition last_thread_option (opts : list getopt_result) (arg : string) : Prop :=
  exists before after,
    opts = before ++ {| opt := ch "t"; optarg := Some arg |} :: after /\
    has_option (ch "t") after = false /\
    has_option 1 after = false.

(** ** Concrete runs *)

(** A short option with its argument, and the two long-only options. *)
Definition short (c : ascii) (arg : c_string) : getopt_result :=
  {| opt := ch c; optarg := arg |}.
Definition long_config (name : string) : getopt_result :=
  {| opt := 1; optarg := Some name |}.
Definition long_adaptive : getopt_result :=
  {| opt := 0; optarg := None |}.

Definition mercury (opts : list getopt_result) : command_line :=
  {| argv0 := "mercury"; options := opts |}.

(** A start configuration: no file names, one thread, one pass over the
    input. *)
Definition blank_config : mercury_config :=
  {| read_filename := None; write_filename := None; working_dir := None;
     capture_interface := None; fingerprint_filename := None;
     analysis := analysis_off; flags := 128; mode := "w";
     packet_filter_cfg := None; filter := 0; use_test_packet := 0;
     num_threads := 1; rotate := 0; loop_count := 1; adaptive := 0;
     user := None; buffer_fraction := FFinite (1 # 10); verbosity := 0 |}.

(** A system in which every call succeeds: 8 processors, a replay of 10
    packets and 1000 bytes in 5000 ns, configuration files that change
    nothing. *)
Definition calm_world : world :=
  {| mercury_config_init := blank_config;
     mercury_config_read_from_file := fun cfg _ => cfg;
     strtof := fun _ => (FFinite (1 # 10), false);
     get_nprocs := 8;
     pthread_cond_broadcast := 0;
     pthread_create := 0;
     analysis_init := 0;
     setup_signal_handler := status_ok;
     output_thread_init := fun _ => 0;
     pkt_proc_new_from_config :=
       fun _ _ => Some {| bytes_written := 0; packets_written := 0 |};
     filename_append := fun name _ => (name, status_ok);
     pcap_file_open := fun _ _ => status_ok;
     pcap_file_dispatch_pkt_processor :=
       fun _ _ _ => ({| bytes_written := 1000; packets_written := 10 |}, status_ok);
     timer_stop := 5000 |}.

(** The same system, where the pcap file to read cannot be opened. *)
Definition unreadable_world : world :=
  {| mercury_config_init := blank_config;
     mercury_config_read_from_file := fun cfg _ => cfg;
     strtof := strtof calm_world;
     get_nprocs := 8;
     pthread_cond_broadcast := 0;
     pthread_create := 0;
     analysis_init := 0;
     setup_signal_handler := status_ok;
     output_thread_init := fun _ => 0;
     pkt_proc_new_from_config := pkt_proc_new_from_config calm_world;
     filename_append := fun name _ => (name, status_ok);
     pcap_file_open := fun _ _ => status_err;
     pcap_file_dispatch_pkt_processor :=
       pcap_file_dispatch_pkt_processor calm_world;
     timer_stop := 5000 |}.

(** The same system, where the analysis engine does not initialise. *)
Definition no_analysis_world : world :=
  {| mercury_config_init := blank_config;
     mercury_config_read_from_file := fun cfg _ => cfg;
     strtof := strtof calm_world;
     get_nprocs := 8;
     pthread_cond_broadcast := 0;
     pthread_create := 0;
     analysis_init := -1;
     setup_signal_handler := status_ok;
     output_thread_init := fun _ => 0;
     pkt_proc_new_from_config := pkt_proc_new_from_config calm_world;
     filename_append := fun name _ => (name, status_ok);
     pcap_file_open := fun _ _ => status_ok;
     pcap_file_dispatch_pkt_processor :=
       pcap_file_dispatch_pkt_processor calm_world;
     timer_stop := 5000 |}.

(** ** Further readings of a run *)

Definition is_output_thread_init (e : event) : bool :=
  match e with call_output_thread_init _ => true | _ => false end.

Definition is_store_output_start (e : event) : bool :=
  match e with store_t_output_p v => negb (v =? 0) | _ => false end.

Definition is_broadcast (e : event) : bool :=
  match e with call_pthread_cond_broadcast => true | _ => false end.

Definition is_analysis_init (e : event) : bool :=
  match e with call_analysis_init => true | _ => false end.

Definition is_analysis_finalize (e : event) : bool :=
  match e with call_analysis_finalize => true | _ => false end.

Definition is_signal_handler_message (e : event) : bool :=
  match e with Stderr msg_signal_handlers => true | _ => false end.

(** The three steps of the shutdown. *)
Definition is_shutdown_event (e : event) : bool :=
  is_set_stop e || is_join_output e || is_destroy_queues e.

(** The end of main, lines 544-547. *)
Definition shutdown_sequence : trace :=
  [Stderr msg_stopping_output; store_sig_stop_output 1;
   call_pthread_join output_thread; call_destroy_thread_queues].

(** What only the replay of a file does. *)
Definition is_replay_event (e : event) : bool :=
  match e with
  | call_timer_start
  | call_pkt_proc_new_from_config _ _
  | call_filename_append _
  | call_pcap_file_open _ _
  | store_t_output_p _
  | call_pthread_cond_broadcast
  | call_pthread_create file_reader_thread
  | call_pcap_file_dispatch_pkt_processor _
  | call_pthread_join file_reader_thread
  | call_pcap_file_close
  | delete_pkt_processor
  | call_timer_stop => true
  | _ => false
  end.

(** What only a capture does. *)
Definition is_capture_event (e : event) : bool :=
  match e with
  | call_ring_limits_init _ | call_af_packet_bind_and_dispatch _ => true
  | _ => false
  end.

(** What is done with the reader's file and processor once it is joined. *)
Definition is_reader_cleanup (e : event) : bool :=
  match e with
  | call_pcap_file_close | delete_pkt_processor | call_timer_stop => true
  | _ => false
  end.

(** The loop count a replay is dispatched with. *)
Definition dispatch_loops (e : event) : option Z :=
  match e with
  | call_pcap_file_dispatch_pkt_processor n => Some n
  | _ => None
  end.

(** The option codes that [switch (c)] has a case for, -h aside: every
    other code ends in [usage]. *)
Definition option_handled (c : Z) : bool :=
  existsb (Z.eqb c)
    [1; ch "r"; ch "w"; ch "d"; ch "c"; ch "f"; ch "a"; ch "o"; ch "s";
     ch "T"; ch "t"; ch "l"; ch "p"; 0; ch "u"; ch "b"; ch "v"].

(** What the checks of main, lines 456-493, ask of the configuration. *)
Definition passes_checks (w : world) (cl : command_line)
    (cfg : mercury_config) : Prop :=
  num_input_options (options cl) = 1 /\
  (fingerprint_filename cfg = None \/ write_filename cfg = None) /\
  (num_threads cfg = 1 \/ fingerprint_filename cfg <> None \/
   write_filename cfg <> None) /\
  (analysis cfg <> 0 -> analysis_init w <> -1) /\
  1 <= loop_count cfg /\
  (0 < adaptive cfg ->
   write_filename cfg <> None /\ capture_interface cfg <> None).

(** The configuration that capture or replay is started with. *)
Definition pipeline_config (w : world) (cfg : mercury_config) : mercury_config :=
  if num_threads cfg =? -1 then set_num_threads (get_nprocs w) cfg else cfg.

(** The same system with another answer of setup_signal_handler. *)
Definition with_setup_signal_handler (s : status) (w : world) : world :=
  {| mercury_config_init := mercury_config_init w;
     mercury_config_read_from_file := mercury_config_read_from_file w;
     strtof := strtof w;
     get_nprocs := get_nprocs w;
     pthread_cond_broadcast := pthread_cond_broadcast w;
     pthread_create := pthread_create w;
     analysis_init := analysis_init w;
     setup_signal_handler := s;
     output_thread_init := output_thread_init w;
     pkt_proc_new_from_config := pkt_proc_new_from_config w;
     filename_append := filename_append w;
     pcap_file_open := pcap_file_open w;
     pcap_file_dispatch_pkt_processor := pcap_file_dispatch_pkt_processor w;
     timer_stop := timer_stop w |}.

(** A system whose configuration files name both a capture interface and
    a pcap file to read, and one whose replay fails in the dispatch. *)
Definition two_inputs_world : world :=
  {| mercury_config_init := blank_config;
     mercury_config_read_from_file :=
       fun cfg _ => set_capture_interface (Some "eth0")
                      (set_read_filename (Some "in.pcap") cfg);
     strtof := strtof calm_world;
     get_nprocs := 8;
     pthread_cond_broadcast := 0;
     pthread_create := 0;
     analysis_init := 0;
     setup_signal_handler := status_ok;
     output_thread_init := fun _ => 0;
     pkt_proc_new_from_config := pkt_proc_new_from_config calm_world;
     filename_append := fun name _ => (name, status_ok);
     pcap_file_open := fun _ _ => status_ok;
     pcap_file_dispatch_pkt_processor :=
       pcap_file_dispatch_pkt_processor calm_world;
     timer_stop := 5000 |}.

Definition failing_dispatch_world : world :=
  {| mercury_config_init := blank_config;
     mercury_config_read_from_file := fun cfg _ => cfg;
     strtof := strtof calm_world;
     get_nprocs := 8;
     pthread_cond_broadcast := 0;
     pthread_create := 0;
     analysis_init := 0;
     setup_signal_handler := status_ok;
     output_thread_init := fun _ => 0;
     pkt_proc_new_from_config := pkt_proc_new_from_config calm_world;
     filename_append := fun name _ => (name, status_ok);
     pcap_file_open := fun _ _ => status_ok;
     pcap_file_dispatch_pkt_processor :=
       fun _ pp _ => (pp, status_err);
     timer_stop := 5000 |}.

(** The field in which the option [c] stores its file or interface name. *)
Definition name_field (c : Z) (cfg : mercury_config) : c_string :=
  if c =? ch "r" then read_filename cfg
  else if c =? ch "w" then write_filename cfg
  else if c =? ch "f" then fingerprint_filename cfg
  else if c =? ch "c" then capture_interface cfg
  else None.

(** The option [c] stands on the command line with the argument [arg],
    and neither the same option nor a configuration file comes after it. *)
Definition last_option (opts : list getopt_result) (c : Z) (arg : c_string) : Prop :=
  exists before after,
    opts = before ++ {| opt := c; optarg := arg |} :: after /\
    has_option c after = false /\
    has_option 1 after = false.


(** A system in which the output thread does not start. *)
Definition no_output_world : world :=
  {| mercury_config_init := blank_config;
     mercury_config_read_from_file := fun cfg _ => cfg;
     strtof := strtof calm_world;
     get_nprocs := 8;
     pthread_cond_broadcast := 0;
     pthread_create := 0;
     analysis_init := 0;
     setup_signal_handler := status_ok;
     output_thread_init := fun _ => -1;
     pkt_proc_new_from_config := pkt_proc_new_from_config calm_world;
     filename_append := fun name _ => (name, status_ok);
     pcap_file_open := fun _ _ => status_ok;
     pcap_file_dispatch_pkt_processor :=
       pcap_file_dispatch_pkt_processor calm_world;
     timer_stop := 5000 |}.


Definition is_pcap_file_open (e : event) : bool :=
  match e with call_pcap_file_open _ _ => true | _ => false end.

(** ** The monad *)

Lemma bind_returned {A B} (m : proc A) (k : A -> proc B) t a :
  m = (t, Returned a) -> bind m k = (t ++ fst (k a), snd (k a)).
Proof.
  intros ->. unfold bind. destruct (k a); reflexivity.
Qed.

Lemma bind_inv {A B} (m : proc A) (k : A -> proc B) t o :
  bind m k = (t, o) ->
  (exists code, m = (t, Exited code) /\ o = Exited code) \/
  (exists t1 a t2, m = (t1, Returned a) /\ k a = (t2, o) /\ t = t1 ++ t2).
Proof.
  unfold bind. destruct m as [t1 [a|code]].
  - destruct (k a) as [t2 o2] eqn:E. intros H. inversion H; subst.
    right. exists t1, a, t2. repeat split; auto.
  - intros H. inversion H; subst. left. exists code. split; reflexivity.
Qed.

(** ** Lists of events *)

Lemma existsb_false_Forall {A} (p : A -> bool) l :
  existsb p l = false <-> Forall (fun x => p x = false) l.
Proof.
  induction l as [|x l IH]; simpl.
  - split; auto.
  - rewrite orb_false_iff, IH. split.
    + intros [Hx Hl]. constructor; assumption.
    + intros H. inversion H; subst. split; assumption.
Qed.

Lemma Forall_true_existsb_false {A} (p q : A -> bool) l :
  (forall x, p x = true -> q x = false) ->
  Forall (fun x => p x = true) l -> existsb q l = false.
Proof.
  intros Hpq H. apply existsb_false_Forall.
  eapply Forall_impl; [|exact H]. auto.
Qed.

Lemma only_after_no_q p q tr :
  existsb q tr = false -> only_after p q tr.
Proof.
  intros H l1 e l2 -> Hq.
  rewrite existsb_app in H. simpl in H. rewrite Hq in H.
  rewrite orb_true_r in H. discriminate.
Qed.

Lemma split_app_cons {A} (a b l1 l2 : list A) (e : A) :
  a ++ b = l1 ++ e :: l2 ->
  (exists r, a = l1 ++ e :: r /\ l2 = r ++ b) \/
  (exists r, l1 = a ++ r /\ b = r ++ e :: l2).
Proof.
  revert l1. induction a as [|x a IH]; intros l1 H; simpl in H.
  - right. exists l1. split; auto.
  - destruct l1 as [|y l1]; simpl in H.
    + inversion H; subst. left. exists a. split; reflexivity.
    + inversion H; subst. destruct (IH _ H2) as [[r [-> ->]]|[r [-> ->]]].
      * left. exists r. split; reflexivity.
      * right. exists r. split; reflexivity.
Qed.

Lemma only_after_app p q a b :
  only_after p q a ->
  (existsb p a = true \/ only_after p q b) ->
  only_after p q (a ++ b).
Proof.
  intros Ha Hb l1 e l2 H Hq.
  destruct (split_app_cons _ _ _ _ _ H) as [[r [-> ->]]|[r [-> ->]]].
  - eapply Ha; eauto.
  - rewrite existsb_app. destruct Hb as [Hb|Hb].
    + rewrite Hb. reflexivity.
    + rewrite (Hb r e l2 eq_refl Hq). apply orb_true_r.
Qed.

Lemma only_after_cons_other p q e tr :
  q e = false -> only_after p q tr -> only_after p q (e :: tr).
Proof.
  intros He H. change (e :: tr) with ([e] ++ tr).
  apply only_after_app; [|right; exact H].
  apply only_after_no_q. simpl. rewrite He. reflexivity.
Qed.

Lemma only_after_cons_p p q e tr :
  q e = false -> p e = true -> only_after p q (e :: tr).
Proof.
  intros He Hp. change (e :: tr) with ([e] ++ tr).
  apply only_after_app.
  - apply only_after_no_q. simpl. rewrite He. reflexivity.
  - left. simpl. rewrite Hp. reflexivity.
Qed.

Lemma never_after_no_p p q tr :
  existsb p tr = false -> never_after p q tr.
Proof.
  intros H l1 e l2 -> Hp.
  rewrite existsb_app in H. simpl in H. rewrite Hp in H.
  rewrite orb_true_r in H. discriminate.
Qed.

Lemma never_after_app p q a b :
  never_after p q a -> never_after p q b ->
  (existsb p a = false \/ existsb q b = false) ->
  never_after p q (a ++ b).
Proof.
  intros Ha Hb Hab l1 e l2 H Hp.
  destruct (split_app_cons _ _ _ _ _ H) as [[r [-> ->]]|[r [-> ->]]].
  - rewrite existsb_app, (Ha l1 e r eq_refl Hp). simpl.
    destruct Hab as [Hab|Hab]; [|exact Hab].
    rewrite existsb_app in Hab. simpl in Hab. rewrite Hp in Hab.
    rewrite orb_true_r in Hab. discriminate.
  - eapply Hb; eauto.
Qed.

(** ** One option *)

Ltac ch_values :=
  repeat match goal with
  | |- context [ch (Ascii ?b0 ?b1 ?b2 ?b3 ?b4 ?b5 ?b6 ?b7)] =>
      let v := eval vm_compute in (ch (Ascii b0 b1 b2 b3 b4 b5 b6 b7)) in
      change (ch (Ascii b0 b1 b2 b3 b4 b5 b6 b7)) with v
  | H : context [ch (Ascii ?b0 ?b1 ?b2 ?b3 ?b4 ?b5 ?b6 ?b7)] |- _ =>
      let v := eval vm_compute in (ch (Ascii b0 b1 b2 b3 b4 b5 b6 b7)) in
      change (ch (Ascii b0 b1 b2 b3 b4 b5 b6 b7)) with v in H
  end.

(** Walks through the cases of [switch (c)] in a hypothesis [H] that gives
    the result of [option_case]. *)
Ltac switch_cases H :=
  unfold option_case in H; cbn [opt optarg] in H; ch_values;
  repeat match type of H with
  | context [Z.eqb ?c ?k] =>
      is_var c;
      let E := fresh "E" in
      destruct (Z.eqb c k) eqn:E; cbv iota in H;
      [ apply Z.eqb_eq in E | ]
  end.

Ltac leaf H :=
  repeat (match type of H with
  | context [match ?a with Some _ => _ | None => _ end] => is_var a; destruct a
  | context [match ?a with String _ _ => _ | EmptyString => _ end] => is_var a; destruct a
  | context [let '(_, _) := ?x in _] => destruct x
  | context [String.eqb ?a ?b] => destruct (String.eqb a b)
  | context [when ?b _] => destruct b
  | context [if ?b then _ else _] => destruct b
  end; cbv beta iota delta [when] in H);
  cbn in H; inversion H; subst; clear H.

Lemma option_case_events w p o st t out :
  option_case w p o st = (t, out) ->
  Forall (fun e => loop_event e = true) t.
Proof.
  destruct o as [c a], st as [cfg n]. intros H.
  switch_cases H; leaf H; repeat constructor.
Qed.

Lemma option_case_exit w p o st t code :
  option_case w p o st = (t, Exited code) ->
  code = EXIT_ERR /\ In (Stdout (msg_mercury_help p)) t.
Proof.
  destruct o as [c a], st as [cfg n]. intros H.
  switch_cases H; leaf H; (split; [reflexivity | simpl; tauto]).
Qed.

Lemma option_case_num_inputs w p o cfg n t cfg' n' :
  option_case w p o (cfg, n) = (t, Returned (cfg', n')) ->
  n' = n + (if counts_as_input o then 1 else 0).
Proof.
  destruct o as [c a]. intros H.
  switch_cases H; unfold counts_as_input, input_code; cbn [opt existsb]; ch_values;
    repeat match goal with E : Z.eqb _ _ = false |- _ => rewrite ?E; clear E end;
    leaf H; cbn; lia.
Qed.

(** What an option other than --config does to the fields the checks of
    main read. *)
Lemma option_case_fields w p o cfg n t cfg' n' :
  option_case w p o (cfg, n) = (t, Returned (cfg', n')) ->
  (opt o =? 1) = false ->
  fingerprint_filename cfg' =
    (if opt o =? ch "f" then optarg o else fingerprint_filename cfg) /\
  write_filename cfg' =
    (if opt o =? ch "w" then optarg o else write_filename cfg) /\
  capture_interface cfg' =
    (if opt o =? ch "c" then optarg o else capture_interface cfg) /\
  read_filename cfg' =
    (if opt o =? ch "r" then optarg o else read_filename cfg) /\
  adaptive cfg' = (if opt o =? 0 then 1 else adaptive cfg) /\
  analysis cfg' = (if opt o =? ch "a" then analysis_on else analysis cfg) /\
  num_threads cfg' =
    (if opt o =? ch "t"
     then match optarg o with
          | Some a => thread_count_arg a
          | None => num_threads cfg
          end
     else num_threads cfg).
Proof.
  destruct o as [c a]. cbn [opt optarg]. intros H Hc.
  switch_cases H; ch_values;
    repeat match goal with
    | E : ?c = _ |- _ => is_var c; subst c
    end;
    try discriminate;
    repeat match goal with E : Z.eqb _ _ = false |- _ => rewrite ?E; clear E end;
    cbn [Z.eqb Pos.eqb];
    try (leaf H; cbn; repeat split; reflexivity).
  (* -t *)
  destruct a as [a|]; [|cbn in H; discriminate].
  unfold thread_count_arg.
  destruct (String.eqb a "cpu").
  - cbn in H. inversion H; subst. cbn. repeat split; reflexivity.
  - destruct (Libc.strtol a) as [v errno]. cbv beta iota in H.
    destruct errno; cbn in H; inversion H; subst; cbn; repeat split; reflexivity.
Qed.

(** --config hands the configuration to the reader of the file. *)
Lemma option_case_config w p o cfg n t cfg' n' :
  option_case w p o (cfg, n) = (t, Returned (cfg', n')) ->
  (opt o =? 1) = true ->
  exists name, optarg o = Some name /\
               cfg' = mercury_config_read_from_file w cfg name.
Proof.
  destruct o as [c a]. intros H E. cbn [opt optarg] in *.
  unfold option_case in H. cbn [opt optarg] in H. rewrite E in H.
  destruct a as [name|]; cbn in H; inversion H; subst.
  exists name. split; reflexivity.
Qed.

(** An option that takes an argument and passes the switch has one. *)
Lemma option_case_optarg w p o cfg n t cfg' n' :
  option_case w p o (cfg, n) = (t, Returned (cfg', n')) ->
  existsb (Z.eqb (opt o)) [ch "f"; ch "w"; ch "c"; ch "r"; ch "t"] = true ->
  exists a, optarg o = Some a.
Proof.
  destruct o as [c a]. intros H. cbn [opt optarg existsb]. ch_values.
  destruct a as [a|]; [intros _; exists a; reflexivity|].
  intros E. exfalso.
  switch_cases H;
    repeat match goal with
    | E : ?c = _ |- _ => is_var c; subst c
    end;
    try (cbn in H; discriminate);
    repeat match goal with E : Z.eqb _ _ = false |- _ => rewrite ?E in *; clear E end;
    try (cbn in E; discriminate).
  all: leaf H.
Qed.

(** ** The option loop *)

Lemma getopt_loop_cons_returned w p o rest st t st' :
  getopt_loop w p (o :: rest) st = (t, Returned st') ->
  exists t1 st1 t2,
    option_case w p o st = (t1, Returned st1) /\
    getopt_loop w p rest st1 = (t2, Returned st') /\
    t = t1 ++ t2.
Proof.
  cbn [getopt_loop]. unfold bind.
  destruct (option_case w p o st) as [t1 [st1|code]]; [|discriminate].
  destruct (getopt_loop w p rest st1) as [t2 o2] eqn:E2. intros H.
  inversion H; subst. exists t1, st1, t2. repeat split; auto.
Qed.

Lemma getopt_loop_app_returned w p l1 l2 st t st' :
  getopt_loop w p (l1 ++ l2) st = (t, Returned st') ->
  exists t1 st1 t2,
    getopt_loop w p l1 st = (t1, Returned st1) /\
    getopt_loop w p l2 st1 = (t2, Returned st') /\
    t = t1 ++ t2.
Proof.
  revert st t. induction l1 as [|o l1 IH]; intros st t H.
  - exists [], st, t. repeat split; auto.
  - rewrite <- app_comm_cons in H.
    apply getopt_loop_cons_returned in H.
    destruct H as (ta & sta & tb & Ha & Hb & ->).
    apply IH in Hb. destruct Hb as (t1 & st1 & t2 & H1 & H2 & ->).
    exists (ta ++ t1), st1, t2. repeat split; auto.
    + cbn [getopt_loop]. rewrite (bind_returned _ _ _ _ Ha), H1. reflexivity.
    + apply app_assoc.
Qed.

Lemma getopt_loop_events w p opts st t out :
  getopt_loop w p opts st = (t, out) ->
  Forall (fun e => loop_event e = true) t.
Proof.
  revert st t out. induction opts as [|o rest IH]; intros st t out H.
  - cbn in H. inversion H. constructor.
  - cbn [getopt_loop] in H. apply bind_inv in H.
    destruct H as [(code & H1 & ->)|(t1 & st1 & t2 & H1 & H2 & ->)].
    + eapply option_case_events; eauto.
    + apply Forall_app. split.
      * eapply option_case_events; eauto.
      * eapply IH; eauto.
Qed.

Lemma getopt_loop_exit w p opts st t code :
  getopt_loop w p opts st = (t, Exited code) ->
  code = EXIT_ERR /\ In (Stdout (msg_mercury_help p)) t.
Proof.
  revert st t. induction opts as [|o rest IH]; intros st t H.
  - cbn in H. discriminate.
  - cbn [getopt_loop] in H. apply bind_inv in H.
    destruct H as [(c1 & H1 & Hc)|(t1 & st1 & t2 & H1 & H2 & ->)].
    + inversion Hc; subst. eapply option_case_exit; eauto.
    + destruct (IH _ _ H2) as [Hc Hin].
      split; [exact Hc|]. apply in_or_app. right. exact Hin.
Qed.

Lemma getopt_loop_num_inputs w p opts cfg n t cfg' n' :
  getopt_loop w p opts (cfg, n) = (t, Returned (cfg', n')) ->
  n' = n + num_input_options opts.
Proof.
  revert cfg n t. induction opts as [|o rest IH]; intros cfg n t H.
  - cbn in H. inversion H; subst. cbn. lia.
  - apply getopt_loop_cons_returned in H.
    destruct H as (t1 & [cfg1 n1] & t2 & H1 & H2 & ->).
    apply option_case_num_inputs in H1. apply IH in H2.
    cbn [num_input_options]. lia.
Qed.

(** A property of the configuration that every option keeps holds at the
    end of the loop. *)
Lemma getopt_loop_keeps (P : mercury_config -> Prop)
    (allowed : getopt_result -> bool) w p :
  (forall o cfg n t cfg' n',
      allowed o = true ->
      option_case w p o (cfg, n) = (t, Returned (cfg', n')) ->
      P cfg -> P cfg') ->
  forall opts cfg n t cfg' n',
    forallb allowed opts = true ->
    getopt_loop w p opts (cfg, n) = (t, Returned (cfg', n')) ->
    P cfg -> P cfg'.
Proof.
  intros Hstep. induction opts as [|o rest IH]; intros cfg n t cfg' n' Hall H HP.
  - cbn in H. inversion H; subst. exact HP.
  - cbn in Hall. apply andb_prop in Hall. destruct Hall as [Ho Hrest].
    apply getopt_loop_cons_returned in H.
    destruct H as (t1 & [cfg1 n1] & t2 & H1 & H2 & ->).
    eapply IH; eauto.
Qed.

(** A property that some option sets up and every option keeps holds at
    the end of the loop. *)
Lemma getopt_loop_sets (P : mercury_config -> Prop)
    (sets : getopt_result -> bool) w p :
  (forall o cfg n t cfg' n',
      option_case w p o (cfg, n) = (t, Returned (cfg', n')) ->
      P cfg -> P cfg') ->
  (forall o cfg n t cfg' n',
      sets o = true ->
      option_case w p o (cfg, n) = (t, Returned (cfg', n')) ->
      P cfg') ->
  forall opts cfg n t cfg' n',
    existsb sets opts = true ->
    getopt_loop w p opts (cfg, n) = (t, Returned (cfg', n')) ->
    P cfg'.
Proof.
  intros Hkeep Hset. induction opts as [|o rest IH]; intros cfg n t cfg' n' Hex H.
  - cbn in Hex. discriminate.
  - apply getopt_loop_cons_returned in H.
    destruct H as (t1 & [cfg1 n1] & t2 & H1 & H2 & ->).
    cbn in Hex. destruct (sets o) eqn:Eo.
    + eapply (getopt_loop_keeps P (fun _ => true)); eauto.
      apply forallb_forall. reflexivity.
    + eapply IH; eauto.
Qed.

(** ** More on the monad *)

Lemma bind_ret {A B} (a : A) (k : A -> proc B) : bind (ret a) k = k a.
Proof.
  unfold bind, ret. destruct (k a); reflexivity.
Qed.

Lemma bind_usage {A B} p e x (k : A -> proc B) :
  bind (usage p e x) k = usage p e x.
Proof.
  destruct e; destruct (truthy x) eqn:E;
    unfold usage, when; rewrite E; reflexivity.
Qed.

Lemma usage_exit_usage {A} p e x : usage_exit p (@usage A p e x).
Proof.
  destruct e; destruct (truthy x) eqn:E;
    unfold usage, when; rewrite E; cbn; repeat split; cbn; auto.
Qed.

Lemma usage_exit_quiet_prefix {A} p t (r : proc A) :
  Forall (fun e => loop_event e = true) t ->
  usage_exit p r -> usage_exit p (t ++ fst r, snd r).
Proof.
  intros Ht (Ho & Hin & Hs & Hp). unfold usage_exit. cbn [fst snd].
  repeat split.
  - exact Ho.
  - apply in_or_app. right. exact Hin.
  - rewrite existsb_app, Hs, orb_false_r.
    eapply Forall_true_existsb_false; [|exact Ht].
    intros [] H; cbn in *; congruence.
  - rewrite existsb_app, Hp, orb_false_r.
    eapply Forall_true_existsb_false; [|exact Ht].
    intros [] H; cbn in *; congruence.
Qed.

(** ** The checks after the loop *)

Ltac by_usage :=
  cbn [when negb andb orb is_null]; rewrite ?bind_usage; apply usage_exit_usage.
Ltac skip_when := cbn [when negb andb orb is_null]; rewrite bind_ret.

Lemma check_config_no_input w p cfg :
  check_config w p cfg 0 =
  ([Stdout (msg_error "neither read [r] nor capture [c] specified on command line");
    Stdout (msg_mercury_help p)], Exited EXIT_ERR).
Proof. reflexivity. Qed.

Lemma check_config_many_inputs w p cfg n :
  1 < n ->
  check_config w p cfg n =
  ([Stdout (msg_error "incompatible arguments read [r] and capture [c] specified on command line");
    Stdout (msg_mercury_help p)], Exited EXIT_ERR).
Proof.
  intros Hn. unfold check_config.
  replace (n =? 0) with false by (symmetry; apply Z.eqb_neq; lia).
  replace (n >? 1) with true by (symmetry; apply Z.gtb_lt; lia).
  reflexivity.
Qed.

Lemma check_config_both_outputs w p cfg n :
  fingerprint_filename cfg <> None -> write_filename cfg <> None ->
  usage_exit p (check_config w p cfg n).
Proof.
  intros Hf Hw. unfold check_config.
  destruct (n =? 0); [by_usage|skip_when].
  destruct (n >? 1); [by_usage|skip_when].
  destruct (fingerprint_filename cfg); [|congruence].
  destruct (write_filename cfg); [|congruence].
  by_usage.
Qed.

Lemma check_config_threads w p cfg n :
  num_threads cfg <> 1 ->
  fingerprint_filename cfg = None -> write_filename cfg = None ->
  usage_exit p (check_config w p cfg n).
Proof.
  intros Ht Hf Hw. unfold check_config.
  destruct (n =? 0); [by_usage|skip_when].
  destruct (n >? 1); [by_usage|skip_when].
  rewrite Hf, Hw. skip_when.
  replace (num_threads cfg =? 1) with false by (symmetry; apply Z.eqb_neq; exact Ht).
  by_usage.
Qed.

Ltac usage_leaf :=
  solve [cbn; split;
         [repeat constructor | left; split; [reflexivity | cbn; auto 6]]].

Ltac z_facts :=
  repeat match goal with
  | E : (_ =? _) = true |- _ => apply Z.eqb_eq in E
  | E : (_ =? _) = false |- _ => apply Z.eqb_neq in E
  | E : (_ <? _) = true |- _ => apply Z.ltb_lt in E
  | E : (_ <? _) = false |- _ => apply Z.ltb_ge in E
  | E : (_ >? _) = _ |- _ => rewrite Z.gtb_ltb in E
  end.

(** What [check_config] does, case by case: it either ends the process
    (in [usage], or with EXIT_FAILURE when the analysis engine does not
    initialise) or returns with a configuration that passed every check. *)
Lemma check_config_spec w p cfg n :
  Forall (fun e => check_event e = true) (fst (check_config w p cfg n)) /\
  match snd (check_config w p cfg n) with
  | Exited code =>
      (code = EXIT_ERR /\
       In (Stdout (msg_mercury_help p)) (fst (check_config w p cfg n))) \/
      (code = EXIT_FAILURE /\ analysis cfg <> 0 /\ analysis_init w = -1 /\
       fst (check_config w p cfg n) = [call_analysis_init])
  | Returned _ =>
      n <> 0 /\ n <= 1 /\ 1 <= loop_count cfg /\
      (fingerprint_filename cfg = None \/ write_filename cfg = None) /\
      (num_threads cfg = 1 \/ fingerprint_filename cfg <> None \/
       write_filename cfg <> None) /\
      (analysis cfg <> 0 -> analysis_init w <> -1) /\
      (0 < adaptive cfg ->
       write_filename cfg <> None /\ capture_interface cfg <> None /\
       In (call_set_percent_accept 30) (fst (check_config w p cfg n)))
  end.
Proof.
  unfold check_config.
  destruct (n =? 0) eqn:E0; [usage_leaf|].
  destruct (n >? 1) eqn:E1; [usage_leaf|].
  destruct (fingerprint_filename cfg) as [f|] eqn:Ef;
    destruct (write_filename cfg) as [wf|] eqn:Ew;
    cbn [is_null negb andb orb]; [usage_leaf| | |].
  all: destruct (num_threads cfg =? 1) eqn:Et; cbn [negb andb];
    try usage_leaf.
  all: unfold truthy; destruct (analysis cfg =? 0) eqn:Ea; cbn [negb].
  all: try (destruct (analysis_init w =? -1) eqn:Ei;
            [solve [z_facts; cbn; split;
                    [repeat constructor | right; repeat split; auto] ] | ]).
  all: destruct (loop_count cfg <? 1) eqn:El; [usage_leaf|].
  all: destruct (loop_count cfg >? 1) eqn:El1.
  all: destruct (adaptive cfg >? 0) eqn:Ead.
  all: destruct (capture_interface cfg) as [ci|] eqn:Ec;
    cbn [is_null negb andb orb]; try usage_leaf.
  all: z_facts; cbn; (split; [repeat constructor|]);
    repeat split; auto; try lia; try congruence; try (intros; lia);
    try (right; left; congruence); try (right; right; congruence).
Qed.

(** ** Running a computation symbolically *)

(** The condition on which the evaluation of a computation is stuck. *)
Ltac head_scrutinee t :=
  lazymatch t with
  | match ?x with _ => _ end => head_scrutinee x
  | bind ?m _ => head_scrutinee m
  | when ?b _ => head_scrutinee b
  | negb ?b => head_scrutinee b
  | andb ?a _ => head_scrutinee a
  | orb ?a _ => head_scrutinee a
  | is_null ?p => head_scrutinee p
  | _ => t
  end.

(** [run H] evaluates the computation on the right of [H : r = m], with a
    case distinction at every condition, in the order of the code. *)
Ltac run H :=
  repeat (cbn -[open_and_dispatch] in H; unfold truthy in H;
          lazymatch type of H with
          | _ = (_, Returned _) => fail
          | _ = (_, Exited _) => fail
          | _ = ?T => let x := head_scrutinee T in destruct x eqn:?
          end);
  cbn -[open_and_dispatch] in H.

(** ** The pcap reader *)

Lemma open_and_dispatch_events w cfg :
  Forall (fun e => reader_event e = true) (fst (open_and_dispatch w cfg)).
Proof.
  remember (open_and_dispatch w cfg) as r eqn:Hr.
  unfold open_and_dispatch, pcap_reader_thread_context_init_from_config,
    pcap_file_processing_thread_func in Hr.
  run Hr; subst r; repeat constructor.
Qed.

Lemma open_and_dispatch_cfg w cfg :
  Forall (fun e => forall c, event_cfg e = Some c -> c = cfg)
    (fst (open_and_dispatch w cfg)).
Proof.
  remember (open_and_dispatch w cfg) as r eqn:Hr.
  unfold open_and_dispatch, pcap_reader_thread_context_init_from_config,
    pcap_file_processing_thread_func in Hr.
  run Hr; subst r; cbn [fst];
    repeat (constructor; [cbn; intros c Hc; congruence|]); constructor.
Qed.

(** When [open_and_dispatch] returns, the reader thread it created, if any,
    has been joined; when it ends the process, the status is 255. *)
Lemma open_and_dispatch_joins w cfg :
  match snd (open_and_dispatch w cfg) with
  | Returned _ =>
      existsb is_create_reader (fst (open_and_dispatch w cfg)) =
      existsb is_join_reader (fst (open_and_dispatch w cfg))
  | Exited code => code = 255
  end.
Proof.
  remember (open_and_dispatch w cfg) as r eqn:Hr.
  unfold open_and_dispatch, pcap_reader_thread_context_init_from_config,
    pcap_file_processing_thread_func in Hr.
  run Hr; subst r; reflexivity.
Qed.

(** The end of a replay that reached the join, with [-w] and [-v]. *)
Lemma open_and_dispatch_statistics w cfg :
  verbosity cfg <> 0 -> write_filename cfg <> None ->
  existsb is_join_reader (fst (open_and_dispatch w cfg)) = true ->
  exists pre pp name pp' st,
    pkt_proc_new_from_config w cfg 0 = Some pp /\
    pcap_file_dispatch_pkt_processor w name pp (loop_count cfg) = (pp', st) /\
    fst (open_and_dispatch w cfg) =
      pre ++ [call_pthread_join file_reader_thread; call_pcap_file_close;
              delete_pkt_processor; call_timer_stop;
              Stdout (msg_statistics (packets_written pp') (bytes_written pp')
                        (timer_stop w)
                        (float_div (bytes_written pp' * BILLION) (timer_stop w)))].
Proof.
  intros Hv Hw.
  remember (open_and_dispatch w cfg) as r eqn:Hr.
  unfold open_and_dispatch, pcap_reader_thread_context_init_from_config,
    pcap_file_processing_thread_func in Hr.
  run Hr; subst r; cbn [fst existsb is_join_reader orb]; try discriminate;
    try congruence; intros _.
  all: z_facts; try congruence.
  all: match goal with
       | H : pcap_file_dispatch_pkt_processor _ ?name ?pp _ = (?pp', ?st) |- _ =>
           eexists _, pp, name, pp', st; split; [reflexivity|]; split; [exact H|]
       end.
  all: lazymatch goal with
       | |- ?l = ?pre ++ _ =>
           let n := eval cbv in (List.length l - 5)%nat in
           unify pre (firstn n l); reflexivity
       end.
Qed.

(** ** Capture or replay *)

Lemma reader_event_processing e :
  reader_event e = true -> processing_event e = true.
Proof. destruct e; cbn; congruence. Qed.

(** After [run], the trace of [open_and_dispatch] is a variable; this
    brings the call back. *)
Ltac fold_reader :=
  rewrite ?app_nil_r in *;
  repeat match goal with
  | H : open_and_dispatch ?w ?c = (?t, ?o) |- _ =>
      is_var t;
      assert (t = fst (open_and_dispatch w c)) by (rewrite H; reflexivity);
      assert (o = snd (open_and_dispatch w c)) by (rewrite H; reflexivity);
      clear H; subst t
  end.

Lemma process_packets_events w cfg :
  Forall (fun e => processing_event e = true) (fst (process_packets w cfg)).
Proof.
  remember (process_packets w cfg) as r eqn:Hr.
  unfold process_packets in Hr.
  run Hr; subst r; cbn [fst]; fold_reader;
    repeat (constructor; [reflexivity|]); try constructor.
  all: eapply Forall_impl; [|apply open_and_dispatch_events].
  all: apply reader_event_processing.
Qed.

(** The configuration that capture or replay is started with: the one the
    checks accepted, with the processor count in place of -1. *)
Lemma process_packets_cfg w cfg :
  Forall (fun e => forall c, event_cfg e = Some c ->
                   c = if num_threads cfg =? -1
                       then set_num_threads (get_nprocs w) cfg else cfg)
    (fst (process_packets w cfg)).
Proof.
  remember (process_packets w cfg) as r eqn:Hr.
  unfold process_packets in Hr.
  run Hr; subst r; cbn [fst]; fold_reader;
    repeat (constructor; [cbn; intros c Hc; congruence|]); try constructor.
  all: apply open_and_dispatch_cfg.
Qed.


(** When this part returns, the reader thread it created, if any, has been
    joined, and [cfg] differs at most in the thread count; when it ends the
    process, the status is not 0. *)
Lemma process_packets_joins w cfg :
  match snd (process_packets w cfg) with
  | Returned cfg' =>
      existsb is_create_reader (fst (process_packets w cfg)) =
      existsb is_join_reader (fst (process_packets w cfg)) /\
      analysis cfg' = analysis cfg
  | Exited code => code <> 0
  end.
Proof.
  remember (process_packets w cfg) as r eqn:Hr.
  unfold process_packets in Hr.
  run Hr; subst r; cbn [fst snd]; fold_reader;
    try (split; reflexivity); try (unfold EXIT_FAILURE; lia).
  all: match goal with
       | H : _ = snd (open_and_dispatch ?w ?c) |- _ =>
           pose proof (open_and_dispatch_joins w c) as Hj; rewrite <- H in Hj
       end.
  all: try (split; [cbn; exact Hj | reflexivity]); try lia.
Qed.

(** ** main, in its four parts *)

Lemma stop_output_trace cfg :
  stop_output cfg =
  ((if truthy (analysis cfg) then [call_analysis_finalize] else []) ++
   [Stderr msg_stopping_output; store_sig_stop_output 1;
    call_pthread_join output_thread; call_destroy_thread_queues],
   Returned 0).
Proof.
  unfold stop_output. destruct (truthy (analysis cfg)); reflexivity.
Qed.

Lemma main_unfold w cl :
  main w cl =
  match getopt_loop w (argv0 cl) (options cl) (mercury_config_init w, 0) with
  | (t0, Exited code) => (t0, Exited code)
  | (t0, Returned (cfg, n)) =>
      match check_config w (argv0 cl) cfg n with
      | (t1, Exited code) => (t0 ++ t1, Exited code)
      | (t1, Returned _) =>
          match process_packets w cfg with
          | (t2, Exited code) => (t0 ++ t1 ++ t2, Exited code)
          | (t2, Returned cfg') =>
              (t0 ++ t1 ++ t2 ++ fst (stop_output cfg'), Returned 0)
          end
      end
  end.
Proof.
  unfold main, bind.
  destruct (getopt_loop _ _ _ _) as [t0 [[cfg n]|code]]; [|reflexivity].
  destruct (check_config _ _ _ _) as [t1 [u|code]]; [|reflexivity].
  destruct (process_packets _ _) as [t2 [cfg'|code]]; [|reflexivity].
  rewrite (stop_output_trace cfg'). reflexivity.
Qed.

(** ** Where the events of each part can occur *)

Ltac by_class :=
  let e := fresh "e" in
  intros e; destruct e; cbn; try congruence;
  match goal with
  | t : thread |- _ => destruct t; cbn; congruence
  | m : message |- _ => destruct m; cbn; congruence
  end.

(** Nothing that the option loop or the checks emit belongs to the
    pipeline. *)
Lemma loop_not_pipeline t :
  Forall (fun e => loop_event e = true) t ->
  existsb pipeline_event t = false /\ existsb spawns_thread t = false /\
  existsb is_set_percent_accept_30 t = false.
Proof.
  intros H. repeat split;
    (eapply Forall_true_existsb_false; [|exact H]); by_class.
Qed.

Lemma check_not_pipeline t :
  Forall (fun e => check_event e = true) t ->
  existsb pipeline_event t = false /\ existsb spawns_thread t = false.
Proof.
  intros H. repeat split;
    (eapply Forall_true_existsb_false; [|exact H]); by_class.
Qed.

(** Before capture or replay ends, nothing of the shutdown happens and no
    reader thread exists outside [process_packets]. *)
Lemma loop_not_shutdown t :
  Forall (fun e => loop_event e = true) t ->
  existsb is_set_stop t = false /\ existsb is_join_output t = false /\
  existsb is_destroy_queues t = false /\ existsb is_create_reader t = false /\
  existsb is_join_reader t = false /\ existsb producer_event t = false.
Proof.
  intros H. repeat split;
    (eapply Forall_true_existsb_false; [|exact H]); by_class.
Qed.

Lemma check_not_shutdown t :
  Forall (fun e => check_event e = true) t ->
  existsb is_set_stop t = false /\ existsb is_join_output t = false /\
  existsb is_destroy_queues t = false /\ existsb is_create_reader t = false /\
  existsb is_join_reader t = false /\ existsb producer_event t = false.
Proof.
  intros H. repeat split;
    (eapply Forall_true_existsb_false; [|exact H]); by_class.
Qed.

Lemma processing_not_shutdown t :
  Forall (fun e => processing_event e = true) t ->
  existsb is_set_stop t = false /\ existsb is_join_output t = false /\
  existsb is_destroy_queues t = false.
Proof.
  intros H. repeat split;
    (eapply Forall_true_existsb_false; [|exact H]); by_class.
Qed.

(** The shutdown sequence on its own. *)
Lemma stop_output_order cfg :
  only_after is_set_stop is_join_output (fst (stop_output cfg)) /\
  only_after is_join_output is_destroy_queues (fst (stop_output cfg)) /\
  existsb producer_event (fst (stop_output cfg)) = false /\
  existsb is_create_reader (fst (stop_output cfg)) = false /\
  existsb is_join_reader (fst (stop_output cfg)) = false.
Proof.
  rewrite stop_output_trace. cbn [fst].
  destruct (truthy (analysis cfg)); cbn [app]; repeat split; try reflexivity.
  all: repeat first
         [ apply only_after_cons_p; [reflexivity | reflexivity]
         | apply only_after_cons_other; [reflexivity|] ].
Qed.

(** ** Shutdown order *)

(** C1.  In every run of main: if a reader (producer) thread was created,
    the stop flag sig_stop_output is set only after that thread has been
    joined, and once the flag is set no reader thread is created or running
    and no capture is going on; the output thread is joined only after the
    flag is set; the thread queues are destroyed only after the output
    thread has been joined and, if a reader thread was created, after it
    has been joined. *)
Theorem C1_shutdown_order w cl :
  (existsb is_create_reader (fst (main w cl)) = true ->
   only_after is_join_reader is_set_stop (fst (main w cl))) /\
  never_after is_set_stop producer_event (fst (main w cl)) /\
  only_after is_set_stop is_join_output (fst (main w cl)) /\
  only_after is_join_output is_destroy_queues (fst (main w cl)) /\
  (existsb is_create_reader (fst (main w cl)) = true ->
   only_after is_join_reader is_destroy_queues (fst (main w cl))).
Proof.
  rewrite main_unfold.
  destruct (getopt_loop _ _ _ _) as [t0 [[cfg n]|code]] eqn:Hloop.
  2: { (* the option loop ended in usage *)
       apply getopt_loop_events, loop_not_shutdown in Hloop.
       destruct Hloop as (Hs & Hj & Hd & Hc & _). cbn [fst].
       repeat split; intros;
         first [apply only_after_no_q; assumption
               | apply never_after_no_p; assumption]. }
  apply getopt_loop_events, loop_not_shutdown in Hloop.
  destruct Hloop as (Hs0 & Hj0 & Hd0 & Hc0 & Hr0 & Hp0).
  pose proof (check_config_spec w (argv0 cl) cfg n) as [Hcheck _].
  apply check_not_shutdown in Hcheck.
  destruct Hcheck as (Hs1 & Hj1 & Hd1 & Hc1 & Hr1 & Hp1).
  destruct (check_config _ _ _ _) as [t1 [u|code]]; cbn [fst] in *.
  2: { (* a check failed *)
       repeat split; intros;
         first [apply only_after_no_q | apply never_after_no_p];
         rewrite existsb_app; rewrite ?Hs0, ?Hs1, ?Hj0, ?Hj1, ?Hd0, ?Hd1;
         reflexivity. }
  pose proof (process_packets_events w cfg) as Hproc.
  apply processing_not_shutdown in Hproc.
  destruct Hproc as (Hs2 & Hj2 & Hd2).
  pose proof (process_packets_joins w cfg) as Hjoin.
  destruct (process_packets w cfg) as [t2 [cfg'|code]]; cbn [fst snd] in *.
  2: { (* capture or replay ended the process *)
       repeat split; intros;
         first [apply only_after_no_q | apply never_after_no_p];
         rewrite !existsb_app;
         rewrite ?Hs0, ?Hs1, ?Hs2, ?Hj0, ?Hj1, ?Hj2, ?Hd0, ?Hd1, ?Hd2;
         reflexivity. }
  (* the run reaches the shutdown sequence *)
  destruct Hjoin as [Hjoin _].
  destruct (stop_output_order cfg') as (Ho1 & Ho2 & Hp3 & Hc3 & Hr3).
  assert (Hs012 : existsb is_set_stop (t0 ++ t1 ++ t2) = false)
    by (rewrite !existsb_app, Hs0, Hs1, Hs2; reflexivity).
  assert (Hj012 : existsb is_join_output (t0 ++ t1 ++ t2) = false)
    by (rewrite !existsb_app, Hj0, Hj1, Hj2; reflexivity).
  assert (Hd012 : existsb is_destroy_queues (t0 ++ t1 ++ t2) = false)
    by (rewrite !existsb_app, Hd0, Hd1, Hd2; reflexivity).
  assert (Hjoined : existsb is_create_reader
                      (t0 ++ t1 ++ t2 ++ fst (stop_output cfg')) = true ->
                    existsb is_join_reader (t0 ++ t1 ++ t2) = true).
  { rewrite !existsb_app, Hc0, Hc1, Hc3, Hr0, Hr1, orb_false_r. cbn [orb].
    rewrite Hjoin. auto. }
  replace (t0 ++ t1 ++ t2 ++ fst (stop_output cfg'))
    with ((t0 ++ t1 ++ t2) ++ fst (stop_output cfg')) in *
    by (rewrite <- !app_assoc; reflexivity).
  repeat split.
  - intros Hc. apply only_after_app.
    + apply only_after_no_q. exact Hs012.
    + left. apply Hjoined. exact Hc.
  - apply never_after_app.
    + apply never_after_no_p. exact Hs012.
    + intros l1 e l2 Heq _.
      rewrite Heq, existsb_app in Hp3. cbn [existsb] in Hp3.
      apply orb_false_iff in Hp3. destruct Hp3 as [_ Hp3].
      apply orb_false_iff in Hp3. apply Hp3.
    + right. exact Hp3.
  - apply only_after_app.
    + apply only_after_no_q. exact Hj012.
    + right. exact Ho1.
  - apply only_after_app.
    + apply only_after_no_q. exact Hd012.
    + right. exact Ho2.
  - intros Hc. apply only_after_app.
    + apply only_after_no_q. exact Hd012.
    + left. apply Hjoined. exact Hc.
Qed.

(** A replay that runs to its end, with statistics: every step of the
    order above occurs. *)
Example replay_run :
  main calm_world
    (mercury [short "r" (Some "in.pcap"); short "w" (Some "out.pcap");
              short "v" None]) =
  (let cfg := set_verbosity 1 (set_write_filename (Some "out.pcap")
                (set_read_filename (Some "in.pcap") blank_config)) in
   [call_setup_signal_handler; call_get_nprocs; call_srand;
    call_output_thread_init cfg; call_timer_start;
    call_pkt_proc_new_from_config cfg 0; call_filename_append "in.pcap";
    call_pcap_file_open "in.pcap" 128; store_t_output_p 1;
    call_pthread_cond_broadcast; call_pthread_create file_reader_thread;
    call_pcap_file_dispatch_pkt_processor 1;
    call_pthread_join file_reader_thread; call_pcap_file_close;
    delete_pkt_processor; call_timer_stop;
    Stdout (msg_statistics 10 1000 5000 (FFinite (1000000000000 # 5000)));
    Stderr msg_stopping_output; store_sig_stop_output 1;
    call_pthread_join output_thread; call_destroy_thread_queues],
   Returned 0).
Proof. reflexivity. Qed.

(** ** Failure to open the pcap file *)

(** C2.  [mercury -r missing.pcap] where pcap_file_open fails: the two
    error messages are printed, [open_and_dispatch] hands the failure
    status back, and main, which drops it, goes through the shutdown
    sequence and returns 0. *)
Theorem C2_open_failure_returns_zero :
  open_and_dispatch unreadable_world
    (set_read_filename (Some "missing.pcap") blank_config) =
  ([call_timer_start;
    call_pkt_proc_new_from_config
      (set_read_filename (Some "missing.pcap") blank_config) 0;
    call_filename_append "missing.pcap";
    call_pcap_file_open "missing.pcap" 128;
    Stdout (msg_pcap_open "missing.pcap");
    Stderr msg_reader_context], Returned status_err) /\
  In (Stdout (msg_pcap_open "missing.pcap"))
    (fst (main unreadable_world (mercury [short "r" (Some "missing.pcap")]))) /\
  existsb is_create_reader
    (fst (main unreadable_world (mercury [short "r" (Some "missing.pcap")]))) = false /\
  snd (main unreadable_world (mercury [short "r" (Some "missing.pcap")])) = Returned 0 /\
  exit_status
    (snd (main unreadable_world (mercury [short "r" (Some "missing.pcap")]))) = 0.
Proof.
  repeat split; try reflexivity. cbn. auto 10.
Qed.

(** ** Runs that end in usage *)

Lemma parsed_config_none w cl :
  parsed_config w cl = None -> usage_exit (argv0 cl) (main w cl).
Proof.
  unfold parsed_config. rewrite main_unfold.
  destruct (getopt_loop _ _ _ _) as [t0 [[cfg n]|code]] eqn:Hloop;
    [discriminate|]. intros _.
  pose proof (getopt_loop_events _ _ _ _ _ _ Hloop) as Hev.
  apply getopt_loop_exit in Hloop. destruct Hloop as [-> Hin].
  destruct (loop_not_pipeline _ Hev) as (Hp & Hs & _).
  repeat split; assumption.
Qed.

Lemma parsed_config_some w cl cfg :
  parsed_config w cl = Some cfg ->
  exists t0,
    getopt_loop w (argv0 cl) (options cl) (mercury_config_init w, 0) =
    (t0, Returned (cfg, num_input_options (options cl))) /\
    Forall (fun e => loop_event e = true) t0.
Proof.
  unfold parsed_config.
  destruct (getopt_loop _ _ _ _) as [t0 [[cfg' n]|code]] eqn:Hloop;
    [|discriminate].
  intros H. inversion H; subst. exists t0.
  pose proof (getopt_loop_num_inputs _ _ _ _ _ _ _ _ Hloop) as Hn.
  rewrite Z.add_0_l in Hn. subst n. split; [reflexivity|].
  eapply getopt_loop_events; eauto.
Qed.

(** A check that ends in usage ends main in usage. *)
Lemma main_usage_by_check w cl cfg :
  parsed_config w cl = Some cfg ->
  usage_exit (argv0 cl)
    (check_config w (argv0 cl) cfg (num_input_options (options cl))) ->
  usage_exit (argv0 cl) (main w cl) /\
  exists t0, fst (main w cl) =
             t0 ++ fst (check_config w (argv0 cl) cfg
                          (num_input_options (options cl))).
Proof.
  intros Hp Hu. apply parsed_config_some in Hp. destruct Hp as (t0 & Hloop & Hev).
  rewrite main_unfold, Hloop.
  destruct (check_config _ _ _ _) as [t1 [u|code]] eqn:Hc;
    rewrite ?Hc in Hu.
  - destruct Hu as [Hu _]. discriminate.
  - split; [|exists t0; reflexivity].
    destruct Hu as (Ho & Hin & Hs & Hp). cbn [fst snd] in *.
    inversion Ho; subst.
    apply (usage_exit_quiet_prefix (argv0 cl) t0 (t1, Exited EXIT_ERR));
      [assumption|]. repeat split; assumption.
Qed.

(** ** Counting the input options *)

Lemma num_input_options_nonneg opts : 0 <= num_input_options opts.
Proof.
  induction opts as [|o rest IH]; cbn [num_input_options]; [lia|].
  destruct (counts_as_input o); lia.
Qed.

Lemma num_input_options_has c opts :
  input_code c = true -> has_option c opts = true ->
  1 <= num_input_options opts.
Proof.
  intros Hc. induction opts as [|o rest IH]; cbn [has_option existsb num_input_options];
    [discriminate|].
  fold (has_option c rest). intros H. apply orb_prop in H.
  pose proof (num_input_options_nonneg rest).
  destruct H as [H|H].
  - apply Z.eqb_eq in H. unfold counts_as_input. rewrite H, Hc. lia.
  - apply IH in H. destruct (counts_as_input o); lia.
Qed.

Lemma num_input_options_two c1 c2 opts :
  input_code c1 = true -> input_code c2 = true -> c1 <> c2 ->
  has_option c1 opts = true -> has_option c2 opts = true ->
  2 <= num_input_options opts.
Proof.
  intros Hc1 Hc2 Hne.
  induction opts as [|o rest IH]; cbn [has_option existsb num_input_options];
    [discriminate|].
  fold (has_option c1 rest). fold (has_option c2 rest).
  pose proof (num_input_options_nonneg rest).
  destruct (opt o =? c1) eqn:E1; [|destruct (opt o =? c2) eqn:E2];
    cbn [orb]; intros H1 H2.
  - apply Z.eqb_eq in E1. unfold counts_as_input. rewrite E1, Hc1.
    rewrite E1 in H2.
    replace (c1 =? c2) with false in H2 by (symmetry; apply Z.eqb_neq; exact Hne).
    cbn [orb] in H2. apply (num_input_options_has c2) in H2; [lia|exact Hc2].
  - apply Z.eqb_eq in E2. unfold counts_as_input. rewrite E2, Hc2.
    apply (num_input_options_has c1) in H1; [lia|exact Hc1].
  - specialize (IH H1 H2).
    destruct (counts_as_input o); lia.
Qed.

Lemma num_input_options_none opts :
  Forall (fun o => getopt_long_value (opt o) = true) opts ->
  has_option (ch "c") opts = false -> has_option (ch "r") opts = false ->
  has_option 1 opts = false -> has_option (ch "d") opts = false ->
  num_input_options opts = 0.
Proof.
  induction opts as [|o rest IH]; cbn [has_option existsb num_input_options];
    [reflexivity|].
  fold (has_option (ch "c") rest). fold (has_option (ch "r") rest).
  fold (has_option 1 rest). fold (has_option (ch "d") rest).
  intros Hall Hc Hr H1 Hd. inversion Hall as [|? ? Ho Hrest]; subst.
  apply orb_false_iff in Hc, Hr, H1, Hd.
  destruct Hc as [Ec Hc], Hr as [Er Hr], H1 as [E1 H1], Hd as [Ed Hd].
  rewrite (IH Hrest Hc Hr H1 Hd).
  unfold counts_as_input, input_code. cbn [existsb].
  rewrite E1, Er, Ed, Ec. cbn [orb].
  destruct (opt o =? ch "T") eqn:ET; [|reflexivity].
  apply Z.eqb_eq in ET. rewrite ET in Ho. vm_compute in Ho. discriminate.
Qed.

(** ** Input selection *)

Lemma usage_exit_error_help {A} p msg :
  @usage_exit A p ([Stdout (msg_error msg); Stdout (msg_mercury_help p)],
                   Exited EXIT_ERR).
Proof. repeat split; cbn; auto. Qed.

(** C3, as the code has it.  A command line with both -c and -r, or one
    that getopt_long can produce and that has none of -c, -r, --config and
    -d, ends in usage: the help text is printed, the exit status is 255,
    and no thread has been created nor any part of the pipeline touched. *)
Theorem C3_input_selection w cl :
  (has_option (ch "c") (options cl) = true /\
   has_option (ch "r") (options cl) = true) \/
  (Forall (fun o => getopt_long_value (opt o) = true) (options cl) /\
   has_option (ch "c") (options cl) = false /\
   has_option (ch "r") (options cl) = false /\
   has_option 1 (options cl) = false /\
   has_option (ch "d") (options cl) = false) ->
  usage_exit (argv0 cl) (main w cl).
Proof.
  intros H.
  destruct (parsed_config w cl) as [cfg|] eqn:Hp;
    [|apply parsed_config_none; exact Hp].
  apply (main_usage_by_check w cl cfg Hp).
  destruct H as [[Hc Hr]|(Hall & Hc & Hr & H1 & Hd)].
  - rewrite check_config_many_inputs.
    + apply usage_exit_error_help.
    + pose proof (num_input_options_two (ch "c") (ch "r") (options cl)
                    eq_refl eq_refl) as H2.
      assert (ch "c" <> ch "r") by (vm_compute; discriminate).
      specialize (H2 H Hc Hr). lia.
  - rewrite (num_input_options_none _ Hall Hc Hr H1 Hd).
    rewrite check_config_no_input. apply usage_exit_error_help.
Qed.

Lemma C3_input_selection_witness :
  usage_exit "mercury"
    (main calm_world
       (mercury [short "c" (Some "eth0"); short "r" (Some "in.pcap")])) /\
  usage_exit "mercury" (main calm_world (mercury [short "v" None])).
Proof.
  split.
  - apply (C3_input_selection calm_world
             (mercury [short "c" (Some "eth0"); short "r" (Some "in.pcap")])).
    left. split; reflexivity.
  - apply (C3_input_selection calm_world (mercury [short "v" None])).
    right. repeat split; try reflexivity. repeat constructor.
Defined.

(** C3 as stated fails: [mercury --config mercury.cfg], where the file
    sets no input, has neither -c nor -r and leaves both unset; --config
    counts as the one input, no usage message is printed, and main goes on
    to its shutdown sequence and returns 0. *)
Lemma C3_counterexample :
  has_option (ch "c") (options (mercury [long_config "mercury.cfg"])) = false /\
  has_option (ch "r") (options (mercury [long_config "mercury.cfg"])) = false /\
  parsed_config calm_world (mercury [long_config "mercury.cfg"]) =
    Some blank_config /\
  main calm_world (mercury [long_config "mercury.cfg"]) =
    ([call_mercury_config_read_from_file "mercury.cfg";
      call_setup_signal_handler; call_get_nprocs; call_srand;
      Stderr msg_stopping_output; store_sig_stop_output 1;
      call_pthread_join output_thread; call_destroy_thread_queues],
     Returned 0) /\
  ~ usage_exit "mercury" (main calm_world (mercury [long_config "mercury.cfg"])).
Proof.
  repeat split; try reflexivity.
  intros (H & _). vm_compute in H. discriminate.
Qed.

(** C10, as the code has it.  --config and --directory count as inputs:
    either of them next to -r, -c or the other one ends the run in usage
    (help text, exit status 255, no thread, nothing of the pipeline); when
    the option loop itself runs to its end, the usage call is the one with
    the [incompatible arguments] message. *)
Theorem C10_config_and_directory_count w cl c1 c2 :
  c1 = 1 \/ c1 = ch "d" ->
  c2 = 1 \/ c2 = ch "d" \/ c2 = ch "r" \/ c2 = ch "c" ->
  c1 <> c2 ->
  has_option c1 (options cl) = true ->
  has_option c2 (options cl) = true ->
  usage_exit (argv0 cl) (main w cl) /\
  (parsed_config w cl <> None ->
   exists t0,
     fst (main w cl) =
     t0 ++ [Stdout (msg_error "incompatible arguments read [r] and capture [c] specified on command line");
            Stdout (msg_mercury_help (argv0 cl))]).
Proof.
  intros H1 H2 Hne Hh1 Hh2.
  assert (Hn : 1 < num_input_options (options cl)).
  { assert (Hi1 : input_code c1 = true)
      by (destruct H1 as [->| ->]; reflexivity).
    assert (Hi2 : input_code c2 = true)
      by (destruct H2 as [->|[->|[->| ->]]]; reflexivity).
    pose proof (num_input_options_two c1 c2 (options cl) Hi1 Hi2 Hne Hh1 Hh2).
    lia. }
  destruct (parsed_config w cl) as [cfg|] eqn:Hp.
  - destruct (main_usage_by_check w cl cfg Hp) as [Hu [t0 Ht]].
    + rewrite check_config_many_inputs by exact Hn.
      apply usage_exit_error_help.
    + split; [exact Hu|]. intros _. exists t0. rewrite Ht.
      rewrite check_config_many_inputs by exact Hn. reflexivity.
  - split; [apply parsed_config_none; exact Hp|]. congruence.
Qed.

Lemma C10_config_and_directory_count_witness :
  usage_exit "mercury"
    (main calm_world
       (mercury [short "d" (Some "/tmp"); short "c" (Some "eth0")])) /\
  exists t0,
    fst (main calm_world
           (mercury [short "d" (Some "/tmp"); short "c" (Some "eth0")])) =
    t0 ++ [Stdout (msg_error "incompatible arguments read [r] and capture [c] specified on command line");
           Stdout (msg_mercury_help "mercury")].
Proof.
  destruct (C10_config_and_directory_count calm_world
              (mercury [short "d" (Some "/tmp"); short "c" (Some "eth0")])
              (ch "d") (ch "c")) as [Hu Hm].
  - right. reflexivity.
  - right. right. right. reflexivity.
  - vm_compute. discriminate.
  - reflexivity.
  - reflexivity.
  - split; [exact Hu|]. apply Hm. vm_compute. discriminate.
Defined.

(** C10 as stated fails: with [mercury -d /tmp -c eth0 -h] the run ends in
    the usage call of -h, and the [incompatible arguments] message is not
    printed. *)
Lemma C10_counterexample :
  has_option (ch "d")
    (options (mercury [short "d" (Some "/tmp"); short "c" (Some "eth0");
                       short "h" None])) = true /\
  has_option (ch "c")
    (options (mercury [short "d" (Some "/tmp"); short "c" (Some "eth0");
                       short "h" None])) = true /\
  main calm_world
    (mercury [short "d" (Some "/tmp"); short "c" (Some "eth0"); short "h" None]) =
  ([Stdout msg_banner; Stdout (msg_mercury_help "mercury");
    Stdout msg_mercury_extended_help], Exited EXIT_ERR) /\
  ~ In (Stdout (msg_error "incompatible arguments read [r] and capture [c] specified on command line"))
      (fst (main calm_world
              (mercury [short "d" (Some "/tmp"); short "c" (Some "eth0");
                        short "h" None]))).
Proof.
  repeat split; try reflexivity.
  intros H. vm_compute in H. decompose [or] H; try discriminate; assumption.
Qed.

(** ** From the command line to the configuration *)

Lemma has_option_cons c o rest :
  has_option c (o :: rest) = (opt o =? c) || has_option c rest.
Proof. reflexivity. Qed.

(** A field that only the option [c] and the configuration file write is
    left alone by a command line that has neither. *)
Lemma getopt_loop_keeps_field {T} (field : mercury_config -> T) (c : Z) w p :
  (forall o cfg n t cfg' n',
      option_case w p o (cfg, n) = (t, Returned (cfg', n')) ->
      (opt o =? 1) = false -> (opt o =? c) = false ->
      field cfg' = field cfg) ->
  forall opts cfg n t cfg' n',
    has_option c opts = false -> has_option 1 opts = false ->
    getopt_loop w p opts (cfg, n) = (t, Returned (cfg', n')) ->
    field cfg' = field cfg.
Proof.
  intros Hstep. induction opts as [|o rest IH]; intros cfg n t cfg' n' Hc H1 H.
  - cbn in H. inversion H; subst. reflexivity.
  - rewrite has_option_cons in Hc, H1.
    apply orb_false_iff in Hc, H1. destruct Hc as [Eo Hc], H1 as [E1 H1].
    apply getopt_loop_cons_returned in H.
    destruct H as (t1 & [cfg1 n1] & t2 & Ha & Hb & ->).
    rewrite (IH _ _ _ _ _ Hc H1 Hb). eapply Hstep; eauto.
Qed.

(** A file name that the option [c] sets and no configuration file takes
    away is there at the end of the loop. *)
Lemma getopt_loop_sets_name (field : mercury_config -> c_string) (c : Z) w p :
  existsb (Z.eqb c) [ch "f"; ch "w"; ch "c"; ch "r"; ch "t"] = true ->
  (forall o cfg n t cfg' n',
      option_case w p o (cfg, n) = (t, Returned (cfg', n')) ->
      (opt o =? 1) = false ->
      field cfg' = if opt o =? c then optarg o else field cfg) ->
  (forall cfg name,
      field cfg <> None ->
      field (mercury_config_read_from_file w cfg name) <> None) ->
  forall opts cfg n t cfg' n',
    has_option c opts = true ->
    getopt_loop w p opts (cfg, n) = (t, Returned (cfg', n')) ->
    field cfg' <> None.
Proof.
  intros Hc Hstep Hfile opts cfg n t cfg' n'.
  apply (getopt_loop_sets (fun cfg => field cfg <> None)
           (fun o => opt o =? c) w p).
  - intros o cfg0 n0 t0 cfg1 n1 H HP.
    destruct (opt o =? 1) eqn:E1.
    + destruct (option_case_config _ _ _ _ _ _ _ _ H E1) as (name & _ & ->).
      apply Hfile. exact HP.
    + rewrite (Hstep _ _ _ _ _ _ H E1).
      destruct (opt o =? c) eqn:Ec; [|exact HP].
      apply Z.eqb_eq in Ec.
      destruct (option_case_optarg _ _ _ _ _ _ _ _ H) as [a ->];
        [rewrite Ec; exact Hc | discriminate].
  - intros o cfg0 n0 t0 cfg1 n1 Ec H.
    assert (E1 : (opt o =? 1) = false).
    { apply Z.eqb_eq in Ec. rewrite Ec. apply Z.eqb_neq. intros ->.
      vm_compute in Hc. discriminate. }
    rewrite (Hstep _ _ _ _ _ _ H E1), Ec.
    apply Z.eqb_eq in Ec.
    destruct (option_case_optarg _ _ _ _ _ _ _ _ H) as [a ->];
      [rewrite Ec; exact Hc | discriminate].
Qed.

Lemma no_config_forallb opts :
  has_option 1 opts = false ->
  forallb (fun o => negb (opt o =? 1)) opts = true.
Proof.
  induction opts as [|o rest IH]; [reflexivity|].
  rewrite has_option_cons. intros H. apply orb_false_iff in H.
  destruct H as [E H]. cbn [forallb]. rewrite E, (IH H). reflexivity.
Qed.

(** The same without a configuration file on the command line. *)
Lemma getopt_loop_sets_without_config (P : mercury_config -> Prop) (c : Z) w p :
  (forall o cfg n t cfg' n',
      option_case w p o (cfg, n) = (t, Returned (cfg', n')) ->
      (opt o =? 1) = false -> P cfg -> P cfg') ->
  (forall o cfg n t cfg' n',
      option_case w p o (cfg, n) = (t, Returned (cfg', n')) ->
      (opt o =? 1) = false -> (opt o =? c) = true -> P cfg') ->
  forall opts cfg n t cfg' n',
    has_option c opts = true -> has_option 1 opts = false ->
    getopt_loop w p opts (cfg, n) = (t, Returned (cfg', n')) ->
    P cfg'.
Proof.
  intros Hkeep Hset.
  induction opts as [|o rest IH]; intros cfg n t cfg' n' Hc H1 H.
  - discriminate.
  - rewrite has_option_cons in Hc, H1. apply orb_false_iff in H1.
    destruct H1 as [E1 H1].
    apply getopt_loop_cons_returned in H.
    destruct H as (t1 & [cfg1 n1] & t2 & Ha & Hb & ->).
    destruct (opt o =? c) eqn:Ec.
    + apply (getopt_loop_keeps P (fun o => negb (opt o =? 1)) w p)
        with (opts := rest) (cfg := cfg1) (n := n1) (t := t2) (n' := n').
      * intros o' c0 m0 s0 c1 m1 Hal Hoc. apply (Hkeep _ _ _ _ _ _ Hoc).
        apply negb_true_iff. exact Hal.
      * apply no_config_forallb. exact H1.
      * exact Hb.
      * eapply Hset; eauto.
    + cbn [orb] in Hc. eapply IH; eauto.
Qed.

Lemma parsed_fingerprint w cl cfg :
  config_file_keeps_outputs w ->
  has_option (ch "f") (options cl) = true ->
  parsed_config w cl = Some cfg -> fingerprint_filename cfg <> None.
Proof.
  intros Hk Hf Hp. apply parsed_config_some in Hp. destruct Hp as (t0 & Hloop & _).
  revert Hloop. apply (getopt_loop_sets_name fingerprint_filename (ch "f"));
    [reflexivity | | | exact Hf].
  - intros o c0 n0 s0 c1 n1 H E. apply (option_case_fields _ _ _ _ _ _ _ _ H E).
  - intros c0 name. apply Hk.
Qed.

Lemma parsed_write w cl cfg :
  config_file_keeps_outputs w ->
  has_option (ch "w") (options cl) = true ->
  parsed_config w cl = Some cfg -> write_filename cfg <> None.
Proof.
  intros Hk Hf Hp. apply parsed_config_some in Hp. destruct Hp as (t0 & Hloop & _).
  revert Hloop. apply (getopt_loop_sets_name write_filename (ch "w"));
    [reflexivity | | | exact Hf].
  - intros o c0 n0 s0 c1 n1 H E. apply (option_case_fields _ _ _ _ _ _ _ _ H E).
  - intros c0 name. apply Hk.
Qed.

(** Without a configuration file, the options alone decide. *)
Lemma parsed_without_config w cl cfg :
  has_option 1 (options cl) = false ->
  parsed_config w cl = Some cfg ->
  (has_option (ch "f") (options cl) = false ->
   fingerprint_filename cfg = fingerprint_filename (mercury_config_init w)) /\
  (has_option (ch "w") (options cl) = false ->
   write_filename cfg = write_filename (mercury_config_init w)) /\
  (has_option (ch "c") (options cl) = false ->
   capture_interface cfg = capture_interface (mercury_config_init w)) /\
  (has_option (ch "w") (options cl) = true -> write_filename cfg <> None) /\
  (has_option (ch "c") (options cl) = true -> capture_interface cfg <> None) /\
  (has_option 0 (options cl) = true -> adaptive cfg = 1).
Proof.
  intros H1 Hp. apply parsed_config_some in Hp. destruct Hp as (t0 & Hloop & _).
  repeat split; intros Hc.
  - revert Hloop. apply (getopt_loop_keeps_field fingerprint_filename (ch "f")); auto.
    intros o c0 n0 s0 c1 n1 H E Ef.
    destruct (option_case_fields _ _ _ _ _ _ _ _ H E) as (-> & _). rewrite Ef. reflexivity.
  - revert Hloop. apply (getopt_loop_keeps_field write_filename (ch "w")); auto.
    intros o c0 n0 s0 c1 n1 H E Ef.
    destruct (option_case_fields _ _ _ _ _ _ _ _ H E) as (_ & -> & _). rewrite Ef. reflexivity.
  - revert Hloop. apply (getopt_loop_keeps_field capture_interface (ch "c")); auto.
    intros o c0 n0 s0 c1 n1 H E Ef.
    destruct (option_case_fields _ _ _ _ _ _ _ _ H E) as (_ & _ & -> & _). rewrite Ef. reflexivity.
  - revert Hloop.
    apply (getopt_loop_sets_without_config (fun c => write_filename c <> None) (ch "w")); auto.
    + intros o c0 n0 s0 c1 n1 H E HP.
      destruct (option_case_fields _ _ _ _ _ _ _ _ H E) as (_ & -> & _).
      destruct (opt o =? ch "w") eqn:Ew; [|exact HP].
      destruct (option_case_optarg _ _ _ _ _ _ _ _ H) as [a ->]; [|discriminate].
      apply Z.eqb_eq in Ew. rewrite Ew. reflexivity.
    + intros o c0 n0 s0 c1 n1 H E Ew.
      destruct (option_case_fields _ _ _ _ _ _ _ _ H E) as (_ & -> & _). rewrite Ew.
      destruct (option_case_optarg _ _ _ _ _ _ _ _ H) as [a ->]; [|discriminate].
      apply Z.eqb_eq in Ew. rewrite Ew. reflexivity.
  - revert Hloop.
    apply (getopt_loop_sets_without_config (fun c => capture_interface c <> None) (ch "c")); auto.
    + intros o c0 n0 s0 c1 n1 H E HP.
      destruct (option_case_fields _ _ _ _ _ _ _ _ H E) as (_ & _ & -> & _).
      destruct (opt o =? ch "c") eqn:Ew; [|exact HP].
      destruct (option_case_optarg _ _ _ _ _ _ _ _ H) as [a ->]; [|discriminate].
      apply Z.eqb_eq in Ew. rewrite Ew. reflexivity.
    + intros o c0 n0 s0 c1 n1 H E Ew.
      destruct (option_case_fields _ _ _ _ _ _ _ _ H E) as (_ & _ & -> & _). rewrite Ew.
      destruct (option_case_optarg _ _ _ _ _ _ _ _ H) as [a ->]; [|discriminate].
      apply Z.eqb_eq in Ew. rewrite Ew. reflexivity.
  - revert Hloop.
    apply (getopt_loop_sets_without_config (fun c => adaptive c = 1) 0); auto.
    + intros o c0 n0 s0 c1 n1 H E HP.
      destruct (option_case_fields _ _ _ _ _ _ _ _ H E) as (_ & _ & _ & _ & -> & _).
      destruct (opt o =? 0); [reflexivity|exact HP].
    + intros o c0 n0 s0 c1 n1 H E Ew.
      destruct (option_case_fields _ _ _ _ _ _ _ _ H E) as (_ & _ & _ & _ & -> & _).
      rewrite Ew. reflexivity.
Qed.

(** The thread count is the one of the last -t. *)
Lemma parsed_thread_count w cl cfg arg :
  last_thread_option (options cl) arg ->
  parsed_config w cl = Some cfg ->
  num_threads cfg = thread_count_arg arg.
Proof.
  intros (before & after & Hopts & Ht & H1) Hp.
  apply parsed_config_some in Hp. destruct Hp as (t0 & Hloop & _).
  rewrite Hopts in Hloop at 1.
  apply getopt_loop_app_returned in Hloop.
  destruct Hloop as (ta & [cfga na] & tb & _ & Hb & _).
  apply getopt_loop_cons_returned in Hb.
  destruct Hb as (tc & [cfgc nc] & td & Hc & Hd & _).
  assert (Hn : num_threads cfgc = thread_count_arg arg).
  { destruct (option_case_fields _ _ _ _ _ _ _ _ Hc eq_refl)
      as (_ & _ & _ & _ & _ & _ & ->). reflexivity. }
  rewrite <- Hn. revert Hd.
  apply (getopt_loop_keeps_field num_threads (ch "t")); auto.
  intros o c0 n0 s0 c1 n1 H E Et.
  destruct (option_case_fields _ _ _ _ _ _ _ _ H E) as (_ & _ & _ & _ & _ & _ & ->).
  rewrite Et. reflexivity.
Qed.

(** ** Output selection and thread count *)

(** C6.  A command line with both -f and -w ends in usage: the help text
    is printed, the exit status is 255, and no thread has been created.
    (A configuration file read on the way is taken not to remove an
    output file name.) *)
Theorem C6_exclusive_outputs w cl :
  config_file_keeps_outputs w ->
  has_option (ch "f") (options cl) = true ->
  has_option (ch "w") (options cl) = true ->
  usage_exit (argv0 cl) (main w cl).
Proof.
  intros Hk Hf Hw.
  destruct (parsed_config w cl) as [cfg|] eqn:Hp;
    [|apply parsed_config_none; exact Hp].
  apply (main_usage_by_check w cl cfg Hp).
  apply check_config_both_outputs.
  - eapply parsed_fingerprint; eauto.
  - eapply parsed_write; eauto.
Qed.

Lemma C6_exclusive_outputs_witness :
  usage_exit "mercury"
    (main calm_world
       (mercury [short "r" (Some "in.pcap"); short "f" (Some "fp.json");
                 short "w" (Some "out.pcap")])).
Proof.
  apply (C6_exclusive_outputs calm_world
           (mercury [short "r" (Some "in.pcap"); short "f" (Some "fp.json");
                     short "w" (Some "out.pcap")])).
  - intros cfg name. split; intros H; exact H.
  - reflexivity.
  - reflexivity.
Defined.

(** C9, as the code has it.  The thread count that main checks is the
    one it has stored: the value that strtol reads from the argument of
    -t, reduced to an [int] (32 bits, two's complement), or -1 for cpu.
    When the options have been read and that count is not 1 while neither
    a fingerprint file nor a pcap write file is configured, the run ends
    in usage: the help text is printed, the exit status is 255, and no
    thread has been created.  That is the case for a command line whose
    last -t gives a stored count other than 1 and which has no -f, no -w
    and no configuration file, when the start configuration names no
    output file.  For an argument whose value fits an [int], the stored
    count is the value as written. *)
Theorem C9_threads_need_output w cl :
  (forall cfg,
      parsed_config w cl = Some cfg ->
      num_threads cfg <> 1 ->
      fingerprint_filename cfg = None -> write_filename cfg = None ->
      usage_exit (argv0 cl) (main w cl)) /\
  (forall arg,
      starts_without_outputs w ->
      last_thread_option (options cl) arg ->
      thread_count_arg arg <> 1 ->
      has_option (ch "f") (options cl) = false ->
      has_option (ch "w") (options cl) = false ->
      has_option 1 (options cl) = false ->
      usage_exit (argv0 cl) (main w cl)) /\
  (forall arg,
      (arg =? "cpu")%string = false ->
      -2147483648 <= fst (Libc.strtol arg) <= 2147483647 ->
      thread_count_arg arg = fst (Libc.strtol arg)).
Proof.
  assert (Hcfg : forall cfg,
             parsed_config w cl = Some cfg ->
             num_threads cfg <> 1 ->
             fingerprint_filename cfg = None -> write_filename cfg = None ->
             usage_exit (argv0 cl) (main w cl)).
  { intros cfg Hp Ht Hf Hw.
    apply (main_usage_by_check w cl cfg Hp).
    apply check_config_threads; assumption. }
  split; [exact Hcfg|]. split.
  - intros arg [Hf0 Hw0] Hlast Harg Hf Hw H1.
    destruct (parsed_config w cl) as [cfg|] eqn:Hp;
      [|apply parsed_config_none; exact Hp].
    destruct (parsed_without_config w cl cfg H1 Hp) as (Kf & Kw & _).
    apply (Hcfg cfg eq_refl).
    + rewrite (parsed_thread_count w cl cfg arg Hlast Hp). exact Harg.
    + rewrite (Kf Hf). exact Hf0.
    + rewrite (Kw Hw). exact Hw0.
  - intros arg Hcpu Hrange. unfold thread_count_arg, Libc.to_int.
    rewrite Hcpu, Z.mod_small by lia. lia.
Qed.

Lemma C9_threads_need_output_witness :
  usage_exit "mercury"
    (main calm_world
       (mercury [short "c" (Some "eth0"); short "t" (Some "cpu")])) /\
  usage_exit "mercury"
    (main calm_world
       (mercury [short "c" (Some "eth0"); short "t" (Some "4")])) /\
  thread_count_arg "4" = 4.
Proof.
  split; [|split].
  - apply (proj1 (C9_threads_need_output calm_world
                    (mercury [short "c" (Some "eth0"); short "t" (Some "cpu")]))
             (set_num_threads (-1)
                (set_capture_interface (Some "eth0") blank_config))).
    + reflexivity.
    + vm_compute. discriminate.
    + reflexivity.
    + reflexivity.
  - apply (proj1 (proj2 (C9_threads_need_output calm_world
                    (mercury [short "c" (Some "eth0"); short "t" (Some "4")])))
             "4").
    + split; reflexivity.
    + exists [short "c" (Some "eth0")], []. repeat split; reflexivity.
    + vm_compute. discriminate.
    + reflexivity.
    + reflexivity.
    + reflexivity.
  - apply (proj2 (proj2 (C9_threads_need_output calm_world
                    (mercury [short "c" (Some "eth0"); short "t" (Some "4")])))
             "4").
    + reflexivity.
    + vm_compute. split; discriminate.
Defined.

(** C9 as stated fails: [mercury -r in.pcap -t 4294967297] asks for
    4294967297 threads and names neither -f nor -w.  strtol reads
    4294967297, the [int] that main stores is 1, the check of the thread
    count passes, and the run starts the output thread and the reader
    thread and returns 0 without a usage message. *)
Lemma C9_counterexample :
  fst (Libc.strtol "4294967297") = 4294967297 /\
  thread_count_arg "4294967297" = 1 /\
  last_thread_option
    (options (mercury [short "r" (Some "in.pcap");
                       short "t" (Some "4294967297")])) "4294967297" /\
  has_option (ch "f")
    (options (mercury [short "r" (Some "in.pcap");
                       short "t" (Some "4294967297")])) = false /\
  has_option (ch "w")
    (options (mercury [short "r" (Some "in.pcap");
                       short "t" (Some "4294967297")])) = false /\
  snd (main calm_world
         (mercury [short "r" (Some "in.pcap");
                   short "t" (Some "4294967297")])) = Returned 0 /\
  existsb spawns_thread
    (fst (main calm_world
            (mercury [short "r" (Some "in.pcap");
                      short "t" (Some "4294967297")]))) = true /\
  ~ In (Stdout (msg_mercury_help "mercury"))
      (fst (main calm_world
              (mercury [short "r" (Some "in.pcap");
                        short "t" (Some "4294967297")]))) /\
  ~ usage_exit "mercury"
      (main calm_world
         (mercury [short "r" (Some "in.pcap");
                   short "t" (Some "4294967297")])).
Proof.
  split; [reflexivity|]. split; [reflexivity|]. split.
  { exists [short "r" (Some "in.pcap")], []. repeat split; reflexivity. }
  split; [reflexivity|]. split; [reflexivity|]. split; [reflexivity|].
  split; [reflexivity|]. split.
  - intros H. vm_compute in H. decompose [or] H; try discriminate; assumption.
  - intros [H _]. vm_compute in H. discriminate H.
Qed.

(** ** The loop count *)

(** With exactly one input and the earlier checks passed, a loop count
    below 1 is what [usage] reports. *)
Lemma check_config_loop_count w p cfg :
  fingerprint_filename cfg = None \/ write_filename cfg = None ->
  num_threads cfg = 1 \/ fingerprint_filename cfg <> None \/
    write_filename cfg <> None ->
  analysis cfg = 0 \/ analysis_init w <> -1 ->
  loop_count cfg < 1 ->
  exists pre,
    check_config w p cfg 1 =
    (pre ++ [Stdout (msg_error "Invalid loop count, it should be >= 1");
             Stdout (msg_mercury_help p)], Exited EXIT_ERR) /\
    (pre = [] \/ pre = [call_analysis_init]).
Proof.
  intros Hfw Ht Ha Hl. unfold check_config.
  change (1 =? 0) with false. change (1 >? 1) with false.
  replace (loop_count cfg <? 1) with true by (symmetry; apply Z.ltb_lt; exact Hl).
  assert (E1 : negb (is_null (fingerprint_filename cfg)) &&
               negb (is_null (write_filename cfg)) = false).
  { destruct Hfw as [-> | ->]; cbn; [reflexivity|apply andb_false_r]. }
  assert (E2 : negb (num_threads cfg =? 1) && is_null (fingerprint_filename cfg)
               && is_null (write_filename cfg) = false).
  { destruct Ht as [-> |[H|H]]; [reflexivity| |].
    - destruct (fingerprint_filename cfg); [|congruence].
      cbn. rewrite andb_false_r. reflexivity.
    - destruct (write_filename cfg); [|congruence].
      cbn. rewrite andb_false_r. reflexivity. }
  rewrite E1, E2. unfold truthy.
  destruct (analysis cfg =? 0) eqn:Ea.
  - exists []. split; [reflexivity|left; reflexivity].
  - assert (Ei : (analysis_init w =? -1) = false).
    { apply Z.eqb_neq. destruct Ha as [Ha|Ha]; [|exact Ha].
      apply Z.eqb_neq in Ea. contradiction. }
    rewrite Ei. exists [call_analysis_init].
    split; [reflexivity|right; reflexivity].
Qed.

(** C4, as the code has it.  When the configuration read from the command
    line has a loop count below 1, the process ends with a non-zero exit
    status and no thread has been created nor any part of the pipeline
    touched; when, in addition, the checks that come first pass (exactly one
    input option, not both output files, an output file if the thread count
    is not 1, an analysis engine that initialises), the run ends in the
    usage call that reports the invalid loop count. *)
Theorem C4_invalid_loop_count w cl cfg :
  parsed_config w cl = Some cfg ->
  loop_count cfg < 1 ->
  (exists code, snd (main w cl) = Exited code /\ code <> 0) /\
  existsb spawns_thread (fst (main w cl)) = false /\
  existsb pipeline_event (fst (main w cl)) = false /\
  (num_input_options (options cl) = 1 ->
   fingerprint_filename cfg = None \/ write_filename cfg = None ->
   num_threads cfg = 1 \/ fingerprint_filename cfg <> None \/
     write_filename cfg <> None ->
   analysis cfg = 0 \/ analysis_init w <> -1 ->
   usage_exit (argv0 cl) (main w cl) /\
   exists t0,
     fst (main w cl) =
     t0 ++ [Stdout (msg_error "Invalid loop count, it should be >= 1");
            Stdout (msg_mercury_help (argv0 cl))]).
Proof.
  intros Hp Hl.
  destruct (parsed_config_some w cl cfg Hp) as (t0 & Hloop & Hev).
  destruct (loop_not_pipeline _ Hev) as (Hp0 & Hs0 & _).
  pose proof (check_config_spec w (argv0 cl) cfg (num_input_options (options cl)))
    as [Hcev Hcase].
  destruct (check_not_pipeline _ Hcev) as (Hp1 & Hs1).
  rewrite main_unfold, Hloop.
  destruct (check_config _ _ _ _) as [t1 [u|code]] eqn:Hc; cbn [fst snd] in *.
  { exfalso. lia. }
  split; [|split; [|split]].
  - exists code. split; [reflexivity|].
    destruct Hcase as [[-> _]|[-> _]]; discriminate.
  - rewrite existsb_app, Hs0, Hs1. reflexivity.
  - rewrite existsb_app, Hp0, Hp1. reflexivity.
  - intros Hn Hfw Ht Ha.
    destruct (check_config_loop_count w (argv0 cl) cfg Hfw Ht Ha Hl)
      as (pre & Hpre & _).
    rewrite Hn, Hpre in Hc. inversion Hc; subst. clear Hc.
    split.
    + repeat split; cbn [fst snd].
      * apply in_or_app. right. apply in_or_app. right. cbn. auto.
      * rewrite existsb_app, Hs0, Hs1. reflexivity.
      * rewrite existsb_app, Hp0, Hp1. reflexivity.
    + exists (t0 ++ pre). cbn [fst]. rewrite app_assoc. reflexivity.
Qed.

Lemma C4_invalid_loop_count_witness :
  usage_exit "mercury"
    (main calm_world
       (mercury [short "r" (Some "in.pcap"); short "p" (Some "0")])) /\
  exists t0,
    fst (main calm_world
           (mercury [short "r" (Some "in.pcap"); short "p" (Some "0")])) =
    t0 ++ [Stdout (msg_error "Invalid loop count, it should be >= 1");
           Stdout (msg_mercury_help "mercury")].
Proof.
  apply (C4_invalid_loop_count calm_world
           (mercury [short "r" (Some "in.pcap"); short "p" (Some "0")])
           (set_loop_count 0 (set_read_filename (Some "in.pcap") blank_config))).
  - reflexivity.
  - simpl. lia.
  - reflexivity.
  - left. reflexivity.
  - left. reflexivity.
  - left. reflexivity.
Defined.

(** C4 as stated fails: [mercury -p 0] has a loop count of 0, and the run
    ends in the usage call for the missing input; the invalid loop count is
    not reported. *)
Lemma C4_counterexample :
  parsed_config calm_world (mercury [short "p" (Some "0")]) =
    Some (set_loop_count 0 blank_config) /\
  loop_count (set_loop_count 0 blank_config) < 1 /\
  main calm_world (mercury [short "p" (Some "0")]) =
    ([Stdout (msg_error "neither read [r] nor capture [c] specified on command line");
      Stdout (msg_mercury_help "mercury")], Exited EXIT_ERR) /\
  ~ In (Stdout (msg_error "Invalid loop count, it should be >= 1"))
      (fst (main calm_world (mercury [short "p" (Some "0")]))).
Proof.
  repeat split; try reflexivity.
  intros H. vm_compute in H. decompose [or] H; try discriminate; assumption.
Qed.

(** ** Adaptive mode *)

Lemma In_existsb {A} (p : A -> bool) x l :
  In x l -> p x = true -> existsb p l = true.
Proof.
  intros Hin Hp. apply existsb_exists. exists x. split; assumption.
Qed.

Lemma option_case_returned_events w p o st t st' :
  option_case w p o st = (t, Returned st') ->
  Forall (fun e => returned_loop_event e = true) t.
Proof.
  destruct o as [c a], st as [cfg n]. intros H.
  switch_cases H; leaf H; repeat constructor.
Qed.

Lemma getopt_loop_returned_events w p opts st t st' :
  getopt_loop w p opts st = (t, Returned st') ->
  Forall (fun e => returned_loop_event e = true) t.
Proof.
  revert st t. induction opts as [|o rest IH]; intros st t H.
  - cbn in H. inversion H. constructor.
  - apply getopt_loop_cons_returned in H.
    destruct H as (t1 & st1 & t2 & H1 & H2 & ->).
    apply Forall_app. split.
    + eapply option_case_returned_events; eauto.
    + eapply IH; eauto.
Qed.

(** --adaptive without a pcap write file or without a capture interface. *)
Lemma adaptive_without_both w cl cfg :
  parsed_config w cl = Some cfg ->
  0 < adaptive cfg ->
  write_filename cfg = None \/ capture_interface cfg = None ->
  usage_exit (argv0 cl) (main w cl) \/
  (exists t0,
      main w cl = (t0 ++ [call_analysis_init], Exited EXIT_FAILURE) /\
      Forall (fun e => returned_loop_event e = true) t0 /\
      analysis_init w = -1).
Proof.
  intros Hp Ha Hnone.
  destruct (parsed_config_some w cl cfg Hp) as (t0 & Hloop & _).
  pose proof (getopt_loop_returned_events _ _ _ _ _ _ Hloop) as Hev.
  pose proof (check_config_spec w (argv0 cl) cfg (num_input_options (options cl)))
    as [Hcev Hcase].
  destruct (check_config _ _ _ _) as [t1 [u|code]] eqn:Hc; cbn [fst snd] in *.
  { exfalso. destruct Hcase as (_ & _ & _ & _ & _ & _ & Had).
    destruct (Had Ha) as (Hw & Hci & _). destruct Hnone; contradiction. }
  destruct Hcase as [[-> Hin]|(-> & Han & Hinit & ->)].
  - left. apply (main_usage_by_check w cl cfg Hp). rewrite Hc.
    destruct (check_not_pipeline _ Hcev) as (Hp1 & Hs1).
    repeat split; assumption.
  - right. exists t0. rewrite main_unfold, Hloop, Hc. repeat split; assumption.
Qed.

(** --adaptive with both: the percentage is set before any thread. *)
Lemma adaptive_with_both w cl cfg :
  parsed_config w cl = Some cfg ->
  0 < adaptive cfg ->
  write_filename cfg <> None -> capture_interface cfg <> None ->
  only_after is_set_percent_accept_30 spawns_thread (fst (main w cl)).
Proof.
  intros Hp Ha Hw Hci.
  destruct (parsed_config_some w cl cfg Hp) as (t0 & Hloop & Hev).
  destruct (loop_not_pipeline _ Hev) as (_ & Hs0 & _).
  pose proof (check_config_spec w (argv0 cl) cfg (num_input_options (options cl)))
    as [Hcev Hcase].
  destruct (check_not_pipeline _ Hcev) as (_ & Hs1).
  rewrite main_unfold, Hloop.
  destruct (check_config _ _ _ _) as [t1 [u|code]] eqn:Hc; cbn [fst snd] in *.
  2: { apply only_after_no_q. rewrite existsb_app, Hs0, Hs1. reflexivity. }
  destruct Hcase as (_ & _ & _ & _ & _ & _ & Had).
  destruct (Had Ha) as (_ & _ & Hin).
  assert (Hseen : existsb is_set_percent_accept_30 (t0 ++ t1) = true).
  { rewrite existsb_app. rewrite (In_existsb _ _ _ Hin eq_refl).
    apply orb_true_r. }
  assert (Hquiet : only_after is_set_percent_accept_30 spawns_thread (t0 ++ t1)).
  { apply only_after_no_q. rewrite existsb_app, Hs0, Hs1. reflexivity. }
  destruct (process_packets w cfg) as [t2 [cfg'|code]]; cbn [fst].
  - replace (t0 ++ t1 ++ t2 ++ fst (stop_output cfg'))
      with ((t0 ++ t1) ++ t2 ++ fst (stop_output cfg'))
      by (rewrite <- app_assoc; reflexivity).
    apply only_after_app; [exact Hquiet | left; exact Hseen].
  - replace (t0 ++ t1 ++ t2) with ((t0 ++ t1) ++ t2)
      by (rewrite <- app_assoc; reflexivity).
    apply only_after_app; [exact Hquiet | left; exact Hseen].
Qed.

Lemma stops_before_pipeline_intro w cl cfg :
  parsed_config w cl = Some cfg -> 0 < adaptive cfg ->
  write_filename cfg = None \/ capture_interface cfg = None ->
  stops_before_pipeline w cl.
Proof.
  intros Hp Ha Hnone.
  destruct (adaptive_without_both w cl cfg Hp Ha Hnone)
    as [Hu|(t0 & Hm & Hev & Hinit)]; [left; exact Hu|].
  right. rewrite Hm. cbn [fst snd].
  assert (Hq : forall q : event -> bool,
             (forall e, returned_loop_event e = true -> q e = false) ->
             existsb q (t0 ++ [call_analysis_init]) =
             q call_analysis_init || false).
  { intros q Hq. rewrite existsb_app.
    rewrite (Forall_true_existsb_false _ q t0 Hq Hev). reflexivity. }
  repeat split.
  - exact Hinit.
  - apply in_or_app. right. left. reflexivity.
  - intros Hin. apply in_app_or in Hin. destruct Hin as [Hin|[Hin|[]]].
    + rewrite Forall_forall in Hev. specialize (Hev _ Hin). discriminate.
    + discriminate.
  - rewrite Hq; [reflexivity|]. by_class.
  - rewrite Hq; [reflexivity|]. by_class.
Qed.

(** C5, as the code has it.  With --adaptive and without a pcap write file
    or a capture interface, the run ends before the pipeline starts, with a
    non-zero exit status: in usage, or, when -a was given and the analysis
    engine does not initialise, by [return EXIT_FAILURE] without a usage
    message.  With --adaptive, -c and -w, set_percent_accept (30) is called
    before any thread is created.  Both are stated for the configuration
    read from the command line and for the options themselves. *)
Theorem C5_adaptive w cl :
  (forall cfg,
      parsed_config w cl = Some cfg -> 0 < adaptive cfg ->
      write_filename cfg = None \/ capture_interface cfg = None ->
      stops_before_pipeline w cl) /\
  (starts_without_outputs w -> starts_without_capture w ->
   has_option 1 (options cl) = false ->
   has_option 0 (options cl) = true ->
   has_option (ch "c") (options cl) = false \/
     has_option (ch "w") (options cl) = false ->
   stops_before_pipeline w cl) /\
  (forall cfg,
      parsed_config w cl = Some cfg -> 0 < adaptive cfg ->
      write_filename cfg <> None -> capture_interface cfg <> None ->
      only_after is_set_percent_accept_30 spawns_thread (fst (main w cl))) /\
  (has_option 0 (options cl) = true ->
   has_option (ch "c") (options cl) = true ->
   has_option (ch "w") (options cl) = true ->
   only_after is_set_percent_accept_30 spawns_thread (fst (main w cl))).
Proof.
  split; [|split; [|split]].
  - apply stops_before_pipeline_intro.
  - intros [_ Hw0] Hc0 H1 Had Hnone.
    destruct (parsed_config w cl) as [cfg|] eqn:Hp;
      [|left; apply parsed_config_none; exact Hp].
    destruct (parsed_without_config w cl cfg H1 Hp)
      as (_ & Kw & Kc & _ & _ & Ka).
    apply (stops_before_pipeline_intro w cl cfg Hp).
    + rewrite (Ka Had). lia.
    + destruct Hnone as [Hc|Hw].
      * right. rewrite (Kc Hc). exact Hc0.
      * left. rewrite (Kw Hw). exact Hw0.
  - apply adaptive_with_both.
  - intros Had Hc Hw.
    assert (Hquiet : usage_exit (argv0 cl) (main w cl) ->
                     only_after is_set_percent_accept_30 spawns_thread
                       (fst (main w cl))).
    { intros (_ & _ & Hs & _). apply only_after_no_q. exact Hs. }
    destruct (parsed_config w cl) as [cfg|] eqn:Hp;
      [|apply Hquiet, parsed_config_none; exact Hp].
    destruct (has_option 1 (options cl)) eqn:H1.
    + apply Hquiet. apply (main_usage_by_check w cl cfg Hp).
      rewrite check_config_many_inputs; [apply usage_exit_error_help|].
      assert (Hne : ch "c" <> 1) by (vm_compute; discriminate).
      pose proof (num_input_options_two (ch "c") 1 (options cl)
                    eq_refl eq_refl Hne Hc H1). lia.
    + destruct (parsed_without_config w cl cfg H1 Hp)
        as (_ & _ & _ & Kw & Kc & Ka).
      apply (adaptive_with_both w cl cfg Hp).
      * rewrite (Ka Had). lia.
      * apply Kw. exact Hw.
      * apply Kc. exact Hc.
Qed.

Lemma C5_adaptive_witness :
  stops_before_pipeline calm_world
    (mercury [short "r" (Some "in.pcap"); short "w" (Some "out.pcap");
              long_adaptive]) /\
  only_after is_set_percent_accept_30 spawns_thread
    (fst (main calm_world
            (mercury [short "c" (Some "eth0"); short "w" (Some "out.pcap");
                      long_adaptive]))).
Proof.
  split.
  - apply (proj1 (proj2 (C5_adaptive calm_world
             (mercury [short "r" (Some "in.pcap"); short "w" (Some "out.pcap");
                       long_adaptive])))).
    + split; reflexivity.
    + reflexivity.
    + reflexivity.
    + reflexivity.
    + left. reflexivity.
  - apply (proj2 (proj2 (proj2 (C5_adaptive calm_world
             (mercury [short "c" (Some "eth0"); short "w" (Some "out.pcap");
                       long_adaptive]))))).
    + reflexivity.
    + reflexivity.
    + reflexivity.
Defined.

(** C5 as stated fails: with [mercury -r in.pcap -a --adaptive] and an
    analysis engine that does not initialise, main returns EXIT_FAILURE
    after the call of analysis_init; no usage message is printed. *)
Lemma C5_counterexample :
  has_option 0
    (options (mercury [short "r" (Some "in.pcap"); short "a" None;
                       long_adaptive])) = true /\
  has_option (ch "c")
    (options (mercury [short "r" (Some "in.pcap"); short "a" None;
                       long_adaptive])) = false /\
  main no_analysis_world
    (mercury [short "r" (Some "in.pcap"); short "a" None; long_adaptive]) =
  ([call_analysis_init], Exited EXIT_FAILURE) /\
  ~ In (Stdout (msg_mercury_help "mercury"))
      (fst (main no_analysis_world
              (mercury [short "r" (Some "in.pcap"); short "a" None;
                        long_adaptive]))).
Proof.
  repeat split; try reflexivity.
  intros H. vm_compute in H. decompose [or] H; try discriminate; assumption.
Qed.

(** ** One thread per processor *)




(** The run of the witness: eight processors, eight threads. *)
Example capture_with_cpu_threads :
  main calm_world
    (mercury [short "c" (Some "eth0"); short "t" (Some "cpu");
              short "w" (Some "out.pcap")]) =
  (let cfg := set_num_threads 8
                (set_write_filename (Some "out.pcap")
                   (set_capture_interface (Some "eth0") blank_config)) in
   [call_setup_signal_handler; call_get_nprocs; Stdout (msg_found_cpus 8 8);
    call_srand; call_ring_limits_init (FFinite (1 # 10));
    call_output_thread_init cfg; call_af_packet_bind_and_dispatch cfg;
    Stderr msg_stopping_output; store_sig_stop_output 1;
    call_pthread_join output_thread; call_destroy_thread_queues],
   Returned 0).
Proof. reflexivity. Qed.

(** ** Statistics after a replay *)

Lemma open_and_dispatch_no_statistics w cfg :
  write_filename cfg = None \/ verbosity cfg = 0 ->
  existsb is_statistics (fst (open_and_dispatch w cfg)) = false.
Proof.
  intros H.
  remember (open_and_dispatch w cfg) as r eqn:Hr.
  unfold open_and_dispatch, pcap_reader_thread_context_init_from_config,
    pcap_file_processing_thread_func in Hr.
  run Hr; subst r; try reflexivity.
  all: z_facts; destruct H; congruence.
Qed.

Ltac prefix_of l tail :=
  lazymatch l with
  | tail => constr:(@nil event)
  | ?x :: ?r => let p := prefix_of r tail in constr:(x :: p)
  end.

(** The replay is the last thing [process_packets] does. *)
Lemma process_packets_reader w cfg c :
  In (call_pkt_proc_new_from_config c 0) (fst (process_packets w cfg)) ->
  exists pre,
    fst (process_packets w cfg) = pre ++ fst (open_and_dispatch w c) /\
    existsb is_join_reader pre = false /\
    existsb is_statistics pre = false.
Proof.
  remember (process_packets w cfg) as r eqn:Hr.
  unfold process_packets in Hr.
  run Hr; subst r; cbn [fst]; fold_reader; intros Hin.
  all: try (cbn in Hin; decompose [or] Hin; try discriminate; contradiction).
  all: cbn [In] in Hin;
    repeat (destruct Hin as [Hin|Hin]; [discriminate|]).
  all: match goal with
       | Hin : In _ (fst (open_and_dispatch ?w0 ?c0)) |- _ =>
           pose proof (open_and_dispatch_cfg w0 c0) as Hc;
           rewrite Forall_forall in Hc;
           specialize (Hc _ Hin c eq_refl); subst c
       end.
  all: lazymatch goal with
       | |- exists pre, ?l = pre ++ ?tail /\ _ =>
           let p := prefix_of l tail in exists p
       end.
  all: repeat split; reflexivity.
Qed.

(** A run of main that reaches capture or replay. *)
Lemma main_trace_processing w cl cfg n t0 t1 u :
  getopt_loop w (argv0 cl) (options cl) (mercury_config_init w, 0) =
    (t0, Returned (cfg, n)) ->
  check_config w (argv0 cl) cfg n = (t1, Returned u) ->
  exists tail,
    fst (main w cl) = t0 ++ t1 ++ fst (process_packets w cfg) ++ tail /\
    existsb is_join_reader tail = false /\
    existsb is_statistics tail = false.
Proof.
  intros Hloop Hcheck. rewrite main_unfold, Hloop, Hcheck.
  destruct (process_packets w cfg) as [t2 [cfg'|code]]; cbn [fst].
  - exists (fst (stop_output cfg')). split; [reflexivity|].
    rewrite stop_output_trace. cbn [fst].
    destruct (truthy (analysis cfg')); split; reflexivity.
  - exists []. rewrite app_nil_r. repeat split; reflexivity.
Qed.

(** Where a replay started by main shows in the trace. *)
Lemma main_trace_replay w cl cfg :
  In (call_pkt_proc_new_from_config cfg 0) (fst (main w cl)) ->
  exists before after,
    fst (main w cl) = before ++ fst (open_and_dispatch w cfg) ++ after /\
    existsb is_join_reader before = false /\
    existsb is_statistics before = false /\
    existsb is_join_reader after = false /\
    existsb is_statistics after = false.
Proof.
  intros Hin.
  assert (Hloop_class : forall t,
             Forall (fun e => loop_event e = true) t ->
             ~ In (call_pkt_proc_new_from_config cfg 0) t /\
             existsb is_join_reader t = false /\
             existsb is_statistics t = false).
  { intros t Ht. repeat split.
    - intros H. rewrite Forall_forall in Ht. specialize (Ht _ H). discriminate.
    - eapply Forall_true_existsb_false; [|exact Ht]. by_class.
    - eapply Forall_true_existsb_false; [|exact Ht]. by_class. }
  assert (Hcheck_class : forall t,
             Forall (fun e => check_event e = true) t ->
             ~ In (call_pkt_proc_new_from_config cfg 0) t /\
             existsb is_join_reader t = false /\
             existsb is_statistics t = false).
  { intros t Ht. repeat split.
    - intros H. rewrite Forall_forall in Ht. specialize (Ht _ H). discriminate.
    - eapply Forall_true_existsb_false; [|exact Ht]. by_class.
    - eapply Forall_true_existsb_false; [|exact Ht]. by_class. }
  destruct (getopt_loop w (argv0 cl) (options cl) (mercury_config_init w, 0))
    as [t0 [[cfg0 n]|code]] eqn:Hloop.
  2: { exfalso. rewrite main_unfold, Hloop in Hin. cbn [fst] in Hin.
       apply getopt_loop_events in Hloop.
       destruct (Hloop_class _ Hloop) as [Hno _]. contradiction. }
  pose proof (getopt_loop_events _ _ _ _ _ _ Hloop) as Hev.
  destruct (Hloop_class _ Hev) as (Hn0 & Hj0 & Hs0).
  pose proof (check_config_spec w (argv0 cl) cfg0 n) as [Hcev _].
  destruct (check_config w (argv0 cl) cfg0 n) as [t1 [u|code]] eqn:Hcheck;
    cbn [fst] in Hcev; destruct (Hcheck_class _ Hcev) as (Hn1 & Hj1 & Hs1).
  2: { exfalso. rewrite main_unfold, Hloop, Hcheck in Hin. cbn [fst] in Hin.
       apply in_app_or in Hin. destruct Hin; contradiction. }
  destruct (main_trace_processing w cl cfg0 n t0 t1 u Hloop Hcheck)
    as (tail & Htr & Hjt & Hst).
  rewrite Htr in Hin |- *.
  assert (Hin2 : In (call_pkt_proc_new_from_config cfg 0)
                   (fst (process_packets w cfg0))).
  { apply in_app_or in Hin. destruct Hin as [Hin|Hin]; [contradiction|].
    apply in_app_or in Hin. destruct Hin as [Hin|Hin]; [contradiction|].
    apply in_app_or in Hin. destruct Hin as [Hin|Hin]; [exact Hin|].
    exfalso. clear -Hin Htr Hloop Hcheck.
    rewrite main_unfold, Hloop, Hcheck in Htr.
    destruct (process_packets w cfg0) as [t2 [cfg'|code]]; cbn [fst] in Htr.
    - apply app_inv_head in Htr. apply app_inv_head in Htr.
      apply app_inv_head in Htr. subst tail.
      rewrite stop_output_trace in Hin. cbn [fst] in Hin.
      destruct (truthy (analysis cfg')); cbn in Hin;
        decompose [or] Hin; try discriminate; contradiction.
    - replace (t0 ++ t1 ++ t2) with (t0 ++ t1 ++ t2 ++ []) in Htr
        by (rewrite app_nil_r; reflexivity).
      apply app_inv_head in Htr. apply app_inv_head in Htr.
      apply app_inv_head in Htr. subst tail. destruct Hin. }
  destruct (process_packets_reader w cfg0 cfg Hin2) as (pre & Hpre & Hjp & Hsp).
  rewrite Hpre. exists (t0 ++ t1 ++ pre), tail.
  repeat split.
  - rewrite <- !app_assoc. reflexivity.
  - rewrite !existsb_app, Hj0, Hj1, Hjp. reflexivity.
  - rewrite !existsb_app, Hs0, Hs1, Hsp. reflexivity.
  - exact Hjt.
  - exact Hst.
Qed.

(** C7, as the code has it.  Take a run of main that starts a replay with
    the configuration [cfg].  When both verbose mode and a pcap write file
    are configured and the reader thread is joined, the statistics line is
    printed right after the join, the closing of the file, the deletion of
    the packet processor and the stop of the timer: packets and bytes
    written, read from the counters of the packet processor as the thread
    left them, the nanoseconds the timer reports, and the byte rate computed
    from the two.  Without a pcap write file, or without verbose mode, the
    run prints no statistics line. *)
Theorem C7_replay_statistics w cl cfg :
  In (call_pkt_proc_new_from_config cfg 0) (fst (main w cl)) ->
  (verbosity cfg <> 0 -> write_filename cfg <> None ->
   existsb is_join_reader (fst (main w cl)) = true ->
   exists before after pp name pp' st,
     pkt_proc_new_from_config w cfg 0 = Some pp /\
     pcap_file_dispatch_pkt_processor w name pp (loop_count cfg) = (pp', st) /\
     fst (main w cl) =
       before ++
       [call_pthread_join file_reader_thread; call_pcap_file_close;
        delete_pkt_processor; call_timer_stop;
        Stdout (msg_statistics (packets_written pp') (bytes_written pp')
                  (timer_stop w)
                  (float_div (bytes_written pp' * BILLION) (timer_stop w)))]
       ++ after) /\
  (write_filename cfg = None \/ verbosity cfg = 0 ->
   existsb is_statistics (fst (main w cl)) = false).
Proof.
  intros Hin.
  destruct (main_trace_replay w cl cfg Hin)
    as (before & after & Htr & Hjb & Hsb & Hja & Hsa).
  split.
  - intros Hv Hw Hjoin.
    assert (Hj : existsb is_join_reader (fst (open_and_dispatch w cfg)) = true).
    { rewrite Htr, !existsb_app, Hjb, Hja, orb_false_r in Hjoin. exact Hjoin. }
    destruct (open_and_dispatch_statistics w cfg Hv Hw Hj)
      as (pre & pp & name & pp' & st & Hpp & Hdisp & Hod).
    exists (before ++ pre), after, pp, name, pp', st.
    repeat split; [exact Hpp | exact Hdisp |].
    rewrite Htr, Hod, <- !app_assoc. reflexivity.
  - intros Hnone.
    rewrite Htr, !existsb_app, Hsb, Hsa,
      (open_and_dispatch_no_statistics w cfg Hnone). reflexivity.
Qed.

Lemma C7_replay_statistics_witness :
  exists before after pp name pp' st,
    pkt_proc_new_from_config calm_world
      (set_verbosity 1 (set_write_filename (Some "out.pcap")
         (set_read_filename (Some "in.pcap") blank_config))) 0 = Some pp /\
    pcap_file_dispatch_pkt_processor calm_world name pp 1 = (pp', st) /\
    fst (main calm_world
           (mercury [short "r" (Some "in.pcap"); short "w" (Some "out.pcap");
                     short "v" None])) =
      before ++
      [call_pthread_join file_reader_thread; call_pcap_file_close;
       delete_pkt_processor; call_timer_stop;
       Stdout (msg_statistics (packets_written pp') (bytes_written pp')
                 5000 (float_div (bytes_written pp' * BILLION) 5000))]
      ++ after.
Proof.
  destruct (C7_replay_statistics calm_world
              (mercury [short "r" (Some "in.pcap");
                        short "w" (Some "out.pcap"); short "v" None])
              (set_verbosity 1 (set_write_filename (Some "out.pcap")
                 (set_read_filename (Some "in.pcap") blank_config))))
    as [Hreport _].
  - simpl. auto 10.
  - apply Hreport.
    + simpl. lia.
    + simpl. discriminate.
    + reflexivity.
Defined.

(** C7 as stated fails: [mercury -r in.pcap -f fp.json -v] replays the
    file in verbose mode, the reader thread is joined, main returns 0, and
    no statistics line is printed. *)
Lemma C7_counterexample :
  In (call_pkt_proc_new_from_config
        (set_verbosity 1 (set_fingerprint_filename (Some "fp.json")
           (set_read_filename (Some "in.pcap") blank_config))) 0)
    (fst (main calm_world
            (mercury [short "r" (Some "in.pcap"); short "f" (Some "fp.json");
                      short "v" None]))) /\
  existsb is_join_reader
    (fst (main calm_world
            (mercury [short "r" (Some "in.pcap"); short "f" (Some "fp.json");
                      short "v" None]))) = true /\
  snd (main calm_world
         (mercury [short "r" (Some "in.pcap"); short "f" (Some "fp.json");
                   short "v" None])) = Returned 0 /\
  existsb is_statistics
    (fst (main calm_world
            (mercury [short "r" (Some "in.pcap"); short "f" (Some "fp.json");
                      short "v" None]))) = false.
Proof.
  repeat split; try reflexivity. cbn. auto 10.
Qed.

(** ** What guards the pipeline *)

Lemma check_config_accepts w p cfg :
  (fingerprint_filename cfg = None \/ write_filename cfg = None) ->
  (num_threads cfg = 1 \/ fingerprint_filename cfg <> None \/
   write_filename cfg <> None) ->
  (analysis cfg <> 0 -> analysis_init w <> -1) ->
  1 <= loop_count cfg ->
  (0 < adaptive cfg ->
   write_filename cfg <> None /\ capture_interface cfg <> None) ->
  exists t, check_config w p cfg 1 = (t, Returned tt).
Proof.
  intros Hfw Ht Ha Hl Had. unfold check_config.
  change (1 =? 0) with false. change (1 >? 1) with false.
  replace (loop_count cfg <? 1) with false by (symmetry; apply Z.ltb_ge; exact Hl).
  assert (E1 : negb (is_null (fingerprint_filename cfg)) &&
               negb (is_null (write_filename cfg)) = false).
  { destruct Hfw as [-> | ->]; cbn; [reflexivity|apply andb_false_r]. }
  assert (E2 : negb (num_threads cfg =? 1) && is_null (fingerprint_filename cfg)
               && is_null (write_filename cfg) = false).
  { destruct Ht as [-> |[H|H]]; [reflexivity| |].
    - destruct (fingerprint_filename cfg); [|congruence].
      cbn. rewrite andb_false_r. reflexivity.
    - destruct (write_filename cfg); [|congruence].
      cbn. rewrite andb_false_r. reflexivity. }
  rewrite E1, E2. unfold truthy.
  assert (E3 : negb (analysis cfg =? 0) && (analysis_init w =? -1) = false).
  { destruct (analysis cfg =? 0) eqn:Ea; [reflexivity|]. cbn.
    apply Z.eqb_neq. apply Ha. apply Z.eqb_neq. exact Ea. }
  assert (E4 : (adaptive cfg >? 0) &&
               (is_null (write_filename cfg) || is_null (capture_interface cfg))
               = false).
  { rewrite Z.gtb_ltb. destruct (0 <? adaptive cfg) eqn:Ead; [|reflexivity].
    apply Z.ltb_lt in Ead. destruct (Had Ead) as [Hw Hc].
    destruct (write_filename cfg); [|congruence].
    destruct (capture_interface cfg); [|congruence]. reflexivity. }
  destruct (analysis cfg =? 0); destruct (analysis_init w =? -1);
    try discriminate;
    destruct (loop_count cfg >? 1);
    destruct (adaptive cfg >? 0);
    destruct (is_null (write_filename cfg) || is_null (capture_interface cfg));
    try discriminate; cbn; eexists; reflexivity.
Qed.

Lemma bind_emit {A} (e : event) (k : unit -> proc A) :
  bind (emit e) k = (e :: fst (k tt), snd (k tt)).
Proof.
  unfold bind, emit. destruct (k tt); reflexivity.
Qed.

Lemma process_packets_starts w cfg :
  exists rest,
    fst (process_packets w cfg) = call_setup_signal_handler :: rest.
Proof.
  unfold process_packets. rewrite bind_emit. eexists. reflexivity.
Qed.

(** X1.  main sets up the signal handlers, and goes on to capture or
    replay, exactly when the option loop ran to its end and the
    configuration it collected passes every check: one input option, not
    both output files, an output file if the thread count is not 1, an
    analysis engine that initialises if -a was given, a loop count of at
    least 1, and -c and -w if --adaptive was given. *)
Theorem X1_checks_guard_the_pipeline w cl :
  In call_setup_signal_handler (fst (main w cl)) <->
  exists cfg, parsed_config w cl = Some cfg /\ passes_checks w cl cfg.
Proof.
  rewrite main_unfold. split.
  - intros Hin.
    destruct (getopt_loop _ _ _ _) as [t0 [[cfg n]|code]] eqn:Hloop;
      cbn [fst] in Hin.
    2: { apply getopt_loop_events in Hloop. rewrite Forall_forall in Hloop.
         specialize (Hloop _ Hin). discriminate. }
    pose proof (getopt_loop_events _ _ _ _ _ _ Hloop) as Hev.
    pose proof (getopt_loop_num_inputs _ _ _ _ _ _ _ _ Hloop) as Hn.
    rewrite Z.add_0_l in Hn.
    pose proof (num_input_options_nonneg (options cl)) as Hnn.
    pose proof (check_config_spec w (argv0 cl) cfg n) as [Hcev Hcase].
    exists cfg. split; [unfold parsed_config; rewrite Hloop; reflexivity|].
    destruct (check_config _ _ _ _) as [t1 [u|code]]; cbn [fst snd] in *.
    + destruct Hcase as (H0 & H1 & Hl & Hfw & Ht & Ha & Had).
      unfold passes_checks. repeat split; try assumption; try lia.
      * apply (Had H).
      * apply (Had H).
    + exfalso. apply in_app_or in Hin.
      rewrite Forall_forall in Hev, Hcev.
      destruct Hin as [Hin|Hin];
        [specialize (Hev _ Hin)|specialize (Hcev _ Hin)]; discriminate.
  - intros (cfg & Hp & Hn & Hfw & Ht & Ha & Hl & Had).
    destruct (parsed_config_some w cl cfg Hp) as (t0 & Hloop & _).
    rewrite Hloop, Hn.
    destruct (check_config_accepts w (argv0 cl) cfg Hfw Ht Ha Hl Had)
      as (t1 & ->).
    destruct (process_packets_starts w cfg) as (rest & Hrest).
    destruct (process_packets w cfg) as [t2 [cfg'|code]]; cbn [fst] in *;
      subst t2; apply in_or_app; right; apply in_or_app; right;
      left; reflexivity.
Qed.

(** ** How a run ends *)

Lemma loop_no_shutdown_event t :
  Forall (fun e => loop_event e = true) t ->
  existsb is_shutdown_event t = false.
Proof.
  intros H. eapply Forall_true_existsb_false; [|exact H]. by_class.
Qed.

Lemma check_no_shutdown_event t :
  Forall (fun e => check_event e = true) t ->
  existsb is_shutdown_event t = false.
Proof.
  intros H. eapply Forall_true_existsb_false; [|exact H]. by_class.
Qed.

Lemma processing_no_shutdown_event t :
  Forall (fun e => processing_event e = true) t ->
  existsb is_shutdown_event t = false.
Proof.
  intros H. eapply Forall_true_existsb_false; [|exact H]. by_class.
Qed.

(** When capture or replay ends the process, the status is EXIT_FAILURE
    (the output thread did not start) or 255 (the reader thread could not
    be woken or created). *)
Lemma process_packets_exit w cfg :
  match snd (process_packets w cfg) with
  | Returned _ => True
  | Exited code => code = EXIT_FAILURE \/ code = 255
  end.
Proof.
  remember (process_packets w cfg) as r eqn:Hr.
  unfold process_packets in Hr.
  run Hr; subst r; cbn [fst snd]; fold_reader;
    try exact I; try (left; reflexivity).
  all: match goal with
       | H : _ = snd (open_and_dispatch ?w ?c) |- _ =>
           pose proof (open_and_dispatch_joins w c) as Hj; rewrite <- H in Hj
       end.
  all: right; exact Hj.
Qed.

(** X2.  Every run of main ends in one of two ways.  It returns 0, and
    then the last four things it did are the shutdown: the message that
    the output thread is stopped, the store to sig_stop_output, the join
    of the output thread and destroy_thread_queues, none of which happened
    before.  Or it ends with status 255 or EXIT_FAILURE, and then none of
    the three shutdown steps was taken. *)
Theorem X2_exit_status_and_shutdown w cl :
  match snd (main w cl) with
  | Returned code =>
      code = 0 /\
      exists pre, fst (main w cl) = pre ++ shutdown_sequence /\
                  existsb is_shutdown_event pre = false
  | Exited code =>
      (code = EXIT_ERR \/ code = EXIT_FAILURE) /\
      existsb is_shutdown_event (fst (main w cl)) = false
  end.
Proof.
  rewrite main_unfold.
  destruct (getopt_loop _ _ _ _) as [t0 [[cfg n]|code]] eqn:Hloop.
  2: { pose proof (getopt_loop_events _ _ _ _ _ _ Hloop) as Hev.
       apply getopt_loop_exit in Hloop. destruct Hloop as [-> _].
       cbn [fst snd]. split; [left; reflexivity|].
       apply loop_no_shutdown_event. exact Hev. }
  pose proof (getopt_loop_events _ _ _ _ _ _ Hloop) as Hev0.
  apply loop_no_shutdown_event in Hev0.
  pose proof (check_config_spec w (argv0 cl) cfg n) as [Hev1 Hcase].
  apply check_no_shutdown_event in Hev1.
  destruct (check_config _ _ _ _) as [t1 [u|code]]; cbn [fst snd] in *.
  2: { split.
       - destruct Hcase as [[-> _]|[-> _]]; [left|right]; reflexivity.
       - rewrite existsb_app, Hev0, Hev1. reflexivity. }
  pose proof (process_packets_events w cfg) as Hev2.
  apply processing_no_shutdown_event in Hev2.
  pose proof (process_packets_exit w cfg) as Hexit.
  destruct (process_packets w cfg) as [t2 [cfg'|code]]; cbn [fst snd] in *.
  - split; [reflexivity|].
    rewrite stop_output_trace. cbn [fst].
    exists (t0 ++ t1 ++ t2 ++
            (if truthy (analysis cfg') then [call_analysis_finalize] else [])).
    split.
    + unfold shutdown_sequence. rewrite <- !app_assoc. reflexivity.
    + rewrite !existsb_app, Hev0, Hev1, Hev2.
      destruct (truthy (analysis cfg')); reflexivity.
  - split.
    + destruct Hexit as [->| ->]; [right|left]; reflexivity.
    + rewrite !existsb_app, Hev0, Hev1, Hev2. reflexivity.
Qed.

(** ** Options that end the run *)

(** An option that passes the switch is one of those it has a case for. *)
Lemma option_case_returned_handled w p o st t st' :
  option_case w p o st = (t, Returned st') ->
  option_handled (opt o) = true.
Proof.
  destruct o as [c a], st as [cfg n]. intros H. cbn [opt].
  switch_cases H;
    repeat match goal with
    | E : ?c = _ |- _ => is_var c; subst c
    end;
    try reflexivity.
  all: leaf H.
Qed.

Lemma getopt_loop_returned_handled w p opts :
  forall st t st',
    getopt_loop w p opts st = (t, Returned st') ->
    forallb (fun o => option_handled (opt o)) opts = true.
Proof.
  induction opts as [|o rest IH]; intros st t st' H; [reflexivity|].
  apply getopt_loop_cons_returned in H.
  destruct H as (t1 & st1 & t2 & H1 & H2 & ->).
  cbn [forallb]. rewrite (option_case_returned_handled _ _ _ _ _ _ H1).
  apply (IH _ _ _ H2).
Qed.

Lemma has_option_unhandled c opts :
  option_handled c = false -> has_option c opts = true ->
  forallb (fun o => option_handled (opt o)) opts = false.
Proof.
  intros Hc. induction opts as [|o rest IH]; [discriminate|].
  rewrite has_option_cons. cbn [forallb].
  destruct (opt o =? c) eqn:E.
  - apply Z.eqb_eq in E. rewrite E, Hc. reflexivity.
  - cbn [orb]. intros H. rewrite (IH H). apply andb_false_r.
Qed.

(** X3.  An option code that the switch has no case for ends every run in
    usage, wherever it stands on the command line and whatever else is
    given: the help text is printed, the exit status is 255 and no thread
    or output is touched.  So does -h.  Among the codes without a case is
    'm' of -m/--multiple, which the option table and the help text list. *)
Theorem X3_unhandled_option_ends_in_usage w cl c :
  option_handled c = false ->
  has_option c (options cl) = true ->
  parsed_config w cl = None /\ usage_exit (argv0 cl) (main w cl).
Proof.
  intros Hc Hin.
  assert (Hp : parsed_config w cl = None).
  { unfold parsed_config.
    destruct (getopt_loop _ _ _ _) as [t0 [[cfg n]|code]] eqn:Hloop;
      [|reflexivity].
    apply getopt_loop_returned_handled in Hloop.
    rewrite (has_option_unhandled c _ Hc Hin) in Hloop. discriminate. }
  split; [exact Hp|apply parsed_config_none; exact Hp].
Qed.

Lemma X3_unhandled_option_ends_in_usage_witness :
  option_handled (ch "m") = false /\
  usage_exit "mercury"
    (main calm_world
       (mercury [short "r" (Some "in.pcap"); short "m" (Some "3")])).
Proof.
  split; [reflexivity|].
  apply (X3_unhandled_option_ends_in_usage calm_world
           (mercury [short "r" (Some "in.pcap"); short "m" (Some "3")])
           (ch "m")); reflexivity.
Defined.

(** ** The order of a replay *)

Ltac in_order :=
  repeat first
    [ apply only_after_cons_p; [reflexivity | reflexivity]
    | apply only_after_cons_other; [reflexivity|] ];
  try (apply only_after_no_q; reflexivity).

Lemma open_and_dispatch_order w cfg :
  only_after is_store_output_start is_broadcast (fst (open_and_dispatch w cfg)) /\
  only_after is_broadcast is_create_reader (fst (open_and_dispatch w cfg)) /\
  only_after is_create_reader is_reader_dispatch (fst (open_and_dispatch w cfg)) /\
  only_after is_reader_dispatch is_join_reader (fst (open_and_dispatch w cfg)) /\
  only_after is_join_reader is_reader_cleanup (fst (open_and_dispatch w cfg)).
Proof.
  remember (open_and_dispatch w cfg) as r eqn:Hr.
  unfold open_and_dispatch, pcap_reader_thread_context_init_from_config,
    pcap_file_processing_thread_func in Hr.
  run Hr; subst r; cbn [fst]; repeat split; in_order.
Qed.

Lemma process_packets_order w cfg :
  only_after is_output_thread_init is_store_output_start
    (fst (process_packets w cfg)) /\
  only_after is_output_thread_init is_capture (fst (process_packets w cfg)) /\
  only_after is_store_output_start is_broadcast (fst (process_packets w cfg)) /\
  only_after is_broadcast is_create_reader (fst (process_packets w cfg)) /\
  only_after is_create_reader is_reader_dispatch (fst (process_packets w cfg)) /\
  only_after is_reader_dispatch is_join_reader (fst (process_packets w cfg)) /\
  only_after is_join_reader is_reader_cleanup (fst (process_packets w cfg)).
Proof.
  remember (process_packets w cfg) as r eqn:Hr.
  unfold process_packets in Hr.
  run Hr; subst r; cbn [fst]; fold_reader; repeat split; in_order.
  all: apply open_and_dispatch_order.
Qed.

(** An order that capture or replay keeps, and whose later event occurs
    nowhere else in main, is kept by main. *)
Lemma main_only_after (p q : event -> bool) w cl :
  (forall e, loop_event e = true -> q e = false) ->
  (forall e, check_event e = true -> q e = false) ->
  (forall cfg, existsb q (fst (stop_output cfg)) = false) ->
  (forall cfg, only_after p q (fst (process_packets w cfg))) ->
  only_after p q (fst (main w cl)).
Proof.
  intros Hl Hc Hs Hp. rewrite main_unfold.
  destruct (getopt_loop _ _ _ _) as [t0 [[cfg n]|code]] eqn:Hloop.
  2: { cbn [fst]. apply only_after_no_q.
       eapply Forall_true_existsb_false; [exact Hl|].
       eapply getopt_loop_events; eauto. }
  assert (H0 : existsb q t0 = false).
  { eapply Forall_true_existsb_false; [exact Hl|].
    eapply getopt_loop_events; eauto. }
  pose proof (check_config_spec w (argv0 cl) cfg n) as [Hev1 _].
  assert (H1 : existsb q (fst (check_config w (argv0 cl) cfg n)) = false).
  { eapply Forall_true_existsb_false; [exact Hc|exact Hev1]. }
  destruct (check_config _ _ _ _) as [t1 [u|code]]; cbn [fst] in *.
  2: { apply only_after_no_q. rewrite existsb_app, H0, H1. reflexivity. }
  specialize (Hp cfg).
  destruct (process_packets w cfg) as [t2 [cfg'|code]]; cbn [fst] in *.
  - apply only_after_app; [apply only_after_no_q; exact H0|right].
    apply only_after_app; [apply only_after_no_q; exact H1|right].
    apply only_after_app; [exact Hp|right].
    apply only_after_no_q. apply Hs.
  - apply only_after_app; [apply only_after_no_q; exact H0|right].
    apply only_after_app; [apply only_after_no_q; exact H1|right].
    exact Hp.
Qed.

Ltac main_order w cl :=
  apply (main_only_after _ _ w cl);
  [ by_class | by_class
  | intros cfg; rewrite stop_output_trace; cbn [fst];
    destruct (truthy (analysis cfg)); reflexivity
  | intros cfg; apply process_packets_order ].

(** X4.  In every run of main the start-up keeps its order: the output
    thread is initialised before the start flag t_output_p is stored and
    before a capture is dispatched; the flag is stored before the
    condition variable is broadcast; the broadcast comes before the reader
    thread is created. *)
Theorem X4_start_up_order w cl :
  only_after is_output_thread_init is_store_output_start (fst (main w cl)) /\
  only_after is_output_thread_init is_capture (fst (main w cl)) /\
  only_after is_store_output_start is_broadcast (fst (main w cl)) /\
  only_after is_broadcast is_create_reader (fst (main w cl)).
Proof.
  repeat split; main_order w cl.
Qed.

(** X5.  In every run of main the reader thread goes through its life in
    order: the file is dispatched only once the thread exists, the thread
    is joined only after the dispatch, and the pcap file is closed, the
    packet processor deleted and the timer stopped only after the join. *)
Theorem X5_reader_life_cycle w cl :
  only_after is_create_reader is_reader_dispatch (fst (main w cl)) /\
  only_after is_reader_dispatch is_join_reader (fst (main w cl)) /\
  only_after is_join_reader is_reader_cleanup (fst (main w cl)).
Proof.
  repeat split; main_order w cl.
Qed.

(** ** The two ways through main *)

(** A run either ends in the option loop or in the checks, having emitted
    only what these emit, or it goes through capture or replay with the
    configuration the loop collected. *)
Lemma main_parts w cl :
  (Forall (fun e => loop_event e = true \/ check_event e = true)
     (fst (main w cl)) /\
   exists code, snd (main w cl) = Exited code) \/
  exists cfg t0 t1,
    parsed_config w cl = Some cfg /\ passes_checks w cl cfg /\
    Forall (fun e => loop_event e = true) t0 /\
    Forall (fun e => check_event e = true) t1 /\
    check_config w (argv0 cl) cfg 1 = (t1, Returned tt) /\
    main w cl =
    match process_packets w cfg with
    | (t2, Exited code) => (t0 ++ t1 ++ t2, Exited code)
    | (t2, Returned cfg') =>
        (t0 ++ t1 ++ t2 ++ fst (stop_output cfg'), Returned 0)
    end.
Proof.
  rewrite main_unfold. unfold parsed_config.
  destruct (getopt_loop _ _ _ _) as [t0 [[cfg n]|code]] eqn:Hloop.
  2: { left. cbn [fst snd]. split; [|exists code; reflexivity].
       eapply Forall_impl; [|eapply getopt_loop_events; eauto].
       intros e He. left. exact He. }
  pose proof (getopt_loop_events _ _ _ _ _ _ Hloop) as Hev0.
  pose proof (getopt_loop_num_inputs _ _ _ _ _ _ _ _ Hloop) as Hn.
  rewrite Z.add_0_l in Hn.
  pose proof (num_input_options_nonneg (options cl)) as Hnn.
  pose proof (check_config_spec w (argv0 cl) cfg n) as [Hev1 Hcase].
  destruct (check_config _ _ _ _) as [t1 [[]|code]] eqn:Hcheck;
    cbn [fst snd] in *.
  - right. exists cfg, t0, t1.
    destruct Hcase as (H0 & H1 & Hl & Hfw & Ht & Ha & Had).
    assert (En : n = 1) by lia. rewrite En in *.
    repeat split; auto; try lia; try (apply Had; assumption).
  - left. split; [|exists code; reflexivity].
    apply Forall_app. split.
    + eapply Forall_impl; [|exact Hev0]. intros e He. left. exact He.
    + eapply Forall_impl; [|exact Hev1]. intros e He. right. exact He.
Qed.

Lemma quiet_existsb (q : event -> bool) t :
  (forall e, loop_event e = true -> q e = false) ->
  (forall e, check_event e = true -> q e = false) ->
  Forall (fun e => loop_event e = true \/ check_event e = true) t ->
  existsb q t = false.
Proof.
  intros Hl Hc H. apply existsb_false_Forall.
  eapply Forall_impl; [|exact H]. intros e [He|He]; auto.
Qed.

(** Something that only capture or replay does was done there, by a run
    that passed the checks. *)
Lemma main_processing_event (q : event -> bool) w cl :
  (forall e, loop_event e = true -> q e = false) ->
  (forall e, check_event e = true -> q e = false) ->
  (forall cfg, existsb q (fst (stop_output cfg)) = false) ->
  existsb q (fst (main w cl)) = true ->
  exists cfg t0 t1,
    parsed_config w cl = Some cfg /\ passes_checks w cl cfg /\
    existsb q (fst (process_packets w cfg)) = true /\
    main w cl =
    match process_packets w cfg with
    | (t2, Exited code) => (t0 ++ t1 ++ t2, Exited code)
    | (t2, Returned cfg') =>
        (t0 ++ t1 ++ t2 ++ fst (stop_output cfg'), Returned 0)
    end.
Proof.
  intros Hl Hc Hs Hq.
  destruct (main_parts w cl) as [[Hquiet _]|(cfg & t0 & t1 & Hp & Hpass & H0 & H1 & _ & Hm)].
  - rewrite (quiet_existsb q _ Hl Hc Hquiet) in Hq. discriminate.
  - exists cfg, t0, t1.
    split; [exact Hp|split; [exact Hpass|split; [|exact Hm]]].
    rewrite Hm in Hq.
    assert (Hq0 : existsb q t0 = false)
      by (eapply Forall_true_existsb_false; [exact Hl|exact H0]).
    assert (Hq1 : existsb q t1 = false)
      by (eapply Forall_true_existsb_false; [exact Hc|exact H1]).
    destruct (process_packets w cfg) as [t2 [cfg'|code]]; cbn [fst] in *.
    + rewrite !existsb_app, Hq0, Hq1, Hs, orb_false_r in Hq. exact Hq.
    + rewrite !existsb_app, Hq0, Hq1 in Hq. exact Hq.
Qed.

Ltac stop_output_none :=
  let cfg := fresh "cfg" in
  intros cfg; rewrite stop_output_trace; cbn [fst];
  destruct (truthy (analysis cfg)); reflexivity.

(** ** The end of a replay *)

Lemma open_and_dispatch_dispatched w cfg :
  existsb is_reader_dispatch (fst (open_and_dispatch w cfg)) = true ->
  snd (open_and_dispatch w cfg) = Returned status_ok /\
  existsb is_join_reader (fst (open_and_dispatch w cfg)) = true /\
  In call_pcap_file_close (fst (open_and_dispatch w cfg)) /\
  In delete_pkt_processor (fst (open_and_dispatch w cfg)).
Proof.
  remember (open_and_dispatch w cfg) as r eqn:Hr.
  unfold open_and_dispatch, pcap_reader_thread_context_init_from_config,
    pcap_file_processing_thread_func in Hr.
  run Hr; subst r; cbn [fst snd]; intros H; try discriminate H.
  all: repeat split; try reflexivity; cbn; auto 20.
Qed.

Lemma process_packets_dispatched w cfg :
  existsb is_reader_dispatch (fst (process_packets w cfg)) = true ->
  (exists cfg', snd (process_packets w cfg) = Returned cfg') /\
  existsb is_join_reader (fst (process_packets w cfg)) = true /\
  In call_pcap_file_close (fst (process_packets w cfg)) /\
  In delete_pkt_processor (fst (process_packets w cfg)).
Proof.
  remember (process_packets w cfg) as r eqn:Hr.
  unfold process_packets in Hr.
  run Hr; subst r; cbn [fst snd]; fold_reader; intros H; try discriminate H.
  all: cbn -[open_and_dispatch] in H;
    destruct (open_and_dispatch_dispatched _ _ H) as (Ho & Hj & Hc & Hd).
  all: try (match goal with
            | E : Exited _ = snd (open_and_dispatch _ _) |- _ =>
                rewrite Ho in E; discriminate E
            end).
  all: repeat split; try (eexists; reflexivity);
    cbn -[open_and_dispatch]; auto 10.
Qed.

(** X6.  Once the pcap file has been dispatched to the packet processor,
    the run goes to its end whatever pcap_file_dispatch_pkt_processor
    returned: the reader thread is joined, the file is closed, the
    processor is deleted, and main returns 0.  A failed dispatch shows in
    the output only, never in the exit status. *)
Theorem X6_dispatch_status_is_dropped w cl :
  existsb is_reader_dispatch (fst (main w cl)) = true ->
  snd (main w cl) = Returned 0 /\
  existsb is_join_reader (fst (main w cl)) = true /\
  In call_pcap_file_close (fst (main w cl)) /\
  In delete_pkt_processor (fst (main w cl)).
Proof.
  intros H.
  destruct (main_processing_event is_reader_dispatch w cl)
    as (cfg & t0 & t1 & _ & _ & Hq & Hm);
    [by_class | by_class | stop_output_none | exact H |].
  destruct (process_packets_dispatched w cfg Hq) as ([cfg' Ho] & Hj & Hc & Hd).
  rewrite Hm.
  destruct (process_packets w cfg) as [t2 [c|code]]; cbn [fst snd] in *;
    [|discriminate Ho].
  repeat split.
  - rewrite !existsb_app, Hj, !orb_true_r. reflexivity.
  - apply in_or_app; right; apply in_or_app; right; apply in_or_app; left;
      exact Hc.
  - apply in_or_app; right; apply in_or_app; right; apply in_or_app; left;
      exact Hd.
Qed.

Lemma X6_dispatch_status_is_dropped_witness :
  existsb
    (fun e => match e with Stdout (msg_dispatch_error _) => true | _ => false end)
    (fst (main failing_dispatch_world (mercury [short "r" (Some "in.pcap")])))
  = true /\
  snd (main failing_dispatch_world (mercury [short "r" (Some "in.pcap")]))
  = Returned 0.
Proof.
  split; [reflexivity|].
  apply (X6_dispatch_status_is_dropped failing_dispatch_world
           (mercury [short "r" (Some "in.pcap")])).
  reflexivity.
Defined.

(** ** How many threads, and which input *)

Lemma filter_nil_existsb {A} (q : A -> bool) l :
  existsb q l = false -> List.filter q l = [].
Proof.
  induction l as [|x l IH]; [reflexivity|]. cbn.
  destruct (q x); [discriminate|]. exact IH.
Qed.

Lemma open_and_dispatch_counts w cfg :
  (List.length (List.filter is_create_reader (fst (open_and_dispatch w cfg))) <= 1)%nat /\
  (List.length (List.filter spawns_thread (fst (open_and_dispatch w cfg))) <= 1)%nat /\
  List.filter is_output_thread_init (fst (open_and_dispatch w cfg)) = [] /\
  List.filter is_capture (fst (open_and_dispatch w cfg)) = [].
Proof.
  remember (open_and_dispatch w cfg) as r eqn:Hr.
  unfold open_and_dispatch, pcap_reader_thread_context_init_from_config,
    pcap_file_processing_thread_func in Hr.
  run Hr; subst r; cbn; repeat split; lia.
Qed.

Lemma process_packets_counts w cfg :
  (List.length (List.filter is_output_thread_init (fst (process_packets w cfg))) <= 1)%nat /\
  (List.length (List.filter is_create_reader (fst (process_packets w cfg))) <= 1)%nat /\
  (List.length (List.filter is_capture (fst (process_packets w cfg))) <= 1)%nat /\
  (List.length (List.filter spawns_thread (fst (process_packets w cfg))) <= 2)%nat.
Proof.
  remember (process_packets w cfg) as r eqn:Hr.
  unfold process_packets in Hr.
  run Hr; subst r; cbn [fst]; fold_reader.
  all: try (cbn; repeat split; lia).
  all: match goal with
       | H : _ = snd (open_and_dispatch ?w0 ?c0) |- _ =>
           destruct (open_and_dispatch_counts w0 c0) as (Hr1 & Hr2 & Hr3 & Hr4)
       end.
  all: cbn -[open_and_dispatch]; rewrite ?Hr3, ?Hr4; cbn [List.length];
    repeat split; lia.
Qed.

(** A bound on what capture or replay does, for something that main does
    nowhere else, bounds the whole run. *)
Lemma main_count (q : event -> bool) (k : nat) w cl :
  (forall e, loop_event e = true -> q e = false) ->
  (forall e, check_event e = true -> q e = false) ->
  (forall cfg, existsb q (fst (stop_output cfg)) = false) ->
  (forall cfg, (List.length (List.filter q (fst (process_packets w cfg))) <= k)%nat) ->
  (List.length (List.filter q (fst (main w cl))) <= k)%nat.
Proof.
  intros Hl Hc Hs Hp.
  destruct (main_parts w cl)
    as [[Hquiet _]|(cfg & t0 & t1 & _ & _ & H0 & H1 & _ & Hm)].
  - rewrite (filter_nil_existsb q _ (quiet_existsb q _ Hl Hc Hquiet)).
    cbn. lia.
  - rewrite Hm. specialize (Hp cfg).
    assert (Hq0 : List.filter q t0 = []).
    { apply filter_nil_existsb.
      eapply Forall_true_existsb_false; [exact Hl|exact H0]. }
    assert (Hq1 : List.filter q t1 = []).
    { apply filter_nil_existsb.
      eapply Forall_true_existsb_false; [exact Hc|exact H1]. }
    destruct (process_packets w cfg) as [t2 [cfg'|code]]; cbn [fst] in *.
    + rewrite !filter_app, Hq0, Hq1, (filter_nil_existsb q _ (Hs cfg')),
        app_nil_r. exact Hp.
    + rewrite !filter_app, Hq0, Hq1. exact Hp.
Qed.

(** X7.  Whatever thread count is configured, a run of main initialises
    the output thread at most once, creates at most one pcap reader thread
    and dispatches at most one capture; it makes at most two of these
    calls in all. *)
Theorem X7_at_most_one_reader w cl :
  (List.length (List.filter is_output_thread_init (fst (main w cl))) <= 1)%nat /\
  (List.length (List.filter is_create_reader (fst (main w cl))) <= 1)%nat /\
  (List.length (List.filter is_capture (fst (main w cl))) <= 1)%nat /\
  (List.length (List.filter spawns_thread (fst (main w cl))) <= 2)%nat.
Proof.
  repeat split; apply main_count;
    try by_class; try stop_output_none; intros cfg;
    apply process_packets_counts.
Qed.

Lemma reader_not_capture t :
  Forall (fun e => reader_event e = true) t ->
  existsb is_capture_event t = false.
Proof.
  intros H. eapply Forall_true_existsb_false; [|exact H]. by_class.
Qed.

Lemma process_packets_input w cfg :
  (capture_interface cfg <> None ->
   existsb is_replay_event (fst (process_packets w cfg)) = false) /\
  (capture_interface cfg = None ->
   existsb is_capture_event (fst (process_packets w cfg)) = false) /\
  (capture_interface cfg = None -> read_filename cfg = None ->
   existsb spawns_thread (fst (process_packets w cfg)) = false /\
   exists cfg', snd (process_packets w cfg) = Returned cfg').
Proof.
  remember (process_packets w cfg) as r eqn:Hr.
  unfold process_packets in Hr.
  run Hr; subst r; cbn [fst snd]; fold_reader.
  all: repeat split; try intros Hc; try intros Hf; try congruence;
    try reflexivity; try (eexists; reflexivity).
  all: cbn -[open_and_dispatch]; apply reader_not_capture;
    apply open_and_dispatch_events.
Qed.

(** X8.  The capture interface decides which input is used.  When the
    configuration names one, main captures and nothing of a file replay
    happens, also when a pcap file to read is configured as well (a
    configuration file can set both while counting as one input); when it
    names none, no capture is set up. *)
Theorem X8_capture_takes_precedence w cl cfg :
  parsed_config w cl = Some cfg ->
  (capture_interface cfg <> None ->
   existsb is_replay_event (fst (main w cl)) = false) /\
  (capture_interface cfg = None ->
   existsb is_capture_event (fst (main w cl)) = false).
Proof.
  intros Hp.
  destruct (main_parts w cl)
    as [[Hquiet _]|(cfg0 & t0 & t1 & Hp0 & _ & H0 & H1 & _ & Hm)].
  - split; intros _; apply quiet_existsb; try exact Hquiet; by_class.
  - rewrite Hp in Hp0. inversion Hp0; subst cfg0. clear Hp0.
    destruct (process_packets_input w cfg) as (Hcap & Hrep & _).
    assert (Hr0 : existsb is_replay_event t0 = false /\
                  existsb is_capture_event t0 = false).
    { split; (eapply Forall_true_existsb_false; [|exact H0]); by_class. }
    assert (Hr1 : existsb is_replay_event t1 = false /\
                  existsb is_capture_event t1 = false).
    { split; (eapply Forall_true_existsb_false; [|exact H1]); by_class. }
    destruct Hr0 as [Hr0 Hc0], Hr1 as [Hr1 Hc1].
    rewrite Hm.
    destruct (process_packets w cfg) as [t2 [cfg'|code]]; cbn [fst] in *;
      split; intros Hc; rewrite !existsb_app, ?Hr0, ?Hr1, ?Hc0, ?Hc1;
      rewrite ?(Hcap Hc), ?(Hrep Hc); try reflexivity.
    all: rewrite stop_output_trace; cbn [fst];
      destruct (truthy (analysis cfg')); reflexivity.
Qed.

Lemma X8_capture_takes_precedence_witness :
  read_filename
    (set_capture_interface (Some "eth0")
       (set_read_filename (Some "in.pcap") blank_config)) = Some "in.pcap" /\
  existsb is_replay_event
    (fst (main two_inputs_world (mercury [long_config "mercury.cfg"]))) = false.
Proof.
  split; [reflexivity|].
  apply (X8_capture_takes_precedence two_inputs_world
           (mercury [long_config "mercury.cfg"])
           (set_capture_interface (Some "eth0")
              (set_read_filename (Some "in.pcap") blank_config))).
  - reflexivity.
  - simpl. discriminate.
Defined.

(** X9.  A run that passes the checks with neither a capture interface
    nor a pcap file to read in its configuration (as with -d alone)
    starts nothing: output_thread_init is never called and no thread is
    created.  main still goes through the shutdown, joins output_thread,
    and returns 0. *)
Theorem X9_no_input_joins_unstarted_thread w cl cfg :
  parsed_config w cl = Some cfg ->
  passes_checks w cl cfg ->
  capture_interface cfg = None ->
  read_filename cfg = None ->
  snd (main w cl) = Returned 0 /\
  existsb spawns_thread (fst (main w cl)) = false /\
  In (call_pthread_join output_thread) (fst (main w cl)).
Proof.
  intros Hp (Hn & Hfw & Ht & Ha & Hl & Had) Hc Hr.
  destruct (parsed_config_some w cl cfg Hp) as (t0 & Hloop & Hev0).
  destruct (check_config_accepts w (argv0 cl) cfg Hfw Ht Ha Hl Had)
    as (t1 & Hcheck).
  pose proof (check_config_spec w (argv0 cl) cfg 1) as [Hev1 _].
  rewrite Hcheck in Hev1. cbn [fst] in Hev1.
  rewrite main_unfold, Hloop, Hn, Hcheck.
  destruct (process_packets_input w cfg) as (_ & _ & Hnone).
  destruct (Hnone Hc Hr) as (Hs & cfg' & Ho).
  destruct (process_packets w cfg) as [t2 [c|code]]; cbn [fst snd] in *;
    [|discriminate Ho].
  destruct (loop_not_pipeline _ Hev0) as (_ & Hs0 & _).
  destruct (check_not_pipeline _ Hev1) as (_ & Hs1).
  rewrite stop_output_trace. cbn [fst]. repeat split.
  - rewrite !existsb_app, Hs0, Hs1, Hs.
    destruct (truthy (analysis c)); reflexivity.
  - apply in_or_app; right; apply in_or_app; right; apply in_or_app; right.
    apply in_or_app; right. cbn. auto.
Qed.

Lemma X9_no_input_joins_unstarted_thread_witness :
  main calm_world (mercury [short "d" (Some "/tmp")]) =
  ([call_setup_signal_handler; call_get_nprocs; call_srand;
    Stderr msg_stopping_output; store_sig_stop_output 1;
    call_pthread_join output_thread; call_destroy_thread_queues],
   Returned 0) /\
  existsb spawns_thread
    (fst (main calm_world (mercury [short "d" (Some "/tmp")]))) = false.
Proof.
  split; [reflexivity|].
  apply (X9_no_input_joins_unstarted_thread calm_world
           (mercury [short "d" (Some "/tmp")])
           (set_working_dir (Some "/tmp") blank_config)).
  - reflexivity.
  - unfold passes_checks. simpl.
    repeat split; try reflexivity; try lia; auto; intros H; lia.
  - reflexivity.
  - reflexivity.
Defined.

(** ** The signal handlers *)

Lemma bind_ext {A B} (m : proc A) (k k' : A -> proc B) :
  (forall a, k a = k' a) -> bind m k = bind m k'.
Proof.
  intros H. unfold bind. destruct m as [t [a|code]]; [|reflexivity].
  rewrite H. reflexivity.
Qed.

Lemma getopt_loop_signal_handler s w p opts :
  forall st,
    getopt_loop (with_setup_signal_handler s w) p opts st =
    getopt_loop w p opts st.
Proof.
  induction opts as [|o rest IH]; intros st; [reflexivity|].
  cbn [getopt_loop].
  change (option_case (with_setup_signal_handler s w) p o st)
    with (option_case w p o st).
  apply bind_ext. exact IH.
Qed.

Lemma process_packets_signal_handler s w cfg :
  snd (process_packets (with_setup_signal_handler s w) cfg) =
  snd (process_packets w cfg) /\
  List.filter (fun e => negb (is_signal_handler_message e))
    (fst (process_packets (with_setup_signal_handler s w) cfg)) =
  List.filter (fun e => negb (is_signal_handler_message e))
    (fst (process_packets w cfg)).
Proof.
  unfold process_packets. rewrite !bind_emit. cbn [fst snd].
  change (setup_signal_handler (with_setup_signal_handler s w)) with s.
  change (get_nprocs (with_setup_signal_handler s w)) with (get_nprocs w).
  change (output_thread_init (with_setup_signal_handler s w))
    with (output_thread_init w).
  change (open_and_dispatch (with_setup_signal_handler s w))
    with (open_and_dispatch w).
  destruct (negb (s =? status_ok)),
    (negb (setup_signal_handler w =? status_ok)); cbn [when];
    rewrite ?bind_emit, ?bind_ret; cbn [fst snd];
    cbn [List.filter is_signal_handler_message negb];
    split; reflexivity.
Qed.

(** X10.  The status of setup_signal_handler changes nothing but one
    line: with any other answer of that call, main ends with the same
    status and does the same things in the same order, the message that
    the signal handlers could not be set up aside. *)
Theorem X10_signal_handler_failure_is_not_fatal w cl s :
  snd (main (with_setup_signal_handler s w) cl) = snd (main w cl) /\
  List.filter (fun e => negb (is_signal_handler_message e))
    (fst (main (with_setup_signal_handler s w) cl)) =
  List.filter (fun e => negb (is_signal_handler_message e))
    (fst (main w cl)).
Proof.
  rewrite !main_unfold, getopt_loop_signal_handler.
  change (mercury_config_init (with_setup_signal_handler s w))
    with (mercury_config_init w).
  destruct (getopt_loop _ _ _ _) as [t0 [[cfg n]|code]];
    [|split; reflexivity].
  change (check_config (with_setup_signal_handler s w))
    with (check_config w).
  destruct (check_config _ _ _ _) as [t1 [u|code]]; [|split; reflexivity].
  destruct (process_packets_signal_handler s w cfg) as [Ho Hf].
  destruct (process_packets (with_setup_signal_handler s w) cfg)
    as [t2 [c2|code2]],
    (process_packets w cfg) as [t2' [c2'|code2']];
    cbn [fst snd] in *; try discriminate Ho; inversion Ho; subst;
    (split; [reflexivity|]); rewrite !filter_app, Hf; reflexivity.
Qed.

(** ** The analysis engine *)

Lemma check_config_analysis w p cfg n t u :
  check_config w p cfg n = (t, Returned u) ->
  existsb is_analysis_init t = truthy (analysis cfg) /\
  only_after is_analysis_init is_analysis_finalize t.
Proof.
  intros H. symmetry in H. unfold check_config, usage, return_from_main in H.
  run H; inversion H; subst; unfold truthy;
    repeat match goal with
    | E : (analysis cfg =? 0) = _ |- _ => rewrite E
    end;
    (split; [reflexivity | apply only_after_no_q; reflexivity]).
Qed.

(** X11.  analysis_finalize is called only in a run that called
    analysis_init before.  A run that returns 0 calls both or neither; a
    run that ends the process on the way, also after analysis_init (when
    the output thread does not start, or the reader thread cannot be
    woken or created), never calls analysis_finalize. *)
Theorem X11_analysis_init_and_finalize w cl :
  only_after is_analysis_init is_analysis_finalize (fst (main w cl)) /\
  match snd (main w cl) with
  | Returned _ =>
      existsb is_analysis_init (fst (main w cl)) =
      existsb is_analysis_finalize (fst (main w cl))
  | Exited _ => existsb is_analysis_finalize (fst (main w cl)) = false
  end.
Proof.
  destruct (main_parts w cl)
    as [[Hquiet [code Hcode]]|(cfg & t0 & t1 & _ & _ & H0 & H1 & Hcheck & Hm)].
  - assert (Hf : existsb is_analysis_finalize (fst (main w cl)) = false)
      by (apply quiet_existsb; try exact Hquiet; by_class).
    rewrite Hcode. split; [apply only_after_no_q|]; exact Hf.
  - rewrite Hm.
    destruct (check_config_analysis _ _ _ _ _ _ Hcheck) as [Hi1 _].
    assert (Hi0 : existsb is_analysis_init t0 = false)
      by (eapply Forall_true_existsb_false; [|exact H0]; by_class).
    assert (Hf0 : existsb is_analysis_finalize t0 = false)
      by (eapply Forall_true_existsb_false; [|exact H0]; by_class).
    assert (Hf1 : existsb is_analysis_finalize t1 = false)
      by (eapply Forall_true_existsb_false; [|exact H1]; by_class).
    pose proof (process_packets_events w cfg) as Hev2.
    pose proof (process_packets_joins w cfg) as Hj.
    assert (Hi2 : existsb is_analysis_init (fst (process_packets w cfg)) = false)
      by (eapply Forall_true_existsb_false; [|exact Hev2]; by_class).
    assert (Hf2 : existsb is_analysis_finalize (fst (process_packets w cfg)) = false)
      by (eapply Forall_true_existsb_false; [|exact Hev2]; by_class).
    destruct (process_packets w cfg) as [t2 [cfg'|code]]; cbn [fst snd] in *.
    + destruct Hj as [_ Ha]. rewrite stop_output_trace. cbn [fst].
      unfold truthy in *. rewrite Ha.
      destruct (analysis cfg =? 0); cbn [negb] in *.
      * split.
        -- apply only_after_no_q.
           rewrite !existsb_app, Hf0, Hf1, Hf2. reflexivity.
        -- rewrite !existsb_app, Hi0, Hi1, Hi2, Hf0, Hf1, Hf2. reflexivity.
      * split.
        -- apply only_after_app; [apply only_after_no_q; exact Hf0|right].
           apply only_after_app; [apply only_after_no_q; exact Hf1|left].
           exact Hi1.
        -- rewrite !existsb_app, Hi0, Hi1, Hi2, Hf0, Hf1, Hf2. reflexivity.
    + split; [apply only_after_no_q|];
        rewrite !existsb_app, Hf0, Hf1, Hf2; reflexivity.
Qed.

(** ** What the pipeline is given *)

Lemma open_and_dispatch_loops w cfg :
  Forall (fun e => forall n, dispatch_loops e = Some n -> n = loop_count cfg)
    (fst (open_and_dispatch w cfg)).
Proof.
  remember (open_and_dispatch w cfg) as r eqn:Hr.
  unfold open_and_dispatch, pcap_reader_thread_context_init_from_config,
    pcap_file_processing_thread_func in Hr.
  run Hr; subst r; cbn [fst];
    repeat (constructor; [cbn; intros n Hn; congruence|]); constructor.
Qed.

Lemma process_packets_loops w cfg :
  Forall (fun e => forall n, dispatch_loops e = Some n -> n = loop_count cfg)
    (fst (process_packets w cfg)).
Proof.
  remember (process_packets w cfg) as r eqn:Hr.
  unfold process_packets in Hr.
  run Hr; subst r; cbn [fst]; fold_reader;
    repeat (constructor; [cbn; intros n Hn; congruence|]); try constructor.
  all: match goal with
       | |- Forall _ (fst (open_and_dispatch ?w0 ?c0)) =>
           exact (open_and_dispatch_loops w0 c0)
       end.
Qed.

(** Where an event that only capture or replay emits stands in a run. *)
Lemma main_processing_in (e : event) w cl :
  loop_event e = false -> check_event e = false ->
  (forall cfg, ~ In e (fst (stop_output cfg))) ->
  In e (fst (main w cl)) ->
  exists cfg,
    parsed_config w cl = Some cfg /\ passes_checks w cl cfg /\
    In e (fst (process_packets w cfg)).
Proof.
  intros Hl Hc Hs Hin.
  destruct (main_parts w cl)
    as [[Hquiet _]|(cfg & t0 & t1 & Hp & Hpass & H0 & H1 & _ & Hm)].
  - rewrite Forall_forall in Hquiet. destruct (Hquiet _ Hin); congruence.
  - exists cfg. split; [exact Hp|split; [exact Hpass|]].
    rewrite Hm in Hin. rewrite Forall_forall in H0, H1.
    destruct (process_packets w cfg) as [t2 [cfg'|code]]; cbn [fst] in *.
    + apply in_app_or in Hin. destruct Hin as [Hin|Hin];
        [specialize (H0 _ Hin); congruence|].
      apply in_app_or in Hin. destruct Hin as [Hin|Hin];
        [specialize (H1 _ Hin); congruence|].
      apply in_app_or in Hin. destruct Hin as [Hin|Hin]; [exact Hin|].
      exfalso. exact (Hs _ Hin).
    + apply in_app_or in Hin. destruct Hin as [Hin|Hin];
        [specialize (H0 _ Hin); congruence|].
      apply in_app_or in Hin. destruct Hin as [Hin|Hin];
        [specialize (H1 _ Hin); congruence|]. exact Hin.
Qed.

Ltac not_in_stop_output :=
  let cfg := fresh "cfg" in
  let H := fresh "H" in
  intros cfg H; rewrite stop_output_trace in H; cbn [fst] in H;
  destruct (truthy (analysis cfg)); cbn in H;
  decompose [or] H; try discriminate; assumption.

(** X12.  The pcap file is always dispatched with the loop count of the
    configuration that the option loop collected, and that count is at
    least 1. *)
Theorem X12_dispatch_loop_count w cl n :
  In (call_pcap_file_dispatch_pkt_processor n) (fst (main w cl)) ->
  exists cfg,
    parsed_config w cl = Some cfg /\ n = loop_count cfg /\ 1 <= n.
Proof.
  intros Hin.
  destruct (main_processing_in (call_pcap_file_dispatch_pkt_processor n) w cl)
    with (4 := Hin) as (cfg & Hp & Hpass & Hin2);
    [reflexivity | reflexivity | not_in_stop_output |].
  exists cfg. split; [exact Hp|].
  pose proof (process_packets_loops w cfg) as Hl.
  rewrite Forall_forall in Hl. specialize (Hl _ Hin2 n eq_refl).
  destruct Hpass as (_ & _ & _ & _ & Hlc & _).
  split; [exact Hl|]. rewrite Hl. exact Hlc.
Qed.

Lemma X12_dispatch_loop_count_witness :
  exists cfg,
    parsed_config calm_world
      (mercury [short "r" (Some "in.pcap"); short "p" (Some "3")]) = Some cfg /\
    3 = loop_count cfg /\ 1 <= 3.
Proof.
  apply (X12_dispatch_loop_count calm_world
           (mercury [short "r" (Some "in.pcap"); short "p" (Some "3")]) 3).
  vm_compute. auto 20.
Defined.

(** X13.  Every call that sets up the pipeline (output_thread_init,
    af_packet_bind_and_dispatch, pkt_proc_new_from_config) is given the
    configuration the option loop collected, changed in one case only: a
    thread count of -1 is replaced by the number of processors.  Any
    other thread count, 0 and the negative ones included, is handed on as
    it is. *)
Theorem X13_pipeline_configuration w cl e c :
  In e (fst (main w cl)) ->
  event_cfg e = Some c ->
  exists cfg,
    parsed_config w cl = Some cfg /\ passes_checks w cl cfg /\
    c = pipeline_config w cfg.
Proof.
  intros Hin Hc.
  destruct (main_processing_in e w cl) with (4 := Hin)
    as (cfg & Hp & Hpass & Hin2).
  - destruct e; try discriminate Hc; reflexivity.
  - destruct e; try discriminate Hc; reflexivity.
  - intros cfg H. rewrite stop_output_trace in H. cbn [fst] in H.
    destruct (truthy (analysis cfg)); cbn in H;
      decompose [or] H; subst; try discriminate; assumption.
  - exists cfg. split; [exact Hp|split; [exact Hpass|]].
    pose proof (process_packets_cfg w cfg) as Hcfg.
    rewrite Forall_forall in Hcfg. exact (Hcfg _ Hin2 c Hc).
Qed.

Lemma X13_pipeline_configuration_witness :
  exists cfg,
    parsed_config calm_world
      (mercury [short "r" (Some "in.pcap"); short "f" (Some "fp.json");
                short "t" (Some "0")]) = Some cfg /\
    passes_checks calm_world
      (mercury [short "r" (Some "in.pcap"); short "f" (Some "fp.json");
                short "t" (Some "0")]) cfg /\
    set_num_threads 0
      (set_fingerprint_filename (Some "fp.json")
         (set_read_filename (Some "in.pcap") blank_config)) =
    pipeline_config calm_world cfg.
Proof.
  apply (X13_pipeline_configuration calm_world
           (mercury [short "r" (Some "in.pcap"); short "f" (Some "fp.json");
                     short "t" (Some "0")])
           (call_output_thread_init
              (set_num_threads 0
                 (set_fingerprint_filename (Some "fp.json")
                    (set_read_filename (Some "in.pcap") blank_config))))).
  - vm_compute. auto 20.
  - reflexivity.
Defined.

(** ** The last option counts *)

Lemma parsed_last_name (field : mercury_config -> c_string) (c : Z) w cl :
  (forall o cfg n t cfg' n',
      option_case w (argv0 cl) o (cfg, n) = (t, Returned (cfg', n')) ->
      (opt o =? 1) = false ->
      field cfg' = if opt o =? c then optarg o else field cfg) ->
  (c =? 1) = false ->
  forall arg cfg,
    last_option (options cl) c arg ->
    parsed_config w cl = Some cfg ->
    field cfg = arg.
Proof.
  intros Hstep Hc1 arg cfg (before & after & Hopts & Hc & H1) Hp.
  apply parsed_config_some in Hp. destruct Hp as (t0 & Hloop & _).
  rewrite Hopts in Hloop at 1.
  apply getopt_loop_app_returned in Hloop.
  destruct Hloop as (ta & [cfga na] & tb & _ & Hb & _).
  apply getopt_loop_cons_returned in Hb.
  destruct Hb as (tc & [cfgc nc] & td & Hoc & Hd & _).
  assert (Hn : field cfgc = arg).
  { rewrite (Hstep _ _ _ _ _ _ Hoc Hc1). cbn [opt optarg].
    rewrite Z.eqb_refl. reflexivity. }
  rewrite <- Hn. revert Hd.
  apply (getopt_loop_keeps_field field c); auto.
  intros o c0 n0 s0 c1 n1 H E Et.
  rewrite (Hstep _ _ _ _ _ _ H E), Et. reflexivity.
Qed.

(** X14.  For each of -r, -w, -f and -c, the name that the configuration
    holds at the end of the option loop is the argument of the last such
    option on the command line, when no configuration file is read after
    it: a later option overrides an earlier one without a message. *)
Theorem X14_last_name_option_wins w cl c arg cfg :
  existsb (Z.eqb c) [ch "r"; ch "w"; ch "f"; ch "c"] = true ->
  last_option (options cl) c arg ->
  parsed_config w cl = Some cfg ->
  name_field c cfg = arg.
Proof.
  intros Hc Hlast Hp. cbn [existsb] in Hc.
  repeat (apply orb_true_iff in Hc; destruct Hc as [Hc|Hc]);
    try discriminate Hc; apply Z.eqb_eq in Hc; subst c.
  - change (read_filename cfg = arg).
    apply (parsed_last_name read_filename (ch "r") w cl); auto.
    intros o c0 n0 t c1 n1 H E.
    destruct (option_case_fields _ _ _ _ _ _ _ _ H E)
      as (_ & _ & _ & -> & _). reflexivity.
  - change (write_filename cfg = arg).
    apply (parsed_last_name write_filename (ch "w") w cl); auto.
    intros o c0 n0 t c1 n1 H E.
    destruct (option_case_fields _ _ _ _ _ _ _ _ H E)
      as (_ & -> & _). reflexivity.
  - change (fingerprint_filename cfg = arg).
    apply (parsed_last_name fingerprint_filename (ch "f") w cl); auto.
    intros o c0 n0 t c1 n1 H E.
    destruct (option_case_fields _ _ _ _ _ _ _ _ H E)
      as (-> & _). reflexivity.
  - change (capture_interface cfg = arg).
    apply (parsed_last_name capture_interface (ch "c") w cl); auto.
    intros o c0 n0 t c1 n1 H E.
    destruct (option_case_fields _ _ _ _ _ _ _ _ H E)
      as (_ & _ & -> & _). reflexivity.
Qed.

Lemma X14_last_name_option_wins_witness :
  name_field (ch "w")
    (set_write_filename (Some "b.pcap")
       (set_read_filename (Some "in.pcap")
          (set_write_filename (Some "a.pcap") blank_config))) = Some "b.pcap".
Proof.
  apply (X14_last_name_option_wins calm_world
           (mercury [short "w" (Some "a.pcap"); short "r" (Some "in.pcap");
                     short "w" (Some "b.pcap")])).
  - reflexivity.
  - exists [short "w" (Some "a.pcap"); short "r" (Some "in.pcap")], [].
    repeat split; reflexivity.
  - reflexivity.
Defined.

(** ** The buffer fraction *)





(** ** The reader's context *)

(** X16.  pcap_reader_thread_context_init_from_config always returns to
    its caller.  The context holds the thread number and the loop count
    of the configuration.  The status is status_ok exactly when the
    packet processor was created and, if a pcap file to read is
    configured, its name was put together and the file was opened; the
    context holds an open file exactly in that last case.  When the
    packet processor could not be created, no file is opened. *)
Theorem X16_reader_context w cfg n :
  exists t tc st,
    pcap_reader_thread_context_init_from_config w cfg n =
      (t, Returned (tc, st)) /\
    tnum tc = n /\ tc_loop_count tc = loop_count cfg /\
    pkt_processor tc = pkt_proc_new_from_config w cfg n /\
    (st = status_ok <->
     pkt_proc_new_from_config w cfg n <> None /\
     forall name, read_filename cfg = Some name ->
       snd (filename_append w name "/") = status_ok /\
       pcap_file_open w (fst (filename_append w name "/")) (flags cfg)
       = status_ok) /\
    (rf tc <> None <-> st = status_ok /\ read_filename cfg <> None) /\
    (pkt_proc_new_from_config w cfg n = None ->
     existsb is_pcap_file_open t = false).
Proof.
  remember (pcap_reader_thread_context_init_from_config w cfg n) as r eqn:Hr.
  unfold pcap_reader_thread_context_init_from_config in Hr.
  run Hr; subst r; eexists _, _, _; (split; [reflexivity|]);
    cbn [tnum tc_loop_count pkt_processor rf]; z_facts;
    unfold status_ok, status_err in *.
  all: repeat split; intros;
    repeat match goal with
    | H : Some _ = Some _ |- _ => inversion H; subst; clear H
    | H : _ /\ _ |- _ => destruct H
    | H : forall name, Some ?s = Some name -> _ |- _ => specialize (H s eq_refl)
    end;
    repeat match goal with
    | E : filename_append _ _ _ = _ |- _ => rewrite E in *
    end;
    cbn [fst snd] in *; try congruence; try discriminate; try lia.
Qed.

(** ** An output thread that does not start *)

Lemma process_packets_output_failure w cfg :
  existsb is_output_thread_init (fst (process_packets w cfg)) = true ->
  output_thread_init w (pipeline_config w cfg) <> 0 ->
  exists pre,
    process_packets w cfg =
      (pre ++ [call_output_thread_init (pipeline_config w cfg);
               Stderr msg_output_thread_init], Exited EXIT_FAILURE) /\
    existsb spawns_thread pre = false /\
    existsb producer_event pre = false /\
    existsb is_replay_event pre = false.
Proof.
  unfold pipeline_config.
  remember (process_packets w cfg) as r eqn:Hr.
  unfold process_packets in Hr.
  run Hr; subst r; cbn [fst snd]; fold_reader; intros He Hne;
    try discriminate He; z_facts; try congruence.
  all: lazymatch goal with
       | |- exists pre, (?l, _) = _ /\ _ =>
           let n := eval cbv in (List.length l - 2)%nat in
           exists (firstn n l)
       end.
  all: repeat split; reflexivity.
Qed.

(** X17.  When output_thread_init fails, main reports it and returns
    EXIT_FAILURE at once: these are the last two things the run does, no
    thread was created before, no capture is dispatched and nothing of a
    replay happens. *)
Theorem X17_output_thread_failure w cl cfg :
  parsed_config w cl = Some cfg ->
  existsb is_output_thread_init (fst (main w cl)) = true ->
  output_thread_init w (pipeline_config w cfg) <> 0 ->
  snd (main w cl) = Exited EXIT_FAILURE /\
  (exists pre,
      fst (main w cl) =
        pre ++ [call_output_thread_init (pipeline_config w cfg);
                Stderr msg_output_thread_init] /\
      existsb spawns_thread pre = false) /\
  existsb producer_event (fst (main w cl)) = false /\
  existsb is_replay_event (fst (main w cl)) = false.
Proof.
  intros Hp Hinit Hne.
  destruct (main_parts w cl)
    as [[Hquiet _]|(cfg0 & t0 & t1 & Hp0 & _ & H0 & H1 & _ & Hm)].
  - rewrite (quiet_existsb is_output_thread_init _) in Hinit;
      [discriminate Hinit | by_class | by_class | exact Hquiet].
  - rewrite Hp in Hp0. inversion Hp0; subst cfg0. clear Hp0.
    assert (Hq0 : existsb is_output_thread_init t0 = false /\
                  existsb spawns_thread t0 = false /\
                  existsb producer_event t0 = false /\
                  existsb is_replay_event t0 = false).
    { repeat split; (eapply Forall_true_existsb_false; [|exact H0]); by_class. }
    assert (Hq1 : existsb is_output_thread_init t1 = false /\
                  existsb spawns_thread t1 = false /\
                  existsb producer_event t1 = false /\
                  existsb is_replay_event t1 = false).
    { repeat split; (eapply Forall_true_existsb_false; [|exact H1]); by_class. }
    destruct Hq0 as (Hi0 & Hs0 & Hd0 & Hr0), Hq1 as (Hi1 & Hs1 & Hd1 & Hr1).
    assert (Hq : existsb is_output_thread_init (fst (process_packets w cfg)) = true).
    { rewrite Hm in Hinit.
      destruct (process_packets w cfg) as [t2 [cfg'|code]]; cbn [fst] in *;
        rewrite !existsb_app, Hi0, Hi1 in Hinit; cbn [orb] in Hinit.
      - rewrite stop_output_trace in Hinit. cbn [fst] in Hinit.
        destruct (truthy (analysis cfg')); cbn in Hinit;
          rewrite orb_false_r in Hinit; exact Hinit.
      - exact Hinit. }
    destruct (process_packets_output_failure w cfg Hq Hne)
      as (pre & Hpp & Hsp & Hdp & Hrp).
    rewrite Hm, Hpp. cbn [fst snd]. split; [reflexivity|]. split.
    + exists (t0 ++ t1 ++ pre). split.
      * rewrite <- !app_assoc. reflexivity.
      * rewrite !existsb_app, Hs0, Hs1, Hsp. reflexivity.
    + rewrite !existsb_app, Hd0, Hd1, Hdp, Hr0, Hr1, Hrp. split; reflexivity.
Qed.

Lemma X17_output_thread_failure_witness :
  main no_output_world (mercury [short "c" (Some "eth0")]) =
  ([call_setup_signal_handler; call_get_nprocs; call_srand;
    call_ring_limits_init (FFinite (1 # 10));
    call_output_thread_init (set_capture_interface (Some "eth0") blank_config);
    Stderr msg_output_thread_init], Exited EXIT_FAILURE) /\
  existsb producer_event
    (fst (main no_output_world (mercury [short "c" (Some "eth0")]))) = false.
Proof.
  split; [reflexivity|].
  apply (X17_output_thread_failure no_output_world
           (mercury [short "c" (Some "eth0")])
           (set_capture_interface (Some "eth0") blank_config)).
  - reflexivity.
  - reflexivity.
  - simpl. lia.
Defined.
